(** * The plugin / feature registry core of the extension template

    A shallow embedding of [src/core/feature-registry.ts] and
    [src/core/plugin-manager.ts] together with the interfaces they use,
    and the properties of the registry and of the plugin manager that the
    specification states.

    JavaScript values are modelled as the code has them:
    - a [Map] is an insertion-ordered association list ([JsMap]) wherever the
      code observes the iteration order (the implementation tables, the plugin
      table, the per-plugin results), and a [gmap] where it is only ever
      looked up (the default-implementation table and the alias table);
    - the plain object that [getStats] fills is the map of its own
      properties together with the names it inherits from
      [Object.prototype];
    - an optional field is an [option]; the truthiness tests of the source
      ([x || y], [if (x)], [!x]) are written out: the empty string and the
      number 0 are falsy;
    - a call that may throw returns an [Outcome]; what is thrown is any
      value, and its conversion to a string, which the [catch] blocks of
      the manager perform, may itself throw;
    - [new Date()] is a clock value handed to the operation;
    - the live DOM is the state threaded through the [execute] calls;
    - the callbacks of features and plugins ([isApplicable], [execute],
      [initialize], ...) act on what they are handed and do not call back
      into the registry or the manager.

    [PluginManager.initialize] loads modules dynamically and is not
    embedded: an initialized manager is one whose [isInitialized] is true. *)

From Stdlib Require Import ZArith String List Lia Sorted Permutation.
From stdpp Require Import base option strings gmap.
Import ListNotations.

Local Open Scope string_scope.
Local Open Scope list_scope.

(** ** JavaScript values *)

(** What a [throw] can carry: any value.  A string; an [Error] object with
    its [name] and [message]; any other value that can be converted to a
    string, given with the string it converts to (a plain object converts to
    "[object Object]" whatever its properties, [null] to "null", a number to
    its digits); or a value whose conversion to a string throws (a [Symbol],
    an object without a usable [toString]), given with what the conversion
    throws. *)
Inductive JsThrown : Type :=
| ThrownString (s : string)
| ThrownError (name message : string)
| ThrownOther (rendering : string)
| ThrownUnprintable (raised : JsThrown).

Inductive Outcome (A : Type) : Type :=
| Returns (a : A)
| Throws (e : JsThrown).
Arguments Returns {A} a.
Arguments Throws {A} e.

(** The message of a thrown string or [Error].  The code never reads any
    property of what it catches, so the other values are given without
    one. *)
Definition thrownMessage (e : JsThrown) : option string :=
  match e with
  | ThrownString s => Some s
  | ThrownError _ message => Some message
  | ThrownOther _ => None
  | ThrownUnprintable _ => None
  end.

(** [String(error)], as the template literal [`${error}`] computes it: a
    string is itself, an [Error] goes through [Error.prototype.toString],
    and the conversion of another value gives its string or throws. *)
Definition toStringThrown (e : JsThrown) : Outcome string :=
  match e with
  | ThrownString s => Returns s
  | ThrownError name message =>
      Returns (if decide (name = "") then message
               else if decide (message = "") then name
               else (name ++ ": " ++ message)%string)
  | ThrownOther rendering => Returns rendering
  | ThrownUnprintable raised => Throws raised
  end.

(** [new Error(message)] *)
Definition newError (message : string) : JsThrown := ThrownError "Error" message.

(** Truthiness of an optional string: [undefined] and [""] are falsy. *)
Definition truthy (s : option string) : option string :=
  match s with
  | Some v => if decide (v = "") then None else Some v
  | None => None
  end.

(** [a || b] on optional strings. *)
Definition orElse (a b : option string) : option string :=
  match truthy a with
  | Some v => Some v
  | None => b
  end.

(** [a === b] between a [string | undefined] and a [string]. *)
Definition strictEq (a : option string) (b : string) : bool :=
  match a with
  | Some v => bool_decide (v = b)
  | None => false
  end.

(** [s] occurs inside [t]. *)
Definition contains (s t : string) : Prop :=
  exists pre post : string, t = (pre ++ s ++ post)%string.

#[local] Unset Elimination Schemes.
Inductive JsonValue : Type :=
| JNull
| JBool (b : bool)
| JNum (n : Z)
| JStr (s : string)
| JArr (items : list JsonValue)
| JObj (fields : list (string * JsonValue)).
#[local] Set Elimination Schemes.

(** [Record<string, any>]; [{}] is the empty list. *)
Definition Settings : Type := list (string * JsonValue).

(** The DOM of the page, abstracted to the actions applied to it so far. *)
Definition Document : Type := list string.

(** [StorageUtils] wraps [chrome.storage.local].  In the core only
    [loadGlobalSettings], a part of [initialize], calls one of its methods;
    the operations embedded here pass the object on and never call it, so it
    is an opaque handle naming the storage area. *)
Inductive StorageUtils : Type :=
| StorageHandle (area : string).

(** ** JavaScript [Map]: an insertion-ordered table *)

Module JsMap.
Section Ops.
Context {V : Type}.

Definition t : Type := list (string * V).

Definition empty : t := [].

Fixpoint get (k : string) (m : t) : option V :=
  match m with
  | [] => None
  | (k', v) :: rest => if decide (k' = k) then Some v else get k rest
  end.

Definition has (k : string) (m : t) : bool :=
  match get k m with
  | Some _ => true
  | None => false
  end.

(** [set] keeps the position of a key that is present and appends a new
    one. *)
Fixpoint set (k : string) (v : V) (m : t) : t :=
  match m with
  | [] => [(k, v)]
  | (k', v') :: rest =>
      if decide (k' = k) then (k, v) :: rest else (k', v') :: set k v rest
  end.

(** A key is bound at most once in a table built with [set], so dropping
    every binding of the key drops the one there is. *)
Definition delete (k : string) (m : t) : t :=
  List.filter (fun kv => negb (bool_decide (fst kv = k))) m.

Definition keys (m : t) : list string := List.map fst m.
Definition values (m : t) : list V := List.map snd m.
Definition entries (m : t) : list (string * V) := m.
Definition size (m : t) : nat := length m.
End Ops.
Arguments t V : clear implicits.
End JsMap.

(** ** Interfaces *)

Module FeatureMapping.
Record t : Type := mk {
  featureId : string;
  implementation : option string;
  enabled : bool;
  settings : option Settings;
  priority : option Z
}.
End FeatureMapping.

Module UrlMatchRule.
Inductive MatchType : Type := glob | regex | exact.
Record t : Type := mk {
  pattern : string;
  type : MatchType;
  include : bool
}.
End UrlMatchRule.

Module SiteConfig.
Record t : Type := mk {
  id : string;
  name : string;
  description : option string;
  urlRules : list UrlMatchRule.t;
  enabledFeatures : list FeatureMapping.t;
  settings : option Settings;
  priority : option Z;
  enabled : option bool;
  createdAt : option Z;
  updatedAt : option Z
}.
End SiteConfig.

Module FeatureExecutionContext.
Record t : Type := mk {
  siteConfig : SiteConfig.t;
  settings : Settings;
  document : Document;
  storage : StorageUtils;
  url : string
}.
End FeatureExecutionContext.

Module FeatureExecutionResult.
Record t : Type := mk {
  success : bool;
  error : option string;
  actions : option (list string)
}.
End FeatureExecutionResult.

Module Feature.
(** [implementationName] is [Some] exactly when the object has the property
    (a [FeatureImplementation]).  [execute] receives the DOM in its context
    and leaves a DOM behind, whether it resolves or rejects.  The optional
    members the core never calls ([configure], [getDefaultConfig],
    [dispose], [targetSites]) are left out; [getStatus], which only
    [queryFeatures] calls, is handed to that query. *)
Record t : Type := mk {
  id : string;
  name : string;
  description : string;
  version : string;
  author : option string;
  tags : option (list string);
  implementationName : option string;
  isApplicable : string -> option SiteConfig.t -> Outcome bool;
  execute : FeatureExecutionContext.t ->
            Outcome FeatureExecutionResult.t * Document
}.
End Feature.

Module PluginStatus.
Inductive t : Type := UNLOADED | LOADING | LOADED | ACTIVE | INACTIVE | ERROR.
End PluginStatus.

Module PluginInitializationContext.
(** The [pluginManager] back reference of the source is left out: the
    lifecycle callbacks are modelled as not re-entering the manager. *)
Record t : Type := mk {
  storage : StorageUtils;
  messaging : option string;
  settings : Settings
}.
End PluginInitializationContext.

Module Plugin.
(** [initialize], [activate], [deactivate] and [dispose] resolve ([None]) or
    reject with what they throw.  The descriptive members the core never
    reads ([author], [homepage], [dependencies], the configuration
    accessors) are left out. *)
Record t : Type := mk {
  id : string;
  name : string;
  version : string;
  description : string;
  features : list Feature.t;
  status : PluginStatus.t;
  initialize : PluginInitializationContext.t -> option JsThrown;
  activate : option (unit -> option JsThrown);
  deactivate : option (unit -> option JsThrown);
  dispose : option (unit -> option JsThrown)
}.

(** [plugin.status = s] *)
Definition setStatus (s : PluginStatus.t) (p : t) : t :=
  mk (id p) (name p) (version p) (description p) (features p) s
     (initialize p) (activate p) (deactivate p) (dispose p).
End Plugin.

(** ** [Array.prototype.sort] *)

(** The sort of the language is stable.  With a comparator that is the
    difference of two integer keys every stable sort returns the same array;
    it is computed here by insertion, an element going before the first one
    it does not exceed. *)
Section Sort.
Context {A : Type} (compare : A -> A -> Z).

Fixpoint insertSorted (x : A) (l : list A) : list A :=
  match l with
  | [] => [x]
  | y :: rest =>
      if (compare x y <=? 0)%Z then x :: y :: rest
      else y :: insertSorted x rest
  end.

Fixpoint stableSort (l : list A) : list A :=
  match l with
  | [] => []
  | x :: rest => insertSorted x (stableSort rest)
  end.
End Sort.

(** The comparator that orders by an integer key, and the order it sorts
    into. *)
Definition byKey {A : Type} (key : A -> Z) (a b : A) : Z := (key a - key b)%Z.
Definition keyLe {A : Type} (key : A -> Z) (a b : A) : Prop :=
  (key a <= key b)%Z.

(** ** The feature registry *)

Module FeatureRegistryEntry.
Record t : Type := mk {
  feature : Feature.t;
  registeredAt : Z;
  pluginId : option string
}.
End FeatureRegistryEntry.

Module FeatureRegistry.

Record t : Type := mk {
  features : JsMap.t (JsMap.t FeatureRegistryEntry.t);
  defaultImplementations : gmap string string;
  aliases : gmap string string
}.

(** [new FeatureRegistry()] *)
Definition new : t := mk JsMap.empty ∅ ∅.

Definition getImplementationName (feature : Feature.t) : string :=
  match Feature.implementationName feature with
  | Some implementationName => implementationName
  | None => "default"
  end.

Definition registerFeature (feature : Feature.t) (pluginId : option string)
    (isDefault : bool) (now : Z) (r : t) : t :=
  let featureId := Feature.id feature in
  let implementationName := getImplementationName feature in
  let features1 :=
    if negb (JsMap.has featureId (features r))
    then JsMap.set featureId JsMap.empty (features r)
    else features r in
  let implementations :=
    match JsMap.get featureId features1 with
    | Some implementations => implementations
    | None => JsMap.empty
    end in
  let implementations1 :=
    JsMap.set implementationName
      (FeatureRegistryEntry.mk feature now pluginId) implementations in
  let defaults1 :=
    if isDefault || negb (bool_decide (is_Some (defaultImplementations r !! featureId)))
    then <[featureId := implementationName]> (defaultImplementations r)
    else defaultImplementations r in
  mk (JsMap.set featureId implementations1 features1) defaults1 (aliases r).

(** [this.aliases.get(featureId) || featureId] *)
Definition resolveAlias (r : t) (featureId : string) : string :=
  match truthy (aliases r !! featureId) with
  | Some target => target
  | None => featureId
  end.

Definition getFeature (r : t) (featureId : string)
    (implementationName : option string) : option Feature.t :=
  let resolvedFeatureId := resolveAlias r featureId in
  match JsMap.get resolvedFeatureId (features r) with
  | None => None
  | Some implementations =>
      let implName :=
        orElse implementationName (defaultImplementations r !! resolvedFeatureId) in
      match truthy implName with
      | None => None
      | Some implName =>
          match JsMap.get implName implementations with
          | Some entry => Some (FeatureRegistryEntry.feature entry)
          | None => None
          end
      end
  end.

(** [mapping.priority || 999] *)
Definition priorityOr999 (mapping : FeatureMapping.t) : Z :=
  match FeatureMapping.priority mapping with
  | Some p => if decide (p = 0%Z) then 999%Z else p
  | None => 999%Z
  end.

Definition comparePriority (a b : FeatureMapping.t) : Z :=
  (priorityOr999 a - priorityOr999 b)%Z.

Definition sortedMappings (siteConfig : SiteConfig.t) : list FeatureMapping.t :=
  stableSort comparePriority (SiteConfig.enabledFeatures siteConfig).

(** One turn of the loop of [getApplicableFeatures]. *)
Definition applicableStep (r : t) (siteConfig : SiteConfig.t) (url : string)
    (applicableFeatures : list Feature.t) (mapping : FeatureMapping.t)
    : list Feature.t :=
  if negb (FeatureMapping.enabled mapping) then applicableFeatures
  else
    match getFeature r (FeatureMapping.featureId mapping)
                       (FeatureMapping.implementation mapping) with
    | None => applicableFeatures
    | Some feature =>
        match Feature.isApplicable feature url (Some siteConfig) with
        | Returns true => applicableFeatures ++ [feature]
        | Returns false => applicableFeatures
        | Throws _ => applicableFeatures
        end
    end.

Definition getApplicableFeatures (r : t) (siteConfig : SiteConfig.t)
    (url : string) : list Feature.t :=
  fold_left (applicableStep r siteConfig url) (sortedMappings siteConfig) [].

(** The loop of [unregisterFeature] over the implementations of one plugin:
    the table that is left, and whether anything was removed. *)
Definition removePluginImplementations (pluginId : string)
    (implementations : JsMap.t FeatureRegistryEntry.t)
    : JsMap.t FeatureRegistryEntry.t * bool :=
  fold_left
    (fun '(remaining, removed) '(implName, entry) =>
       if strictEq (FeatureRegistryEntry.pluginId entry) pluginId
       then (JsMap.delete implName remaining, true)
       else (remaining, removed))
    (JsMap.entries implementations) (implementations, false).

Definition unregisterFeature (featureId : string)
    (implementationName pluginId : option string) (r : t) : bool * t :=
  match JsMap.get featureId (features r) with
  | None => (false, r)
  | Some implementations =>
      match truthy implementationName with
      | Some implementationName =>
          match JsMap.get implementationName implementations with
          | None => (false, r)
          | Some entry =>
              if match truthy pluginId with
                 | Some pluginId =>
                     negb (strictEq (FeatureRegistryEntry.pluginId entry) pluginId)
                 | None => false
                 end
              then (false, r)
              else
                let implementations1 :=
                  JsMap.delete implementationName implementations in
                let defaults1 :=
                  if bool_decide (defaultImplementations r !! featureId
                                  = Some implementationName)
                  then
                    match JsMap.keys implementations1 with
                    | first :: _ =>
                        <[featureId := first]> (defaultImplementations r)
                    | [] => delete featureId (defaultImplementations r)
                    end
                  else defaultImplementations r in
                let features1 :=
                  if (JsMap.size implementations1 =? 0)%nat
                  then JsMap.delete featureId (features r)
                  else JsMap.set featureId implementations1 (features r) in
                (true, mk features1 defaults1 (aliases r))
          end
      | None =>
          match truthy pluginId with
          | Some pluginId =>
              let '(implementations1, removed) :=
                removePluginImplementations pluginId implementations in
              if (JsMap.size implementations1 =? 0)%nat
              then (removed,
                    mk (JsMap.delete featureId (features r))
                       (delete featureId (defaultImplementations r))
                       (aliases r))
              else (removed,
                    mk (JsMap.set featureId implementations1 (features r))
                       (defaultImplementations r) (aliases r))
          | None =>
              (true,
               mk (JsMap.delete featureId (features r))
                  (delete featureId (defaultImplementations r))
                  (aliases r))
          end
      end
  end.

Definition setAlias (alias featureId : string) (r : t) : t :=
  mk (features r) (defaultImplementations r) (<[alias := featureId]> (aliases r)).

Definition clear (r : t) : t := mk JsMap.empty ∅ ∅.

(** [pluginBreakdown] is a plain object ([{}]), not a [Map]: a name that it
    does not hold itself is looked up in [Object.prototype].  These are the
    names found there (the standard ones, nothing having been added). *)
Definition objectPrototypeNames : list string :=
  ["constructor"; "hasOwnProperty"; "isPrototypeOf"; "propertyIsEnumerable";
   "toLocaleString"; "toString"; "valueOf"; "__proto__";
   "__defineGetter__"; "__defineSetter__";
   "__lookupGetter__"; "__lookupSetter__"].

Definition inheritedName (name : string) : bool :=
  existsb (fun inherited => bool_decide (inherited = name)) objectPrototypeNames.

(** What the object holds under a name: a number, or, under a name of
    [Object.prototype], a string: the text of the inherited value (a
    function, whose text depends on the engine) followed by as many
    characters "1" as the name was counted, since [value + 1] appends to a
    value that is not a number. *)
Inductive BreakdownValue : Type :=
| Count (n : nat)
| NotANumber (ones : nat).

Record Stats : Type := mkStats {
  totalFeatures : nat;
  totalImplementations : nat;
  pluginBreakdown : gmap string BreakdownValue
}.

(** [pluginBreakdown[pluginId] = (pluginBreakdown[pluginId] || 0) + 1]: the
    map holds the own properties of the object.  A name that is not there
    reads as the inherited value when [Object.prototype] has one, which is
    truthy, and as [undefined] otherwise.  The assignment makes an own
    property, except under "__proto__", where it goes to the setter of
    [Object.prototype], which ignores a string. *)
Definition countEntry (pluginBreakdown : gmap string BreakdownValue)
    (entry : FeatureRegistryEntry.t) : gmap string BreakdownValue :=
  let pluginId :=
    default "unknown" (truthy (FeatureRegistryEntry.pluginId entry)) in
  match pluginBreakdown !! pluginId with
  | Some (Count n) => <[pluginId := Count (n + 1)]> pluginBreakdown
  | Some (NotANumber ones) =>
      <[pluginId := NotANumber (ones + 1)]> pluginBreakdown
  | None =>
      if bool_decide (pluginId = "__proto__") then pluginBreakdown
      else if inheritedName pluginId
      then <[pluginId := NotANumber 1]> pluginBreakdown
      else <[pluginId := Count 1]> pluginBreakdown
  end.

Definition getStats (r : t) : Stats :=
  let '(totalImplementations, pluginBreakdown) :=
    fold_left
      (fun '(total, breakdown) implementations =>
         ((total + JsMap.size implementations)%nat,
          fold_left countEntry (JsMap.values implementations) breakdown))
      (JsMap.values (features r)) (0%nat, ∅) in
  mkStats (JsMap.size (features r)) totalImplementations pluginBreakdown.

End FeatureRegistry.

(** ** The plugin manager *)

Module ExecutedFeature.
Record t : Type := mk {
  featureId : string;
  implementation : string;
  result : FeatureExecutionResult.t
}.
End ExecutedFeature.

Module PluginExecutionResult.
Record t : Type := mk {
  pluginId : string;
  success : bool;
  executedFeatures : list ExecutedFeature.t;
  errors : list string
}.
End PluginExecutionResult.

Module PluginManager.

Record t : Type := mk {
  plugins : JsMap.t Plugin.t;
  featureRegistry : FeatureRegistry.t;
  storage : StorageUtils;
  isInitialized : bool;
  initContext : PluginInitializationContext.t
}.

(** The constructor; [messaging] is [chrome.runtime] where there is one. *)
Definition new (featureRegistry : FeatureRegistry.t) (storage : StorageUtils)
    (messaging : option string) : t :=
  mk JsMap.empty featureRegistry storage false
     (PluginInitializationContext.mk storage messaging []).

Definition registerPluginFeatures (plugin : Plugin.t) (now : Z)
    (registry : FeatureRegistry.t) : FeatureRegistry.t :=
  snd (fold_left
         (fun '(index, registry) feature =>
            let isDefault := (index =? 0)%nat in
            (S index,
             FeatureRegistry.registerFeature feature (Some (Plugin.id plugin))
               isDefault now registry))
         (Plugin.features plugin) (0%nat, registry)).

(** [loadPlugin]: what the promise settles to, the plugin object as the call
    leaves it, and the manager afterwards. *)
Definition loadPlugin (plugin : Plugin.t) (now : Z) (pm : t)
    : Outcome unit * Plugin.t * t :=
  if JsMap.has (Plugin.id plugin) (plugins pm) then (Returns tt, plugin, pm)
  else
    let plugin1 := Plugin.setStatus PluginStatus.LOADING plugin in
    match Plugin.initialize plugin1 (initContext pm) with
    | Some error =>
        (Throws error, Plugin.setStatus PluginStatus.ERROR plugin1, pm)
    | None =>
        let pm1 :=
          mk (plugins pm)
             (registerPluginFeatures plugin1 now (featureRegistry pm))
             (storage pm) (isInitialized pm) (initContext pm) in
        match Plugin.activate plugin1 with
        | Some activate =>
            match activate tt with
            | Some error =>
                (Throws error, Plugin.setStatus PluginStatus.ERROR plugin1, pm1)
            | None =>
                let plugin2 := Plugin.setStatus PluginStatus.ACTIVE plugin1 in
                (Returns tt, plugin2,
                 mk (JsMap.set (Plugin.id plugin2) plugin2 (plugins pm1))
                    (featureRegistry pm1) (storage pm1) (isInitialized pm1)
                    (initContext pm1))
            end
        | None =>
            let plugin2 := Plugin.setStatus PluginStatus.LOADED plugin1 in
            (Returns tt, plugin2,
             mk (JsMap.set (Plugin.id plugin2) plugin2 (plugins pm1))
                (featureRegistry pm1) (storage pm1) (isInitialized pm1)
                (initContext pm1))
        end
    end.

Definition unregisterPluginFeatures (pluginId : string) (pm : t)
    : FeatureRegistry.t :=
  match JsMap.get pluginId (plugins pm) with
  | None => featureRegistry pm
  | Some plugin =>
      fold_left
        (fun registry feature =>
           snd (FeatureRegistry.unregisterFeature (Feature.id feature) None
                  (Some pluginId) registry))
        (Plugin.features plugin) (featureRegistry pm)
  end.

(** An optional lifecycle callback, awaited when present. *)
Definition callIfPresent (callback : option (unit -> option JsThrown))
    : option JsThrown :=
  match callback with
  | Some call => call tt
  | None => None
  end.

(** [unloadPlugin]: what the promise settles to, the plugin object as the call
    leaves it (when the plugin was loaded), and the manager afterwards. *)
Definition unloadPlugin (pluginId : string) (pm : t)
    : Outcome unit * option Plugin.t * t :=
  match JsMap.get pluginId (plugins pm) with
  | None => (Returns tt, None, pm)
  | Some plugin =>
      match callIfPresent (Plugin.deactivate plugin) with
      | Some error => (Throws error, Some plugin, pm)
      | None =>
          let pm1 :=
            mk (plugins pm) (unregisterPluginFeatures pluginId pm)
               (storage pm) (isInitialized pm) (initContext pm) in
          match callIfPresent (Plugin.dispose plugin) with
          | Some error => (Throws error, Some plugin, pm1)
          | None =>
              (Returns tt,
               Some (Plugin.setStatus PluginStatus.UNLOADED plugin),
               mk (JsMap.delete pluginId (plugins pm1)) (featureRegistry pm1)
                  (storage pm1) (isInitialized pm1) (initContext pm1))
          end
      end
  end.

Definition getFeaturePluginId (pm : t) (feature : Feature.t) : string :=
  match List.find
          (fun '(pluginId, plugin) =>
             existsb (fun f => bool_decide (Feature.id f = Feature.id feature))
                     (Plugin.features plugin))
          (JsMap.entries (plugins pm)) with
  | Some (pluginId, _) => pluginId
  | None => "unknown"
  end.

Definition getFeatureSettings (siteConfig : SiteConfig.t) (featureId : string)
    : Settings :=
  match List.find
          (fun m => bool_decide (FeatureMapping.featureId m = featureId))
          (SiteConfig.enabledFeatures siteConfig) with
  | Some mapping => default [] (FeatureMapping.settings mapping)
  | None => []
  end.

Definition getFeatureImplementationName (feature : Feature.t) : string :=
  match Feature.implementationName feature with
  | Some implementationName => implementationName
  | None => "default"
  end.

(** The state of the loop of [executeApplicableFeatures]: the per-plugin
    results, the DOM, the [execute] calls made so far with the context each
    one received, and what was thrown out of the loop, if anything was. *)
Record ExecState : Type := mkState {
  pluginResults : JsMap.t PluginExecutionResult.t;
  executeCalls : list (Feature.t * FeatureExecutionContext.t);
  document : Document;
  rejected : option JsThrown
}.

Definition executionContext (pm : t) (siteConfig : SiteConfig.t) (url : string)
    (document : Document) (feature : Feature.t) : FeatureExecutionContext.t :=
  FeatureExecutionContext.mk siteConfig
    (getFeatureSettings siteConfig (Feature.id feature))
    document (storage pm) url.

(** What one feature adds to the result of its plugin.  The [catch] block
    first converts what it caught to a string; when that conversion throws,
    the block is left before it has recorded anything. *)
Definition recordOutcome (feature : Feature.t)
    (outcome : Outcome FeatureExecutionResult.t)
    (pluginResult : PluginExecutionResult.t)
    : Outcome PluginExecutionResult.t :=
  match outcome with
  | Returns result =>
      let executed :=
        PluginExecutionResult.executedFeatures pluginResult ++
        [ExecutedFeature.mk (Feature.id feature)
           (getFeatureImplementationName feature) result] in
      if negb (FeatureExecutionResult.success result)
      then Returns
             (PluginExecutionResult.mk
                (PluginExecutionResult.pluginId pluginResult) false executed
                (PluginExecutionResult.errors pluginResult ++
                 [default "Unknown error"
                    (truthy (FeatureExecutionResult.error result))]))
      else Returns
             (PluginExecutionResult.mk
                (PluginExecutionResult.pluginId pluginResult)
                (PluginExecutionResult.success pluginResult) executed
                (PluginExecutionResult.errors pluginResult))
  | Throws error =>
      match toStringThrown error with
      | Throws raised => Throws raised
      | Returns rendering =>
          let errorMessage :=
            ("Feature execution failed: " ++ rendering)%string in
          Returns
            (PluginExecutionResult.mk
               (PluginExecutionResult.pluginId pluginResult) false
               (PluginExecutionResult.executedFeatures pluginResult ++
                [ExecutedFeature.mk (Feature.id feature)
                   (getFeatureImplementationName feature)
                   (FeatureExecutionResult.mk false (Some errorMessage) None)])
               (PluginExecutionResult.errors pluginResult ++ [errorMessage]))
      end
  end.

(** One turn of the loop.  Once something has been thrown out of the loop
    the remaining turns do not take place. *)
Definition executeStep (pm : t) (siteConfig : SiteConfig.t) (url : string)
    (st : ExecState) (feature : Feature.t) : ExecState :=
  match rejected st with
  | Some _ => st
  | None =>
      let pluginId := getFeaturePluginId pm feature in
      let pluginResults1 :=
        if negb (JsMap.has pluginId (pluginResults st))
        then JsMap.set pluginId (PluginExecutionResult.mk pluginId true [] [])
               (pluginResults st)
        else pluginResults st in
      let pluginResult :=
        match JsMap.get pluginId pluginResults1 with
        | Some pluginResult => pluginResult
        | None => PluginExecutionResult.mk pluginId true [] []
        end in
      let context := executionContext pm siteConfig url (document st) feature in
      let '(outcome, document1) := Feature.execute feature context in
      match recordOutcome feature outcome pluginResult with
      | Returns pluginResult1 =>
          mkState (JsMap.set pluginId pluginResult1 pluginResults1)
            (executeCalls st ++ [(feature, context)]) document1 None
      | Throws raised =>
          mkState pluginResults1 (executeCalls st ++ [(feature, context)])
            document1 (Some raised)
      end
  end.

(** [executeApplicableFeatures]: what the promise settles to, the [execute]
    calls made, and the DOM afterwards. *)
Definition executeApplicableFeatures (pm : t) (siteConfig : SiteConfig.t)
    (url : string) (document0 : Document)
    : Outcome (list PluginExecutionResult.t)
      * list (Feature.t * FeatureExecutionContext.t) * Document :=
  if negb (isInitialized pm)
  then (Throws (newError "PluginManager not initialized"), [], document0)
  else
    let applicableFeatures :=
      FeatureRegistry.getApplicableFeatures (featureRegistry pm) siteConfig url in
    let st :=
      fold_left (executeStep pm siteConfig url) applicableFeatures
        (mkState JsMap.empty [] document0 None) in
    (match rejected st with
     | Some raised => Throws raised
     | None => Returns (JsMap.values (pluginResults st))
     end,
     executeCalls st, document st).

End PluginManager.

(** ** Statements about the registry *)

Module RegistrySpec.
Import FeatureRegistry.

(** The default-implementation table names registered implementations only:
    an entry for a feature identifier names an implementation present in
    the implementation table of that identifier. *)
Definition defaultsPresent (r : t) : Prop :=
  forall featureId implName,
    defaultImplementations r !! featureId = Some implName ->
    exists implementations entry,
      JsMap.get featureId (features r) = Some implementations /\
      JsMap.get implName implementations = Some entry.

(** A call of one of the two mutators. *)
Inductive Call : Type :=
| Register (feature : Feature.t) (pluginId : option string)
    (isDefault : bool) (now : Z)
| Unregister (featureId : string) (implementationName pluginId : option string).

Definition applyCall (r : t) (c : Call) : t :=
  match c with
  | Register feature pluginId isDefault now =>
      registerFeature feature pluginId isDefault now r
  | Unregister featureId implementationName pluginId =>
      snd (unregisterFeature featureId implementationName pluginId r)
  end.

Definition applyCalls (calls : list Call) (r : t) : t :=
  fold_left applyCall calls r.

(** The call is [unregisterFeature(featureId, undefined, pluginId)]: a plugin
    and no implementation name. *)
Definition byPluginOnly (c : Call) : bool :=
  match c with
  | Register _ _ _ _ => false
  | Unregister _ implementationName pluginId =>
      match truthy implementationName, truthy pluginId with
      | None, Some _ => true
      | _, _ => false
      end
  end.

(** The lookup of [getFeature] once the identifier is resolved: no alias is
    followed. *)
Definition lookupDirect (r : t) (featureId : string)
    (implementationName : option string) : option Feature.t :=
  match JsMap.get featureId (features r) with
  | None => None
  | Some implementations =>
      match truthy (orElse implementationName
                      (defaultImplementations r !! featureId)) with
      | None => None
      | Some implName =>
          match JsMap.get implName implementations with
          | Some entry => Some (FeatureRegistryEntry.feature entry)
          | None => None
          end
      end
  end.

(** [feature] is one of the registered features of the registry. *)
Definition registered (r : t) (feature : Feature.t) : Prop :=
  exists featureId implementations implName entry,
    JsMap.get featureId (features r) = Some implementations /\
    JsMap.get implName implementations = Some entry /\
    FeatureRegistryEntry.feature entry = feature.

(** The priority the interface documents: the number given, 999 without
    one. *)
Definition statedPriority (mapping : FeatureMapping.t) : Z :=
  default 999%Z (FeatureMapping.priority mapping).

(** What the loop of [getApplicableFeatures] pushes for one mapping. *)
Definition selected (r : t) (siteConfig : SiteConfig.t) (url : string)
    (mapping : FeatureMapping.t) : list Feature.t :=
  applicableStep r siteConfig url [] mapping.

(** The mappings, in the order of the loop, that contribute a feature. *)
Definition selectedMappings (r : t) (siteConfig : SiteConfig.t) (url : string)
    : list FeatureMapping.t :=
  List.filter
    (fun mapping =>
       match selected r siteConfig url mapping with
       | [] => false
       | _ :: _ => true
       end)
    (sortedMappings siteConfig).

(** The (featureId, implementationName) keys under which the registry holds
    an entry, in the order of its tables. *)
Definition registeredKeys (r : t) : list (string * string) :=
  flat_map
    (fun '(featureId, implementations) =>
       List.map (fun implName => (featureId, implName))
         (JsMap.keys implementations))
    (JsMap.entries (features r)).

(** How often a key occurs among the registered keys. *)
Definition timesRegistered (r : t) (featureId implName : string) : nat :=
  length (List.filter (fun key => bool_decide (key = (featureId, implName)))
            (registeredKeys r)).

(** Registering [f1] and then [f2] in a fresh registry, neither as default:
    each is found under its implementation name and the first one is the
    default. *)
Definition bothRetrievable (f1 f2 : Feature.t) (p1 p2 : option string)
    (t1 t2 : Z) : Prop :=
  let r := registerFeature f2 p2 false t2 (registerFeature f1 p1 false t1 new) in
  getFeature r (Feature.id f1) (Some (getImplementationName f1)) = Some f1 /\
  getFeature r (Feature.id f1) (Some (getImplementationName f2)) = Some f2 /\
  getFeature r (Feature.id f1) None = Some f1.

End RegistrySpec.

(** ** Statements about the plugin manager *)

Module ManagerSpec.
Import PluginManager.

(** The loop of [executeApplicableFeatures] over some features, from a given
    state, and the state it starts in. *)
Definition runFeatures (pm : t) (siteConfig : SiteConfig.t) (url : string)
    (features : list Feature.t) (st : ExecState) : ExecState :=
  fold_left (executeStep pm siteConfig url) features st.

Definition initialState (document0 : Document) : ExecState :=
  mkState JsMap.empty [] document0 None.

(** The call was left from the [catch] block: the last [execute] that was
    called threw a value whose conversion to a string threw [raised]. *)
Definition conversionThrew
    (calls : list (Feature.t * FeatureExecutionContext.t)) (raised : JsThrown)
    : Prop :=
  exists earlier feature context thrown document1,
    calls = earlier ++ [(feature, context)] /\
    Feature.execute feature context = (Throws thrown, document1) /\
    toStringThrown thrown = Throws raised.

(** How many of the features are attributed to the plugin. *)
Definition ownedCount (pm : t) (pluginId : string) (features : list Feature.t)
    : nat :=
  length (List.filter
            (fun f => bool_decide (getFeaturePluginId pm f = pluginId))
            features).

(** How many features the result of the plugin records so far. *)
Definition recordedCount (st : ExecState) (pluginId : string) : nat :=
  match JsMap.get pluginId (pluginResults st) with
  | Some pluginResult =>
      length (PluginExecutionResult.executedFeatures pluginResult)
  | None => 0
  end.

(** [s] is the settings object of the first mapping of the site whose
    [featureId] is the given one, [{}] if that mapping has none or there is
    no such mapping. *)
Definition settingsOfFirstMapping (siteConfig : SiteConfig.t)
    (featureId : string) (s : Settings) : Prop :=
  (exists before mapping after,
     SiteConfig.enabledFeatures siteConfig = before ++ mapping :: after /\
     List.Forall (fun m => FeatureMapping.featureId m <> featureId) before /\
     FeatureMapping.featureId mapping = featureId /\
     s = default [] (FeatureMapping.settings mapping)) \/
  (List.Forall (fun m => FeatureMapping.featureId m <> featureId)
     (SiteConfig.enabledFeatures siteConfig) /\
   s = []).

End ManagerSpec.

(** ** Sample data *)

Module Sample.

(** A feature that applies everywhere and succeeds, leaving its name in the
    DOM. *)
Definition feature (id name : string) (implementationName : option string)
    : Feature.t :=
  Feature.mk id name "" "1.0.0" None None implementationName
    (fun _ _ => Returns true)
    (fun context =>
       (Returns (FeatureExecutionResult.mk true None (Some [name])),
        FeatureExecutionContext.document context ++ [name])).

(** A feature whose [execute] throws [new Error("boom")]. *)
Definition boom (id name : string) (implementationName : option string)
    : Feature.t :=
  Feature.mk id name "" "1.0.0" None None implementationName
    (fun _ _ => Returns true)
    (fun context =>
       (Throws (newError "boom"), FeatureExecutionContext.document context)).

Definition mapping (featureId : string) (implementation : option string)
    (priority : option Z) (settings : option Settings) : FeatureMapping.t :=
  FeatureMapping.mk featureId implementation true settings priority.

Definition siteConfig (enabledFeatures : list FeatureMapping.t) : SiteConfig.t :=
  SiteConfig.mk "site" "Example" None [] enabledFeatures None None None None None.

Definition url : string := "https://example.com".

Definition fxa : Feature.t := feature "x" "X by a" (Some "a").
Definition fxb : Feature.t := feature "x" "X by b" (Some "b").
Definition fxEmpty : Feature.t := feature "x" "X unnamed" (Some "").
Definition fy : Feature.t := feature "y" "Y" None.
Definition fz : Feature.t := feature "z" "Z" None.

(** Two plugins implement "x"; the first registered is the default. *)
Definition twoPlugins : FeatureRegistry.t :=
  FeatureRegistry.registerFeature fxb (Some "pluginB") false 2%Z
    (FeatureRegistry.registerFeature fxa (Some "pluginA") false 1%Z
       FeatureRegistry.new).

(** Both plugins register an implementation of "x", then the first plugin's
    features are unregistered by plugin alone, as [unloadPlugin] does. *)
Definition unloadFirstOfTwo : list RegistrySpec.Call :=
  [RegistrySpec.Register fxa (Some "pluginA") false 1%Z;
   RegistrySpec.Register fxb (Some "pluginB") false 2%Z;
   RegistrySpec.Unregister "x" None (Some "pluginA")].

(** A registry with "x" and "y", and a site that gives "x" priority 0 and
    "y" priority 5. *)
Definition xy : FeatureRegistry.t :=
  FeatureRegistry.registerFeature fy (Some "pluginA") false 2%Z
    (FeatureRegistry.registerFeature fxa (Some "pluginA") false 1%Z
       FeatureRegistry.new).

Definition priorityZero : FeatureMapping.t := mapping "x" None (Some 0%Z) None.
Definition priorityFive : FeatureMapping.t := mapping "y" None (Some 5%Z) None.

Definition zeroBeforeFive : SiteConfig.t :=
  siteConfig [priorityZero; priorityFive].

(** An implementation named "a" and one whose name is the empty string. *)
Definition namedThenEmpty : FeatureRegistry.t :=
  FeatureRegistry.registerFeature fxEmpty (Some "pluginB") false 2%Z
    (FeatureRegistry.registerFeature fxa (Some "pluginA") false 1%Z
       FeatureRegistry.new).

(** The identifier "x" has two implementations and is also an alias. *)
Definition shadowed : FeatureRegistry.t :=
  FeatureRegistry.setAlias "x" "y" twoPlugins.

(** "y" and "z" are registered, and "y" is an alias of "z". *)
Definition chained : FeatureRegistry.t :=
  FeatureRegistry.setAlias "y" "z"
    (FeatureRegistry.registerFeature fz (Some "pluginA") false 2%Z
       (FeatureRegistry.registerFeature fy (Some "pluginA") false 1%Z
          FeatureRegistry.new)).

(** A plugin whose first feature throws and whose second succeeds, loaded in
    an initialized manager. *)
Definition boomX : Feature.t := boom "x" "X that throws" None.

Definition plugin (id : string) (features : list Feature.t)
    (initialize : PluginInitializationContext.t -> option JsThrown) : Plugin.t :=
  Plugin.mk id id "1.0.0" "" features PluginStatus.UNLOADED initialize
    None None None.

Definition pluginA : Plugin.t :=
  Plugin.setStatus PluginStatus.LOADED
    (plugin "pluginA" [boomX; fy] (fun _ => None)).

Definition storage : StorageUtils := StorageHandle "local".

Definition initContext : PluginInitializationContext.t :=
  PluginInitializationContext.mk storage None [].

Definition ready : PluginManager.t :=
  PluginManager.mk [("pluginA", pluginA)]
    (PluginManager.registerPluginFeatures pluginA 1%Z FeatureRegistry.new)
    storage true initContext.

Definition xThenY : SiteConfig.t :=
  siteConfig [mapping "x" None (Some 1%Z) None; mapping "y" None (Some 2%Z) None].

(** A plugin whose [initialize] throws. *)
Definition failing : Plugin.t :=
  plugin "pluginF" [fz] (fun _ => Some (newError "no network")).

(** Two implementations of "x" enabled with different settings. *)
Definition pluginAB : Plugin.t :=
  Plugin.setStatus PluginStatus.LOADED
    (plugin "pluginAB" [fxa; fxb] (fun _ => None)).

Definition readyAB : PluginManager.t :=
  PluginManager.mk [("pluginAB", pluginAB)]
    (PluginManager.registerPluginFeatures pluginAB 1%Z FeatureRegistry.new)
    storage true initContext.

Definition settingsA : Settings := [("mode", JStr "A")].
Definition settingsB : Settings := [("mode", JStr "B")].

Definition sameIdTwice : SiteConfig.t :=
  siteConfig
    [mapping "x" (Some "a") (Some 1%Z) (Some settingsA);
     mapping "x" (Some "b") (Some 2%Z) (Some settingsB)].

(** The second of two plugins brings an implementation "b" of "x" whose
    [execute] throws; the first brings the implementation "a".  Both are
    loaded, the manager is initialized, and the site asks for "b". *)
Definition boomXb : Feature.t := boom "x" "X by b that throws" (Some "b").

Definition goodA : Plugin.t :=
  Plugin.setStatus PluginStatus.LOADED (plugin "pluginA" [fxa] (fun _ => None)).

Definition throwingB : Plugin.t :=
  Plugin.setStatus PluginStatus.LOADED
    (plugin "pluginB" [boomXb] (fun _ => None)).

(** What [loadPlugin] makes of a new manager when it is handed the two
    plugins one after the other. *)
Definition loadedWithThrowingB : PluginManager.t :=
  snd (PluginManager.loadPlugin (plugin "pluginB" [boomXb] (fun _ => None)) 2%Z
         (snd (PluginManager.loadPlugin
                 (plugin "pluginA" [fxa] (fun _ => None)) 1%Z
                 (PluginManager.new FeatureRegistry.new storage None)))).

(** The same manager, initialized. *)
Definition readyWithThrowingB : PluginManager.t :=
  PluginManager.mk (PluginManager.plugins loadedWithThrowingB)
    (PluginManager.featureRegistry loadedWithThrowingB)
    storage true initContext.

Definition onlyXb : SiteConfig.t := siteConfig [mapping "x" (Some "b") None None].

(** Two plugins that each bring one implementation of "x", loaded one after
    the other into a new manager. *)
Definition onlyA : Plugin.t := plugin "pluginA" [fxa] (fun _ => None).
Definition onlyB : Plugin.t := plugin "pluginB" [fxb] (fun _ => None).

Definition bothLoaded : PluginManager.t :=
  snd (PluginManager.loadPlugin onlyB 2%Z
         (snd (PluginManager.loadPlugin onlyA 1%Z
                 (PluginManager.new FeatureRegistry.new storage None)))).

End Sample.

(** ** The remaining operations of the registry *)

Module FeatureStatus.
Record t : Type := mk {
  active : bool;
  lastExecuted : option Z;
  executionCount : option Z
}.
End FeatureStatus.

Module FeatureQueryOptions.
Record t : Type := mk {
  tags : option (list string);
  author : option string;
  url : option string;
  activeOnly : option bool
}.
End FeatureQueryOptions.

Module ImplementationInfo.
Record t : Type := mk {
  name : string;
  isDefault : bool;
  pluginId : option string
}.
End ImplementationInfo.

Module FeatureOverview.
Record t : Type := mk {
  featureId : string;
  name : string;
  description : string;
  implementations : list ImplementationInfo.t
}.
End FeatureOverview.

Module RegistryQueries.
Import FeatureRegistry.

Section Query.
(** [feature.getStatus?.()]: the optional method of a feature, which only
    [queryFeatures] calls and which is not a member of [Feature.t], is handed
    to the query.  It is code of the feature and may throw; it returns [None]
    for a feature that has no such method or whose method returns nothing. *)
Context (getStatus : Feature.t -> Outcome (option FeatureStatus.t)).

(** The tag test: passed when no tags are asked for, or when one of them is
    among the tags of the feature. *)
Definition passesTags (options : FeatureQueryOptions.t) (feature : Feature.t)
    : bool :=
  match FeatureQueryOptions.tags options with
  | Some tags =>
      if (0 <? length tags)%nat
      then
        let featureTags := default [] (Feature.tags feature) in
        existsb
          (fun tag => existsb (fun t => bool_decide (t = tag)) featureTags)
          tags
      else true
  | None => true
  end.

Definition passesAuthor (options : FeatureQueryOptions.t) (feature : Feature.t)
    : bool :=
  match truthy (FeatureQueryOptions.author options) with
  | Some author => bool_decide (Feature.author feature = Some author)
  | None => true
  end.

(** The status test: [getStatus] is called only when [activeOnly] is set,
    and what it throws is not caught. *)
Definition passesActive (options : FeatureQueryOptions.t) (feature : Feature.t)
    : Outcome bool :=
  if default false (FeatureQueryOptions.activeOnly options)
  then
    match getStatus feature with
    | Returns (Some status) => Returns (FeatureStatus.active status)
    | Returns None => Returns false
    | Throws error => Throws error
    end
  else Returns true.

(** The end of the loop body: the status test, then the push. *)
Definition pushIfActive (options : FeatureQueryOptions.t)
    (results : list Feature.t) (feature : Feature.t)
    : Outcome (list Feature.t) :=
  match passesActive options feature with
  | Throws error => Throws error
  | Returns true => Returns (results ++ [feature])
  | Returns false => Returns results
  end.

(** The body of the inner loop of [queryFeatures] for one feature. *)
Definition queryStep (options : FeatureQueryOptions.t)
    (results : list Feature.t) (feature : Feature.t)
    : Outcome (list Feature.t) :=
  if negb (passesTags options feature) then Returns results
  else if negb (passesAuthor options feature) then Returns results
  else
    match truthy (FeatureQueryOptions.url options) with
    | Some url =>
        match Feature.isApplicable feature url None with
        | Throws error => Throws error
        | Returns false => Returns results
        | Returns true => pushIfActive options results feature
        end
    | None => pushIfActive options results feature
    end.

(** [queryFeatures]: nothing catches what [isApplicable] or [getStatus]
    throws, so the first throw ends the query. *)
Definition queryFeatures (options : FeatureQueryOptions.t) (r : t)
    : Outcome (list Feature.t) :=
  fold_left
    (fun acc '(featureId, implementations) =>
       fold_left
         (fun acc '(implName, entry) =>
            match acc with
            | Returns results =>
                queryStep options results (FeatureRegistryEntry.feature entry)
            | Throws error => Throws error
            end)
         (JsMap.entries implementations) acc)
    (JsMap.entries (features r)) (Returns []).
End Query.

(** The overview of one feature identifier, when it has an implementation. *)
Definition overview (r : t) (featureId : string)
    (implementations : JsMap.t FeatureRegistryEntry.t)
    : list FeatureOverview.t :=
  let defaultImpl := defaultImplementations r !! featureId in
  match JsMap.values implementations with
  | [] => []
  | first :: _ =>
      let firstFeature := FeatureRegistryEntry.feature first in
      let impls :=
        fold_left
          (fun impls '(implName, entry) =>
             impls ++
             [ImplementationInfo.mk implName
                (bool_decide (defaultImpl = Some implName))
                (FeatureRegistryEntry.pluginId entry)])
          (JsMap.entries implementations) [] in
      [FeatureOverview.mk featureId (Feature.name firstFeature)
         (Feature.description firstFeature) impls]
  end.

Definition getAllFeatures (r : t) : list FeatureOverview.t :=
  fold_left
    (fun result '(featureId, implementations) =>
       result ++ overview r featureId implementations)
    (JsMap.entries (features r)) [].

End RegistryQueries.

(** ** The remaining operations of the plugin manager *)

Module PluginSummary.
Record t : Type := mk {
  id : string;
  name : string;
  status : PluginStatus.t;
  featuresCount : nat;
  version : string
}.
End PluginSummary.

Module ManagerQueries.
Import PluginManager.

(** [executeFeature]: what the promise settles to, and the DOM the call
    leaves.  As in [executeApplicableFeatures], the [catch] block converts
    what it caught to a string, and that conversion may throw. *)
Definition executeFeature (pm : t) (featureId : string)
    (implementation : option string) (context : FeatureExecutionContext.t)
    : Outcome FeatureExecutionResult.t * Document :=
  match FeatureRegistry.getFeature (featureRegistry pm) featureId
          implementation with
  | None =>
      let error :=
        ("Feature not found: " ++ featureId ++ "/"
         ++ default "default" (truthy implementation))%string in
      (Returns (FeatureExecutionResult.mk false (Some error) None),
       FeatureExecutionContext.document context)
  | Some feature =>
      match Feature.execute feature context with
      | (Returns result, document1) => (Returns result, document1)
      | (Throws error, document1) =>
          match toStringThrown error with
          | Throws raised => (Throws raised, document1)
          | Returns rendering =>
              let errorMessage :=
                ("Feature execution failed: " ++ rendering)%string in
              (Returns (FeatureExecutionResult.mk false (Some errorMessage) None),
               document1)
          end
      end
  end.

Definition getPlugin (pm : t) (pluginId : string) : option Plugin.t :=
  JsMap.get pluginId (plugins pm).

Definition getAllPlugins (pm : t) : list Plugin.t := JsMap.values (plugins pm).

Definition getPluginStatus (pm : t) : list PluginSummary.t :=
  List.map
    (fun plugin =>
       PluginSummary.mk (Plugin.id plugin) (Plugin.name plugin)
         (Plugin.status plugin) (length (Plugin.features plugin))
         (Plugin.version plugin))
    (JsMap.values (plugins pm)).

End ManagerQueries.

(** ** Further statements *)

Module MoreSpec.
Import FeatureRegistry.

(** The entry registered under a feature identifier and an implementation
    name. *)
Definition entryAt (r : t) (featureId implName : string)
    : option FeatureRegistryEntry.t :=
  match JsMap.get featureId (features r) with
  | Some implementations => JsMap.get implName implementations
  | None => None
  end.

(** A table of implementations as a [Map] of the registry is: its keys are
    distinct and it is not empty. *)
Definition tableOk (implementations : JsMap.t FeatureRegistryEntry.t) : Prop :=
  List.NoDup (JsMap.keys implementations) /\ implementations <> [].

(** The shape of the tables of a registry: distinct feature identifiers,
    each with a table of distinct implementation names that is not empty. *)
Definition wellFormed (r : t) : Prop :=
  List.NoDup (JsMap.keys (features r)) /\
  List.Forall (fun binding => tableOk (snd binding)) (features r).

(** All entries of the registry, in the order of its tables. *)
Definition allEntries (r : t) : list FeatureRegistryEntry.t :=
  flat_map (fun binding => JsMap.values (snd binding)) (features r).

Definition allFeatures (r : t) : list Feature.t :=
  List.map FeatureRegistryEntry.feature (allEntries r).

(** The entry was registered by the plugin. *)
Definition ownedBy (pluginId : string) (entry : FeatureRegistryEntry.t) : bool :=
  strictEq (FeatureRegistryEntry.pluginId entry) pluginId.

(** The name under which [getStats] counts an entry. *)
Definition countedUnder (entry : FeatureRegistryEntry.t) : string :=
  default "unknown" (truthy (FeatureRegistryEntry.pluginId entry)).

Definition countFor (pluginId : string) (entries : list FeatureRegistryEntry.t)
    : nat :=
  length (List.filter (fun e => bool_decide (countedUnder e = pluginId)) entries).

(** What [getStats] holds under a name that [count] entries are counted
    under: nothing when there is none, and nothing under "__proto__"; the
    count, when the name is not one of [Object.prototype]; and otherwise a
    string, with one character "1" for each entry. *)
Definition breakdownOf (pluginId : string) (count : nat)
    : option BreakdownValue :=
  if (count =? 0)%nat then None
  else if bool_decide (pluginId = "__proto__") then None
  else if inheritedName pluginId then Some (NotANumber count)
  else Some (Count count).

(** The number a value of the breakdown stands for: none for a string. *)
Definition numberOf (value : BreakdownValue) : nat :=
  match value with
  | Count n => n
  | NotANumber _ => 0
  end.

(** The sum of the numbers of a breakdown. *)
Definition breakdownTotal (breakdown : gmap string BreakdownValue) : nat :=
  map_fold (fun _ value total => (numberOf value + total)%nat) 0%nat breakdown.

(** Under the names of [Object.prototype] a breakdown holds strings, under
    the other names numbers. *)
Definition typedBreakdown (breakdown : gmap string BreakdownValue) : Prop :=
  forall name value,
    breakdown !! name = Some value ->
    match value with
    | Count _ => inheritedName name = false
    | NotANumber _ => inheritedName name = true
    end.

End MoreSpec.

Module QuerySpec.
Import FeatureRegistry RegistryQueries.

Section Query.
Context (getStatus : Feature.t -> Outcome (option FeatureStatus.t)).

(** What [getStatus] throws when the query gets as far as the status test
    with [activeOnly] set. *)
Definition statusThrows (options : FeatureQueryOptions.t) (feature : Feature.t)
    : option JsThrown :=
  match passesActive getStatus options feature with
  | Throws error => Some error
  | Returns _ => None
  end.

(** What the feature throws when [queryFeatures] asks it: from
    [isApplicable], which is called when the tag and author tests pass and a
    URL is given, or else from [getStatus], which is called when the feature
    got through the first three tests and [activeOnly] is set. *)
Definition askThrows (options : FeatureQueryOptions.t) (feature : Feature.t)
    : option JsThrown :=
  if passesTags options feature && passesAuthor options feature
  then
    match truthy (FeatureQueryOptions.url options) with
    | Some url =>
        match Feature.isApplicable feature url None with
        | Throws error => Some error
        | Returns false => None
        | Returns true => statusThrows options feature
        end
    | None => statusThrows options feature
    end
  else None.

(** The feature passes the four tests of the query. *)
Definition accepts (options : FeatureQueryOptions.t) (feature : Feature.t)
    : bool :=
  passesTags options feature
  && passesAuthor options feature
  && match truthy (FeatureQueryOptions.url options) with
     | Some url =>
         match Feature.isApplicable feature url None with
         | Returns applicable => applicable
         | Throws _ => false
         end
     | None => true
     end
  && match passesActive getStatus options feature with
     | Returns active => active
     | Throws _ => false
     end.
End Query.

(** The number of implementations an overview flags as the default. *)
Definition defaultFlags (o : FeatureOverview.t) : nat :=
  length (List.filter ImplementationInfo.isDefault
            (FeatureOverview.implementations o)).

End QuerySpec.

Module MoreSample.

(** A feature by "ann", tagged "text", whose [isApplicable] throws. *)
Definition moody : Feature.t :=
  Feature.mk "m" "Moody" "" "1.0.0" (Some "ann") (Some ["text"]) None
    (fun _ _ => Throws (newError "no URL"))
    (fun context =>
       (Returns (FeatureExecutionResult.mk true None None),
        FeatureExecutionContext.document context)).

(** A feature by "bob", tagged "text" and "image", that applies everywhere. *)
Definition calm : Feature.t :=
  Feature.mk "c" "Calm" "" "1.0.0" (Some "bob") (Some ["text"; "image"]) None
    (fun _ _ => Returns true)
    (fun context =>
       (Returns (FeatureExecutionResult.mk true None None),
        FeatureExecutionContext.document context)).

Definition calmThenMoody : FeatureRegistry.t :=
  FeatureRegistry.registerFeature moody (Some "pluginA") false 2%Z
    (FeatureRegistry.registerFeature calm (Some "pluginA") false 1%Z
       FeatureRegistry.new).

Definition noStatus (feature : Feature.t) : Outcome (option FeatureStatus.t) :=
  Returns None.

Definition byBob : FeatureQueryOptions.t :=
  FeatureQueryOptions.mk None (Some "bob") (Some Sample.url) None.

Definition byUrl : FeatureQueryOptions.t :=
  FeatureQueryOptions.mk None None (Some Sample.url) None.

(** A [getStatus] that throws, and a query that asks for the status. *)
Definition statusFails (feature : Feature.t)
    : Outcome (option FeatureStatus.t) :=
  Throws (newError "no status").

Definition activeByUrl : FeatureQueryOptions.t :=
  FeatureQueryOptions.mk None None (Some Sample.url) (Some true).

(** A plugin whose [activate] throws, and one whose [dispose] throws. *)
Definition noActivate : Plugin.t :=
  Plugin.mk "pluginN" "pluginN" "1.0.0" "" [Sample.fy] PluginStatus.UNLOADED
    (fun _ => None) (Some (fun _ => Some (newError "cannot activate")))
    None None.

Definition noDispose : Plugin.t :=
  Plugin.mk "pluginD" "pluginD" "1.0.0" "" [Sample.fy] PluginStatus.LOADED
    (fun _ => None) None None (Some (fun _ => Some (newError "cannot dispose"))).

Definition fresh : PluginManager.t :=
  PluginManager.new FeatureRegistry.new Sample.storage None.

(** A feature whose [execute] throws a [Symbol], which cannot be converted
    to a string, in a plugin of an initialized manager. *)
Definition symbolic : Feature.t :=
  Feature.mk "s" "Symbolic" "" "1.0.0" None None None
    (fun _ _ => Returns true)
    (fun context =>
       (Throws
          (ThrownUnprintable
             (ThrownError "TypeError"
                "Cannot convert a Symbol value to a string")),
        FeatureExecutionContext.document context)).

Definition pluginS : Plugin.t :=
  Plugin.mk "pluginS" "pluginS" "1.0.0" "" [symbolic; Sample.fy]
    PluginStatus.LOADED (fun _ => None) None None None.

Definition withSymbolic : PluginManager.t :=
  PluginManager.mk [("pluginS", pluginS)]
    (PluginManager.registerPluginFeatures pluginS 1%Z FeatureRegistry.new)
    Sample.storage true Sample.initContext.

Definition symbolicThenY : SiteConfig.t :=
  Sample.siteConfig
    [Sample.mapping "s" None (Some 1%Z) None;
     Sample.mapping "y" None (Some 2%Z) None].

Definition withNoDispose : PluginManager.t :=
  PluginManager.mk [("pluginD", noDispose)]
    (PluginManager.registerPluginFeatures noDispose 1%Z FeatureRegistry.new)
    Sample.storage true Sample.initContext.

End MoreSample.

Module ManagerMoreSpec.
Import PluginManager.

(** The last of the features that has the given identifier and
    implementation name. *)
Fixpoint lastWithKey (featureId implName : string) (features : list Feature.t)
    : option Feature.t :=
  match features with
  | [] => None
  | f :: rest =>
      match lastWithKey featureId implName rest with
      | Some g => Some g
      | None =>
          if bool_decide (Feature.id f = featureId
                          /\ FeatureRegistry.getImplementationName f = implName)
          then Some f
          else None
      end
  end.

(** The names of a list in the order of their first occurrence. *)
Definition firstOccurrences (names : list string) : list string :=
  fold_left
    (fun seen name =>
       if existsb (fun k => bool_decide (k = name)) seen then seen
       else seen ++ [name])
    names [].

(** The aggregate of a plugin agrees with what it records: it is a success
    exactly when every recorded result is one, it has one error message for
    each recorded failure, and it records at least one feature. *)
Definition consistent (pluginResult : PluginExecutionResult.t) : Prop :=
  PluginExecutionResult.success pluginResult
  = forallb (fun e => FeatureExecutionResult.success (ExecutedFeature.result e))
      (PluginExecutionResult.executedFeatures pluginResult) /\
  length (PluginExecutionResult.errors pluginResult)
  = length (List.filter
              (fun e =>
                 negb (FeatureExecutionResult.success (ExecutedFeature.result e)))
              (PluginExecutionResult.executedFeatures pluginResult)) /\
  PluginExecutionResult.executedFeatures pluginResult <> [].

(** No entry under the feature identifier was registered by the plugin. *)
Definition noneOwned (pluginId featureId : string) (r : FeatureRegistry.t)
    : Prop :=
  forall implName entry,
    MoreSpec.entryAt r featureId implName = Some entry ->
    FeatureRegistryEntry.pluginId entry <> Some pluginId.

End ManagerMoreSpec.

Module RoundTripSpec.
Import FeatureRegistry.

(** The registry [r] is the registry [R] with the tables [ext] added for
    identifiers among [ids], every entry of which was registered by the
    plugin; the default table differs from that of [R] at most on [ids], and
    has no entry for an identifier of [ids] without a table. *)
Definition grownBy (pluginId : string) (ids : list string) (R : t)
    (ext : JsMap.t (JsMap.t FeatureRegistryEntry.t)) (r : t) : Prop :=
  features r = features R ++ ext /\
  (forall k, In k (JsMap.keys ext) -> In k ids) /\
  List.Forall
    (fun binding =>
       List.Forall
         (fun kv => FeatureRegistryEntry.pluginId (snd kv) = Some pluginId)
         (snd binding))
    ext /\
  (forall k, In k ids -> ~ In k (JsMap.keys ext) ->
             defaultImplementations r !! k = None) /\
  (forall k, ~ In k ids ->
             defaultImplementations r !! k = defaultImplementations R !! k) /\
  aliases r = aliases R.

End RoundTripSpec.

(** * Properties *)

(** ** Strings *)

Module StringFacts.

Lemma append_nil_r (s : string) : (s ++ "")%string = s.
Proof.
  induction s as [|a s IH]; [reflexivity|].
  change (String a (s ++ "")%string = String a s). by rewrite IH.
Qed.

Lemma append_assoc (s1 s2 s3 : string) :
  ((s1 ++ s2) ++ s3)%string = (s1 ++ (s2 ++ s3))%string.
Proof.
  induction s1 as [|a s1 IH]; [reflexivity|].
  change (String a ((s1 ++ s2) ++ s3)%string = String a (s1 ++ (s2 ++ s3))%string).
  by rewrite IH.
Qed.

Lemma contains_refl (s : string) : contains s s.
Proof. exists "", "". by rewrite append_nil_r. Qed.

Lemma contains_empty (t : string) : contains "" t.
Proof. by exists "", t. Qed.

Lemma contains_prefixed (p s t : string) :
  contains s t -> contains s (p ++ t)%string.
Proof.
  intros (pre & post & ->). exists (p ++ pre)%string, post.
  by rewrite append_assoc.
Qed.

Lemma contains_suffix (p s : string) : contains s (p ++ s)%string.
Proof. apply contains_prefixed, contains_refl. Qed.

(** The conversion of a thrown string or [Error] to a string succeeds and
    the result carries its message. *)
Lemma toStringThrown_contains (e : JsThrown) (message : string) :
  thrownMessage e = Some message ->
  exists rendering,
    toStringThrown e = Returns rendering /\ contains message rendering.
Proof.
  destruct e as [s|name text|rendering|raised]; simpl; try done.
  - intros [= <-]. eexists. split; [reflexivity|]. apply contains_refl.
  - intros [= <-]. eexists. split; [reflexivity|].
    destruct (decide (name = "")); [apply contains_refl|].
    destruct (decide (text = "")) as [->|]; [apply contains_empty|].
    apply contains_prefixed, contains_suffix.
Qed.

End StringFacts.

(** ** Tables *)

Module JsMapFacts.
Section Facts.
Context {V : Type}.
Implicit Types (m : JsMap.t V) (k : string) (v : V).

Lemma get_set_eq k v m : JsMap.get k (JsMap.set k v m) = Some v.
Proof.
  induction m as [|[k' v'] m IH]; simpl.
  - by destruct (decide (k = k)).
  - destruct (decide (k' = k)) as [->|Hne]; simpl.
    + by destruct (decide (k = k)).
    + by destruct (decide (k' = k)).
Qed.

Lemma get_set_ne k k' v m :
  k <> k' -> JsMap.get k' (JsMap.set k v m) = JsMap.get k' m.
Proof.
  intros Hne. induction m as [|[k0 v0] m IH]; simpl.
  - by destruct (decide (k = k')).
  - destruct (decide (k0 = k)) as [->|Hk0]; simpl.
    + destruct (decide (k = k')); [done|reflexivity].
    + destruct (decide (k0 = k')); [reflexivity|exact IH].
Qed.

Lemma get_delete_eq k m : JsMap.get k (JsMap.delete k m) = None.
Proof.
  induction m as [|[k' v'] m IH]; [reflexivity|].
  unfold JsMap.delete in *. simpl.
  case_bool_decide as Hk; simpl; [exact IH|].
  by destruct (decide (k' = k)).
Qed.

Lemma get_delete_ne k k' m :
  k <> k' -> JsMap.get k' (JsMap.delete k m) = JsMap.get k' m.
Proof.
  intros Hne. induction m as [|[k0 v0] m IH]; [reflexivity|].
  unfold JsMap.delete in *. simpl.
  case_bool_decide as Hk; simpl.
  - subst k0. destruct (decide (k = k')); [done|exact IH].
  - destruct (decide (k0 = k')); [reflexivity|exact IH].
Qed.

Lemma has_true k m : JsMap.has k m = true <-> is_Some (JsMap.get k m).
Proof.
  unfold JsMap.has. destruct (JsMap.get k m); split; intros H;
    try done; by destruct H.
Qed.

Lemma has_false k m : JsMap.has k m = false <-> JsMap.get k m = None.
Proof. unfold JsMap.has. by destruct (JsMap.get k m). Qed.

Lemma size_zero m : (JsMap.size m =? 0)%nat = true <-> m = [].
Proof. destruct m; simpl; split; intros; done. Qed.

Lemma size_set_present k v v' m :
  JsMap.get k m = Some v' -> JsMap.size (JsMap.set k v m) = JsMap.size m.
Proof.
  unfold JsMap.size. induction m as [|[k0 v0] m IH]; simpl; [done|].
  destruct (decide (k0 = k)); simpl; [done|]. intros H. by rewrite IH.
Qed.

Lemma size_set_absent k v m :
  JsMap.get k m = None -> JsMap.size (JsMap.set k v m) = S (JsMap.size m).
Proof.
  unfold JsMap.size. induction m as [|[k0 v0] m IH]; simpl; [done|].
  destruct (decide (k0 = k)); simpl; [done|]. intros H. by rewrite IH.
Qed.

(** The first key of a table is bound in it. *)
Lemma get_first_key k v m : JsMap.get k ((k, v) :: m) = Some v.
Proof. simpl. by destruct (decide (k = k)). Qed.

Lemma get_In k v m : JsMap.get k m = Some v -> In (k, v) m.
Proof.
  induction m as [|[k0 v0] m IH]; simpl; [done|].
  destruct (decide (k0 = k)) as [->|]; intros H.
  - left. congruence.
  - right. by apply IH.
Qed.

Lemma get_In_values k v m : JsMap.get k m = Some v -> In v (JsMap.values m).
Proof.
  intros H. apply get_In in H. unfold JsMap.values.
  change v with (snd (k, v)). by apply in_map.
Qed.

Lemma In_delete k k' v m :
  In (k', v) (JsMap.delete k m) <-> In (k', v) m /\ k' <> k.
Proof.
  unfold JsMap.delete. rewrite filter_In. simpl.
  rewrite negb_true_iff, bool_decide_eq_false. tauto.
Qed.

Lemma get_None_keys k m : JsMap.get k m = None <-> ~ In k (JsMap.keys m).
Proof.
  induction m as [|[k0 v0] m IH]; simpl; [tauto|].
  destruct (decide (k0 = k)) as [->|Hne]; [split; [done|tauto]|].
  rewrite IH. tauto.
Qed.

Lemma keys_set_present k v m :
  is_Some (JsMap.get k m) -> JsMap.keys (JsMap.set k v m) = JsMap.keys m.
Proof.
  induction m as [|[k0 v0] m IH]; simpl; intros [v' Hv']; [done|].
  destruct (decide (k0 = k)) as [->|Hne]; simpl; [done|].
  rewrite IH; [done|by exists v'].
Qed.

Lemma keys_set_absent k v m :
  JsMap.get k m = None -> JsMap.keys (JsMap.set k v m) = JsMap.keys m ++ [k].
Proof.
  induction m as [|[k0 v0] m IH]; simpl; intros Hnone; [done|].
  destruct (decide (k0 = k)) as [->|Hne]; simpl; [done|]. by rewrite IH.
Qed.

(** The representation invariant of a table: a key is bound once.  [set]
    and [delete] keep it. *)
Lemma set_unique_keys k v m :
  List.NoDup (JsMap.keys m) -> List.NoDup (JsMap.keys (JsMap.set k v m)).
Proof.
  intros Hm. destruct (JsMap.get k m) as [v'|] eqn:Hget.
  - by rewrite keys_set_present.
  - rewrite keys_set_absent by done.
    apply List.NoDup_app; [done|repeat constructor; by intros []|].
    intros k' Hin [<-|[]]. by apply get_None_keys in Hget.
Qed.

Lemma delete_unique_keys k m :
  List.NoDup (JsMap.keys m) -> List.NoDup (JsMap.keys (JsMap.delete k m)).
Proof.
  unfold JsMap.keys, JsMap.delete.
  induction m as [|[k0 v0] m IH]; simpl; intros Hm; [constructor|].
  apply List.NoDup_cons_iff in Hm as [Hk0 Hm].
  destruct (bool_decide (k0 = k)); simpl; [by apply IH|].
  constructor; [|by apply IH].
  intros Hin. apply Hk0. apply in_map_iff in Hin as ([k1 v1] & Hk1 & Hin).
  apply filter_In in Hin as [Hin _]. apply in_map_iff. by exists (k1, v1).
Qed.

End Facts.
End JsMapFacts.

(** ** Sorting *)

Module SortFacts.
Section ByKey.
Context {A : Type} (key : A -> Z).

Lemma insertSorted_perm (x : A) (l : list A) :
  Permutation (insertSorted (byKey key) x l) (x :: l).
Proof.
  induction l as [|y l IH]; simpl; [reflexivity|].
  destruct (byKey key x y <=? 0)%Z; [reflexivity|].
  rewrite IH. apply perm_swap.
Qed.

Lemma stableSort_perm (l : list A) : Permutation (stableSort (byKey key) l) l.
Proof.
  induction l as [|x l IH]; simpl; [reflexivity|].
  rewrite insertSorted_perm. by constructor.
Qed.

Lemma insertSorted_sorted (x : A) (l : list A) :
  StronglySorted (keyLe key) l -> StronglySorted (keyLe key) (insertSorted (byKey key) x l).
Proof.
  induction 1 as [|y l Hl IH Hy]; simpl.
  - repeat constructor.
  - destruct (byKey key x y <=? 0)%Z eqn:Hxy.
    + apply Z.leb_le in Hxy. unfold byKey in Hxy.
      constructor; [by constructor|].
      constructor; [unfold keyLe; lia|].
      rewrite List.Forall_forall in Hy |- *. intros z Hz.
      specialize (Hy z Hz). unfold keyLe in *. lia.
    + apply Z.leb_gt in Hxy. unfold byKey in Hxy.
      constructor; [exact IH|].
      rewrite List.Forall_forall in Hy |- *. intros z Hz.
      apply (Permutation_in _ (insertSorted_perm x l)) in Hz.
      destruct Hz as [<-|Hz]; [unfold keyLe; lia|by apply Hy].
Qed.

Lemma stableSort_sorted (l : list A) : StronglySorted (keyLe key) (stableSort (byKey key) l).
Proof.
  induction l as [|x l IH]; simpl; [constructor|].
  by apply insertSorted_sorted.
Qed.

(** Stability: the elements of one key keep their order. *)
Lemma insertSorted_stable (k : Z) (x : A) (l : list A) :
  List.filter (fun a => bool_decide (key a = k)) (insertSorted (byKey key) x l)
  = List.filter (fun a => bool_decide (key a = k)) (x :: l).
Proof.
  induction l as [|y l IH]; [reflexivity|].
  simpl insertSorted. destruct (byKey key x y <=? 0)%Z eqn:Hxy; [reflexivity|].
  apply Z.leb_gt in Hxy. unfold byKey in Hxy.
  simpl in *. rewrite IH.
  repeat case_bool_decide; try reflexivity; lia.
Qed.

Lemma stableSort_stable (k : Z) (l : list A) :
  List.filter (fun a => bool_decide (key a = k)) (stableSort (byKey key) l)
  = List.filter (fun a => bool_decide (key a = k)) l.
Proof.
  induction l as [|x l IH]; [reflexivity|].
  simpl stableSort. rewrite insertSorted_stable. simpl. by rewrite IH.
Qed.

End ByKey.
End SortFacts.

(** ** The registry: registration and the default table *)

Module FeatureRegistryFacts.
Import FeatureRegistry RegistrySpec.

Lemma registerFeature_same (r : t) f pluginId isDefault now :
  JsMap.get (Feature.id f)
    (features (registerFeature f pluginId isDefault now r))
  = Some (JsMap.set (getImplementationName f)
            (FeatureRegistryEntry.mk f now pluginId)
            (default JsMap.empty (JsMap.get (Feature.id f) (features r)))).
Proof.
  unfold registerFeature, JsMap.has. simpl.
  destruct (JsMap.get (Feature.id f) (features r)) as [impls|] eqn:Hget; simpl.
  - rewrite Hget. apply JsMapFacts.get_set_eq.
  - rewrite !JsMapFacts.get_set_eq. reflexivity.
Qed.

Lemma registerFeature_other (r : t) f pluginId isDefault now featureId :
  featureId <> Feature.id f ->
  JsMap.get featureId (features (registerFeature f pluginId isDefault now r))
  = JsMap.get featureId (features r).
Proof.
  intros Hne. unfold registerFeature. simpl.
  rewrite JsMapFacts.get_set_ne by done.
  destruct (negb _); [by rewrite JsMapFacts.get_set_ne|reflexivity].
Qed.

Lemma registerFeature_defaults (r : t) f pluginId isDefault now :
  defaultImplementations (registerFeature f pluginId isDefault now r)
  = if isDefault
       || negb (bool_decide (is_Some (defaultImplementations r !! Feature.id f)))
    then <[Feature.id f := getImplementationName f]> (defaultImplementations r)
    else defaultImplementations r.
Proof. reflexivity. Qed.

Lemma registerFeature_aliases (r : t) f pluginId isDefault now :
  aliases (registerFeature f pluginId isDefault now r) = aliases r.
Proof. reflexivity. Qed.

Lemma new_defaultsPresent : defaultsPresent new.
Proof. intros featureId implName H. simpl in H. by rewrite lookup_empty in H. Qed.

(** Registration keeps the default table inside the registry. *)
Lemma registerFeature_defaultsPresent (r : t) f pluginId isDefault now :
  defaultsPresent r ->
  defaultsPresent (registerFeature f pluginId isDefault now r).
Proof.
  intros Hinv featureId implName Hdef.
  rewrite registerFeature_defaults in Hdef.
  destruct (decide (featureId = Feature.id f)) as [->|Hne].
  - rewrite registerFeature_same.
    destruct (decide (implName = getImplementationName f)) as [->|Hn].
    { eexists _, _. split; [reflexivity|]. apply JsMapFacts.get_set_eq. }
    destruct (isDefault || _).
    + rewrite lookup_insert_eq in Hdef. congruence.
    + destruct (Hinv _ _ Hdef) as (impls & entry & -> & Hentry).
      exists (JsMap.set (getImplementationName f)
                (FeatureRegistryEntry.mk f now pluginId) impls), entry.
      split; [reflexivity|]. by rewrite JsMapFacts.get_set_ne.
  - rewrite registerFeature_other by done.
    destruct (isDefault || _).
    + rewrite lookup_insert_ne in Hdef by done. by apply Hinv.
    + by apply Hinv.
Qed.

(** Removing one named implementation repairs the default table. *)
Lemma unregisterFeature_named_defaultsPresent (r : t) featureId
    implementationName pluginId implName :
  truthy implementationName = Some implName ->
  defaultsPresent r ->
  defaultsPresent (snd (unregisterFeature featureId implementationName pluginId r)).
Proof.
  intros Hname Hinv. unfold unregisterFeature.
  destruct (JsMap.get featureId (features r)) as [impls|] eqn:Himpls;
    [|exact Hinv].
  rewrite Hname.
  destruct (JsMap.get implName impls) as [entry|] eqn:Hentry; [|exact Hinv].
  destruct (match truthy pluginId with Some _ => _ | None => _ end);
    [exact Hinv|].
  intros featureId' implName' Hdef. simpl in Hdef |- *.
  destruct (decide (featureId' = featureId)) as [->|Hne].
  - assert (exists entry', JsMap.get implName' (JsMap.delete implName impls)
                           = Some entry') as [entry' Hentry'].
    { case_bool_decide as Hwas.
      - destruct (JsMap.delete implName impls) as [|[first v] rest] eqn:Hrest;
          simpl in Hdef.
        + by rewrite lookup_delete_eq in Hdef.
        + rewrite lookup_insert_eq in Hdef. injection Hdef as <-.
          exists v. apply JsMapFacts.get_first_key.
      - destruct (Hinv _ _ Hdef) as (impls' & entry' & Himpls' & Hentry').
        rewrite Himpls in Himpls'. injection Himpls' as <-.
        exists entry'. rewrite JsMapFacts.get_delete_ne; [done|].
        intros ->. apply Hwas. exact Hdef. }
    destruct (JsMap.size (JsMap.delete implName impls) =? 0)%nat eqn:Hsize.
    { apply JsMapFacts.size_zero in Hsize. by rewrite Hsize in Hentry'. }
    exists (JsMap.delete implName impls), entry'.
    by rewrite JsMapFacts.get_set_eq.
  - assert (defaultImplementations r !! featureId' = Some implName') as Hold.
    { case_bool_decide; [|done].
      destruct (JsMap.keys _);
        [by rewrite lookup_delete_ne in Hdef
        |by rewrite lookup_insert_ne in Hdef]. }
    destruct (Hinv _ _ Hold) as (impls' & entry' & Himpls' & Hentry').
    exists impls', entry'. split; [|done].
    destruct (JsMap.size _ =? 0)%nat.
    + by rewrite JsMapFacts.get_delete_ne.
    + by rewrite JsMapFacts.get_set_ne.
Qed.

(** Removing a feature identifier altogether removes its default. *)
Lemma unregisterFeature_all_defaultsPresent (r : t) featureId
    implementationName pluginId :
  truthy implementationName = None ->
  truthy pluginId = None ->
  defaultsPresent r ->
  defaultsPresent (snd (unregisterFeature featureId implementationName pluginId r)).
Proof.
  intros Hname Hplugin Hinv. unfold unregisterFeature.
  destruct (JsMap.get featureId (features r)) as [impls|]; [|exact Hinv].
  rewrite Hname, Hplugin.
  intros featureId' implName' Hdef. simpl in Hdef |- *.
  destruct (decide (featureId' = featureId)) as [->|Hne].
  - by rewrite lookup_delete_eq in Hdef.
  - rewrite lookup_delete_ne in Hdef by done.
    rewrite JsMapFacts.get_delete_ne by done. by apply Hinv.
Qed.

(** Every sequence of calls that never unregisters by plugin alone keeps
    the default table inside the registry. *)
Lemma applyCalls_defaultsPresent (calls : list Call) (r : t) :
  forallb (fun c => negb (byPluginOnly c)) calls = true ->
  defaultsPresent r ->
  defaultsPresent (applyCalls calls r).
Proof.
  revert r. induction calls as [|c calls IH]; intros r Hcalls Hinv; [done|].
  simpl in Hcalls. apply andb_prop in Hcalls as [Hc Hcalls].
  apply (IH _ Hcalls). clear IH Hcalls.
  destruct c as [f pluginId isDefault now|featureId implementationName pluginId];
    simpl in *.
  - by apply registerFeature_defaultsPresent.
  - destruct (truthy implementationName) as [implName|] eqn:Hname.
    + by eapply unregisterFeature_named_defaultsPresent.
    + destruct (truthy pluginId) eqn:Hplugin; [done|].
      by apply unregisterFeature_all_defaultsPresent.
Qed.

(** C1 (the code departs from the claim). After two plugins have registered
    an implementation of the same feature identifier, unregistering the
    features of the first plugin by plugin identifier alone removes the
    implementation that is the recorded default and leaves the default table
    untouched: the entry for "x" still names "a", which is no longer in the
    implementation table, and [getFeature] without an implementation name
    finds nothing although "b" is still registered. *)
Theorem unregister_by_plugin_leaves_stale_default :
  let r := applyCalls Sample.unloadFirstOfTwo new in
  defaultImplementations r !! "x" = Some "a" /\
  (exists impls,
     JsMap.get "x" (features r) = Some impls /\
     JsMap.keys impls = ["b"] /\ JsMap.get "a" impls = None) /\
  getFeature r "x" None = None /\
  getFeature r "x" (Some "b") = Some Sample.fxb /\
  ~ defaultsPresent r.
Proof.
  cbv zeta.
  assert (defaultImplementations (applyCalls Sample.unloadFirstOfTwo new) !! "x"
          = Some "a") as Hdef by (vm_compute; reflexivity).
  split; [exact Hdef|]. split; [|split; [|split]].
  - eexists. split; [vm_compute; reflexivity|]. split; reflexivity.
  - vm_compute. reflexivity.
  - vm_compute. reflexivity.
  - intros Hinv. destruct (Hinv _ _ Hdef) as (impls & entry & Himpls & Hentry).
    vm_compute in Himpls. injection Himpls as <-. discriminate Hentry.
Qed.

(** ** The registry: applicable features *)

Lemma applicableStep_app (r : t) siteConfig url acc mapping :
  applicableStep r siteConfig url acc mapping
  = acc ++ selected r siteConfig url mapping.
Proof.
  unfold selected, applicableStep.
  destruct (negb _); [by rewrite app_nil_r|].
  destruct (getFeature _ _ _) as [f|]; [|by rewrite app_nil_r].
  destruct (Feature.isApplicable _ _ _) as [[]|]; by rewrite ?app_nil_r.
Qed.

Lemma applicable_fold (r : t) siteConfig url mappings acc :
  fold_left (applicableStep r siteConfig url) mappings acc
  = acc ++ flat_map (selected r siteConfig url) mappings.
Proof.
  revert acc. induction mappings as [|m mappings IH]; intros acc; simpl.
  - by rewrite app_nil_r.
  - by rewrite IH, applicableStep_app, <- app_assoc.
Qed.

Lemma getApplicableFeatures_flat_map (r : t) siteConfig url :
  getApplicableFeatures r siteConfig url
  = flat_map (selected r siteConfig url) (sortedMappings siteConfig).
Proof. unfold getApplicableFeatures. by rewrite applicable_fold. Qed.

(** A mapping contributes at most one feature, and only when it is enabled,
    resolves, and the feature says it applies. *)
Lemma selected_cases (r : t) siteConfig url mapping :
  (exists f,
     selected r siteConfig url mapping = [f] /\
     FeatureMapping.enabled mapping = true /\
     getFeature r (FeatureMapping.featureId mapping)
       (FeatureMapping.implementation mapping) = Some f /\
     Feature.isApplicable f url (Some siteConfig) = Returns true) \/
  (selected r siteConfig url mapping = [] /\
   (FeatureMapping.enabled mapping = false \/
    getFeature r (FeatureMapping.featureId mapping)
      (FeatureMapping.implementation mapping) = None \/
    exists f,
      getFeature r (FeatureMapping.featureId mapping)
        (FeatureMapping.implementation mapping) = Some f /\
      Feature.isApplicable f url (Some siteConfig) <> Returns true)).
Proof.
  unfold selected, applicableStep.
  destruct (FeatureMapping.enabled mapping); simpl; [|by right; auto].
  destruct (getFeature _ _ _) as [f|] eqn:Hf; [|by right; auto].
  destruct (Feature.isApplicable _ _ _) as [[]|] eqn:Happ.
  - left. by exists f.
  - right. split; [done|]. right. right. exists f. by rewrite Happ.
  - right. split; [done|]. right. right. exists f. by rewrite Happ.
Qed.

Lemma getApplicableFeatures_selectedMappings (r : t) siteConfig url :
  getApplicableFeatures r siteConfig url
  = flat_map (selected r siteConfig url) (selectedMappings r siteConfig url).
Proof.
  rewrite getApplicableFeatures_flat_map. unfold selectedMappings.
  induction (sortedMappings siteConfig) as [|m l IH]; [reflexivity|].
  simpl. destruct (selected r siteConfig url m) eqn:Hm; simpl.
  - exact IH.
  - by rewrite Hm, IH.
Qed.

Lemma StronglySorted_filter {A : Type} (R : A -> A -> Prop) (p : A -> bool)
    (l : list A) :
  StronglySorted R l -> StronglySorted R (List.filter p l).
Proof.
  induction 1 as [|x l Hl IH Hx]; simpl; [constructor|].
  destruct (p x); [|exact IH]. constructor; [exact IH|].
  rewrite List.Forall_forall in Hx |- *. intros y Hy.
  apply filter_In in Hy as [Hy _]. by apply Hx.
Qed.

Lemma sortedMappings_sorted siteConfig :
  StronglySorted (keyLe priorityOr999) (sortedMappings siteConfig).
Proof. apply (SortFacts.stableSort_sorted priorityOr999). Qed.

Lemma sortedMappings_perm siteConfig :
  Permutation (sortedMappings siteConfig) (SiteConfig.enabledFeatures siteConfig).
Proof. apply (SortFacts.stableSort_perm priorityOr999). Qed.

(** What [getApplicableFeatures] does: the contributing mappings are taken in
    ascending order of [priority || 999], the mappings of one such priority
    in the order of [siteConfig.enabledFeatures]; each is enabled, resolves
    to the feature it contributes, and that feature answered that it
    applies. *)
Lemma getApplicableFeatures_order (r : t) siteConfig url :
  getApplicableFeatures r siteConfig url
  = flat_map (selected r siteConfig url) (selectedMappings r siteConfig url) /\
  StronglySorted (keyLe priorityOr999) (selectedMappings r siteConfig url) /\
  (forall k,
     List.filter (fun m => bool_decide (priorityOr999 m = k))
       (sortedMappings siteConfig)
     = List.filter (fun m => bool_decide (priorityOr999 m = k))
         (SiteConfig.enabledFeatures siteConfig)) /\
  List.Forall
    (fun m =>
       In m (SiteConfig.enabledFeatures siteConfig) /\
       FeatureMapping.enabled m = true /\
       exists f,
         selected r siteConfig url m = [f] /\
         getFeature r (FeatureMapping.featureId m)
           (FeatureMapping.implementation m) = Some f /\
         Feature.isApplicable f url (Some siteConfig) = Returns true)
    (selectedMappings r siteConfig url).
Proof.
  split; [apply getApplicableFeatures_selectedMappings|].
  split; [apply StronglySorted_filter, sortedMappings_sorted|].
  split; [intros k; apply (SortFacts.stableSort_stable priorityOr999)|].
  apply List.Forall_forall. intros m Hm.
  unfold selectedMappings in Hm. apply filter_In in Hm as [Hin Hsel].
  split; [by apply (Permutation_in _ (sortedMappings_perm siteConfig))|].
  destruct (selected_cases r siteConfig url m)
    as [(f & Hf & Hen & Hget & Happ)|[Hnil _]].
  - split; [done|]. by exists f.
  - by rewrite Hnil in Hsel.
Qed.

(** C2 (the code departs from the claim). A mapping with priority 0 is
    ordered as if it had none: with "x" at priority 0 listed before "y" at
    priority 5, both enabled, registered and applicable, the feature of "y"
    is returned first. *)
Theorem getApplicableFeatures_priority_zero_last :
  getApplicableFeatures Sample.xy Sample.zeroBeforeFive Sample.url
  = [Sample.fy; Sample.fxa] /\
  selectedMappings Sample.xy Sample.zeroBeforeFive Sample.url
  = [Sample.priorityFive; Sample.priorityZero] /\
  statedPriority Sample.priorityZero = 0%Z /\
  statedPriority Sample.priorityFive = 5%Z /\
  priorityOr999 Sample.priorityZero = 999%Z /\
  ~ StronglySorted (keyLe statedPriority)
      (selectedMappings Sample.xy Sample.zeroBeforeFive Sample.url).
Proof.
  assert (selectedMappings Sample.xy Sample.zeroBeforeFive Sample.url
          = [Sample.priorityFive; Sample.priorityZero]) as Hsel
    by (vm_compute; reflexivity).
  split; [vm_compute; reflexivity|]. split; [exact Hsel|].
  split; [reflexivity|]. split; [reflexivity|]. split; [reflexivity|].
  rewrite Hsel. intros Hsorted.
  apply StronglySorted_inv in Hsorted as [_ Hall].
  apply Forall_inv in Hall. unfold keyLe in Hall. vm_compute in Hall.
  by apply Hall.
Qed.

(** ** The registry: lookups *)

Lemma getFeature_resolved (r : t) featureId implementationName :
  getFeature r featureId implementationName
  = lookupDirect r (resolveAlias r featureId) implementationName.
Proof. reflexivity. Qed.

Lemma truthy_nonempty (s : string) : s <> "" -> truthy (Some s) = Some s.
Proof. intros Hs. simpl. by destruct (decide (s = "")). Qed.

Lemma lookupDirect_named (r : t) featureId implName impls :
  JsMap.get featureId (features r) = Some impls ->
  implName <> "" ->
  lookupDirect r featureId (Some implName)
  = FeatureRegistryEntry.feature <$> JsMap.get implName impls.
Proof.
  intros Himpls Hname. unfold lookupDirect, orElse.
  rewrite Himpls, !truthy_nonempty by done.
  by destruct (JsMap.get implName impls).
Qed.

Lemma lookupDirect_default (r : t) featureId implName impls :
  JsMap.get featureId (features r) = Some impls ->
  defaultImplementations r !! featureId = Some implName ->
  implName <> "" ->
  lookupDirect r featureId None
  = FeatureRegistryEntry.feature <$> JsMap.get implName impls.
Proof.
  intros Himpls Hdef Hname. unfold lookupDirect, orElse. simpl.
  rewrite Himpls, Hdef, truthy_nonempty by done.
  by destruct (JsMap.get implName impls).
Qed.

(** C5 (counterexample). In a fresh registry, an implementation whose name is
    the empty string is registered first and one named "b" second: the names
    are distinct, yet neither the lookup by the empty name nor the lookup
    without a name returns the first feature. *)
Lemma empty_name_not_retrievable :
  Feature.id Sample.fxEmpty = Feature.id Sample.fxb /\
  getImplementationName Sample.fxEmpty <> getImplementationName Sample.fxb /\
  (let r := registerFeature Sample.fxb None false 2%Z
              (registerFeature Sample.fxEmpty None false 1%Z new) in
   getFeature r "x" (Some "") = None /\ getFeature r "x" None = None) /\
  ~ bothRetrievable Sample.fxEmpty Sample.fxb None None 1%Z 2%Z.
Proof.
  split; [reflexivity|]. split; [discriminate|].
  split; [split; vm_compute; reflexivity|].
  intros (H1 & _). vm_compute in H1. discriminate H1.
Qed.

(** C5 (amended). In a registry where the feature identifier has no default
    yet and is not redirected by an alias (a fresh registry is one), after
    registering two features with that identifier and distinct, non-empty
    implementation names, the first without the default flag, each is
    returned under its own implementation name; without an implementation
    name the first one is returned, unless the second was registered with
    the default flag, and then the second is. *)
Theorem register_two_implementations (r : t) (f1 f2 : Feature.t)
    (p1 p2 : option string) (isDefault2 : bool) (t1 t2 : Z) :
  Feature.id f1 = Feature.id f2 ->
  getImplementationName f1 <> getImplementationName f2 ->
  getImplementationName f1 <> "" ->
  getImplementationName f2 <> "" ->
  resolveAlias r (Feature.id f1) = Feature.id f1 ->
  defaultImplementations r !! Feature.id f1 = None ->
  let r2 := registerFeature f2 p2 isDefault2 t2
              (registerFeature f1 p1 false t1 r) in
  getFeature r2 (Feature.id f1) (Some (getImplementationName f1)) = Some f1 /\
  getFeature r2 (Feature.id f1) (Some (getImplementationName f2)) = Some f2 /\
  getFeature r2 (Feature.id f1) None = Some (if isDefault2 then f2 else f1).
Proof.
  intros Hid Hdistinct Hn1 Hn2 Halias Hnodefault r2.
  assert (exists impls,
            JsMap.get (Feature.id f1) (features r2) = Some impls /\
            JsMap.get (getImplementationName f1) impls
            = Some (FeatureRegistryEntry.mk f1 t1 p1) /\
            JsMap.get (getImplementationName f2) impls
            = Some (FeatureRegistryEntry.mk f2 t2 p2))
    as (impls & Himpls & Hfirst & Hsecond).
  { subst r2. rewrite Hid, registerFeature_same, <- Hid, registerFeature_same.
    eexists. split; [reflexivity|]. simpl. split.
    - rewrite JsMapFacts.get_set_ne by done. apply JsMapFacts.get_set_eq.
    - apply JsMapFacts.get_set_eq. }
  assert (defaultImplementations r2 !! Feature.id f1
          = Some (if isDefault2 then getImplementationName f2
                  else getImplementationName f1)) as Hdef.
  { subst r2. rewrite !registerFeature_defaults, Hnodefault, <- Hid. simpl.
    rewrite lookup_insert_eq. simpl.
    destruct isDefault2; simpl.
    - by rewrite lookup_insert_eq.
    - by rewrite lookup_insert_eq. }
  assert (resolveAlias r2 (Feature.id f1) = Feature.id f1) as Halias2
    by exact Halias.
  rewrite !getFeature_resolved, Halias2.
  rewrite !(lookupDirect_named _ _ _ _ Himpls) by done.
  rewrite Hfirst, Hsecond. split; [done|]. split; [done|].
  destruct isDefault2.
  - rewrite (lookupDirect_default _ _ _ _ Himpls Hdef) by done.
    by rewrite Hsecond.
  - rewrite (lookupDirect_default _ _ _ _ Himpls Hdef) by done.
    by rewrite Hfirst.
Qed.

Lemma register_two_implementations_witness :
  getFeature Sample.twoPlugins "x" (Some "a") = Some Sample.fxa /\
  getFeature Sample.twoPlugins "x" (Some "b") = Some Sample.fxb /\
  getFeature Sample.twoPlugins "x" None = Some Sample.fxa.
Proof.
  apply (register_two_implementations new Sample.fxa Sample.fxb
           (Some "pluginA") (Some "pluginB") false 1%Z 2%Z);
    first [reflexivity | discriminate].
Defined.

(** C6 (counterexample). The default "a" of "x" is unregistered while another
    implementation remains, and afterwards [getFeature("x")] finds nothing:
    once because the remaining implementation is named by the empty string,
    which [getFeature] takes for no name at all, and once because "x" is also
    an alias, so that the lookup goes to the identifier it points to. *)
Lemma unregister_default_then_nothing_found :
  (let r := Sample.namedThenEmpty in
   let r' := snd (unregisterFeature "x" (Some "a") None r) in
   defaultImplementations r !! "x" = Some "a" /\
   fst (unregisterFeature "x" (Some "a") None r) = true /\
   JsMap.keys <$> JsMap.get "x" (features r') = Some [""] /\
   getFeature r' "x" None = None) /\
  (let r := Sample.shadowed in
   let r' := snd (unregisterFeature "x" (Some "a") None r) in
   defaultImplementations r !! "x" = Some "a" /\
   fst (unregisterFeature "x" (Some "a") None r) = true /\
   JsMap.keys <$> JsMap.get "x" (features r') = Some ["b"] /\
   defaultImplementations r' !! "x" = Some "b" /\
   getFeature r' "x" None = None).
Proof. repeat split; vm_compute; reflexivity. Qed.

(** C6 (amended). If [unregisterFeature(featureId, implementationName)]
    removes the implementation recorded as default while another one remains,
    the first remaining implementation becomes the default, whatever its name
    and whatever the aliases; it is registered.  If moreover its name is not
    the empty string and the identifier is not redirected by an alias,
    [getFeature(featureId)] returns the feature of that implementation. *)
Theorem unregister_default_elects_remaining (r r' : t) featureId implName
    pluginId impls first entry rest :
  implName <> "" ->
  JsMap.get featureId (features r) = Some impls ->
  defaultImplementations r !! featureId = Some implName ->
  unregisterFeature featureId (Some implName) pluginId r = (true, r') ->
  JsMap.delete implName impls = (first, entry) :: rest ->
  defaultImplementations r' !! featureId = Some first /\
  JsMap.get featureId (features r') = Some ((first, entry) :: rest) /\
  registered r' (FeatureRegistryEntry.feature entry) /\
  (first <> "" ->
   resolveAlias r featureId = featureId ->
   getFeature r' featureId None = Some (FeatureRegistryEntry.feature entry)).
Proof.
  intros Hname Himpls Hdef Hcall Hrest.
  unfold unregisterFeature in Hcall.
  rewrite Himpls, truthy_nonempty in Hcall by done.
  destruct (JsMap.get implName impls) as [removed|]; [|discriminate Hcall].
  destruct (match truthy pluginId with Some _ => _ | None => _ end);
    [discriminate Hcall|].
  rewrite Hrest, bool_decide_true in Hcall by done. simpl in Hcall.
  injection Hcall as <-.
  set (r' := mk _ _ _).
  assert (JsMap.get featureId (features r') = Some ((first, entry) :: rest))
    as Himpls' by apply JsMapFacts.get_set_eq.
  assert (defaultImplementations r' !! featureId = Some first) as Hdef'
    by apply lookup_insert_eq.
  assert (JsMap.get first ((first, entry) :: rest) = Some entry) as Hentry
    by apply JsMapFacts.get_first_key.
  split; [exact Hdef'|]. split; [exact Himpls'|]. split.
  - by exists featureId, ((first, entry) :: rest), first, entry.
  - intros Hfirst Halias. rewrite getFeature_resolved.
    replace (resolveAlias r' featureId) with featureId by (symmetry; exact Halias).
    rewrite (lookupDirect_default _ _ _ _ Himpls' Hdef') by done.
    by rewrite Hentry.
Qed.

Lemma unregister_default_elects_remaining_witness :
  let r' := snd (unregisterFeature "x" (Some "a") None Sample.twoPlugins) in
  defaultImplementations r' !! "x" = Some "b" /\
  getFeature r' "x" None = Some Sample.fxb /\
  registered r' Sample.fxb.
Proof.
  destruct (unregister_default_elects_remaining Sample.twoPlugins
              (snd (unregisterFeature "x" (Some "a") None Sample.twoPlugins))
              "x" "a" None
              [("a", FeatureRegistryEntry.mk Sample.fxa 1%Z (Some "pluginA"));
               ("b", FeatureRegistryEntry.mk Sample.fxb 2%Z (Some "pluginB"))]
              "b" (FeatureRegistryEntry.mk Sample.fxb 2%Z (Some "pluginB")) [])
    as (Hdefault & _ & Hregistered & Hfound);
    [discriminate | reflexivity | reflexivity | reflexivity | reflexivity |].
  split; [exact Hdefault|]. split; [|exact Hregistered].
  apply Hfound; [discriminate|reflexivity].
Defined.

(** C9 (counterexample). "y" is an alias of "z"; after [setAlias("a", "y")]
    the lookup of "a" stops at "y" and returns the feature registered under
    "y", while the lookup of "y" follows its own alias and returns the
    feature registered under "z". *)
Lemma alias_of_alias_differs :
  let r := setAlias "a" "y" Sample.chained in
  getFeature r "a" None = Some Sample.fy /\
  getFeature r "y" None = Some Sample.fz /\
  getFeature r "a" None <> getFeature r "y" None.
Proof.
  cbv zeta.
  assert (getFeature (setAlias "a" "y" Sample.chained) "a" None
          = Some Sample.fy) as -> by (vm_compute; reflexivity).
  assert (getFeature (setAlias "a" "y" Sample.chained) "y" None
          = Some Sample.fz) as -> by (vm_compute; reflexivity).
  split; [reflexivity|]. split; [reflexivity|].
  intros H. injection H as H. discriminate H.
Qed.

(** C9 (amended). After [setAlias(alias, featureId)] with a non-empty
    [featureId], [getFeature(alias)] returns what the tables hold directly
    under [featureId]: the alias is resolved once and no alias of [featureId]
    is followed.  This is the result of [getFeature(featureId)] whenever
    [featureId] is not itself redirected by the alias table. *)
Theorem setAlias_single_hop (r : t) (alias featureId : string)
    (implementationName : option string) :
  featureId <> "" ->
  let r' := setAlias alias featureId r in
  getFeature r' alias implementationName
  = lookupDirect r' featureId implementationName /\
  (resolveAlias r' featureId = featureId ->
   getFeature r' alias implementationName
   = getFeature r' featureId implementationName).
Proof.
  intros Hid r'.
  assert (resolveAlias r' alias = featureId) as Halias.
  { unfold resolveAlias, r', setAlias. simpl.
    by rewrite lookup_insert_eq, truthy_nonempty. }
  split.
  - by rewrite getFeature_resolved, Halias.
  - intros Hself. by rewrite !getFeature_resolved, Halias, Hself.
Qed.

Lemma setAlias_single_hop_witness :
  let r' := setAlias "alias-name" "x" Sample.twoPlugins in
  getFeature r' "alias-name" None = lookupDirect r' "x" None /\
  (resolveAlias r' "x" = "x" ->
   getFeature r' "alias-name" None = getFeature r' "x" None).
Proof.
  apply (setAlias_single_hop Sample.twoPlugins "alias-name" "x" None).
  discriminate.
Defined.

(** ** The registry: statistics *)

Lemma getStats_fold_total (tables : list (JsMap.t FeatureRegistryEntry.t))
    (total : nat) (breakdown : gmap string BreakdownValue) :
  fst (fold_left
         (fun '(total, breakdown) implementations =>
            ((total + JsMap.size implementations)%nat,
             fold_left countEntry (JsMap.values implementations) breakdown))
         tables (total, breakdown))
  = (total + list_sum (List.map JsMap.size tables))%nat.
Proof.
  revert total breakdown.
  induction tables as [|impls tables IH]; intros total breakdown; simpl.
  - lia.
  - rewrite IH. lia.
Qed.

(** [totalImplementations] is the sum of the sizes of the implementation
    tables. *)
Lemma getStats_totalImplementations (r : t) :
  totalImplementations (getStats r)
  = list_sum (List.map JsMap.size (JsMap.values (features r))).
Proof.
  unfold getStats.
  pose proof (getStats_fold_total (JsMap.values (features r)) 0 ∅) as Hfold.
  destruct (fold_left _ _ _) as [total breakdown]. simpl in *. exact Hfold.
Qed.

Lemma getStats_totalFeatures (r : t) :
  totalFeatures (getStats r) = JsMap.size (features r).
Proof. unfold getStats. by destruct (fold_left _ _ _). Qed.

(** Registering under an identifier that is present changes its table in
    place. *)
Lemma registerFeature_present (r : t) f pluginId isDefault now impls :
  JsMap.get (Feature.id f) (features r) = Some impls ->
  features (registerFeature f pluginId isDefault now r)
  = JsMap.set (Feature.id f)
      (JsMap.set (getImplementationName f)
         (FeatureRegistryEntry.mk f now pluginId) impls)
      (features r).
Proof.
  intros Himpls. unfold registerFeature, JsMap.has. simpl.
  by rewrite Himpls; simpl; rewrite Himpls.
Qed.

Lemma keys_set_same {V : Type} (k : string) (v old : V) (m : JsMap.t V) :
  JsMap.get k m = Some old -> JsMap.keys (JsMap.set k v m) = JsMap.keys m.
Proof.
  intros Hold. unfold JsMap.keys.
  induction m as [|[k0 v0] m IH]; simpl in *; [done|].
  destruct (decide (k0 = k)) as [->|]; simpl; [done|]. by rewrite IH.
Qed.

(** [totalImplementations] is the number of registered keys. *)
Lemma getStats_counts_keys (r : t) :
  totalImplementations (getStats r) = length (registeredKeys r).
Proof.
  rewrite getStats_totalImplementations.
  unfold registeredKeys, JsMap.values, JsMap.entries, JsMap.size, JsMap.keys.
  induction (features r) as [|[featureId impls] tables IH]; simpl; [done|].
  by rewrite length_app, !length_map, IH.
Qed.

(** Replacing a table by one with the same keys leaves the registered keys
    as they are. *)
Lemma registeredKeys_set (r r' : t) (featureId : string)
    (impls impls' : JsMap.t FeatureRegistryEntry.t) :
  JsMap.get featureId (features r) = Some impls ->
  JsMap.keys impls' = JsMap.keys impls ->
  features r' = JsMap.set featureId impls' (features r) ->
  registeredKeys r' = registeredKeys r.
Proof.
  intros Hget Hkeys Hfeatures. unfold registeredKeys, JsMap.entries.
  rewrite Hfeatures. clear Hfeatures.
  induction (features r) as [|[k v] tables IH]; simpl in *; [done|].
  destruct (decide (k = featureId)) as [->|Hne]; simpl.
  - injection Hget as ->. by rewrite Hkeys.
  - by rewrite IH.
Qed.

Lemma registeredKeys_In (r : t) (featureId implName : string)
    (impls : JsMap.t FeatureRegistryEntry.t) (entry : FeatureRegistryEntry.t) :
  JsMap.get featureId (features r) = Some impls ->
  JsMap.get implName impls = Some entry ->
  In (featureId, implName) (registeredKeys r).
Proof.
  intros Himpls Hentry. unfold registeredKeys, JsMap.entries.
  apply in_flat_map. exists (featureId, impls).
  split; [by apply JsMapFacts.get_In|].
  apply in_map. unfold JsMap.keys.
  change implName with (fst (implName, entry)).
  by apply in_map, JsMapFacts.get_In.
Qed.

Lemma filter_once {A : Type} `{EqDecision A} (x : A) (l : list A) :
  List.NoDup l -> In x l ->
  length (List.filter (fun y => bool_decide (y = x)) l) = 1%nat.
Proof.
  induction 1 as [|y l Hy Hl IH]; intros Hin; [done|]. simpl.
  destruct Hin as [->|Hin].
  - rewrite bool_decide_true by done. simpl. f_equal.
    clear IH Hl. induction l as [|z l IH]; [done|]. simpl.
    rewrite bool_decide_false.
    + apply IH. intros Hx. apply Hy. by right.
    + intros ->. apply Hy. by left.
  - rewrite bool_decide_false; [by apply IH|].
    intros ->. by apply Hy.
Qed.

(** C7. Registering a feature under a (featureId, implementationName) key
    that is already registered puts the new entry in the place of the old
    one.  The registered keys are what they were, the key among them, and
    [getStats().totalImplementations] is the number of registered keys: the
    key is counted once, as often as it is registered (once, the keys of a
    [Map] being distinct), and the totals are what they were before. *)
Theorem register_again_replaces (r : t) (f : Feature.t)
    (pluginId : option string) (isDefault : bool) (now : Z)
    (impls : JsMap.t FeatureRegistryEntry.t) (old : FeatureRegistryEntry.t) :
  JsMap.get (Feature.id f) (features r) = Some impls ->
  JsMap.get (getImplementationName f) impls = Some old ->
  let r' := registerFeature f pluginId isDefault now r in
  (exists impls',
     JsMap.get (Feature.id f) (features r') = Some impls' /\
     JsMap.get (getImplementationName f) impls'
     = Some (FeatureRegistryEntry.mk f now pluginId) /\
     JsMap.keys impls' = JsMap.keys impls) /\
  registeredKeys r' = registeredKeys r /\
  In (Feature.id f, getImplementationName f) (registeredKeys r') /\
  (List.NoDup (registeredKeys r) ->
   timesRegistered r' (Feature.id f) (getImplementationName f) = 1%nat) /\
  totalImplementations (getStats r') = length (registeredKeys r') /\
  totalImplementations (getStats r') = totalImplementations (getStats r) /\
  totalFeatures (getStats r') = totalFeatures (getStats r).
Proof.
  intros Himpls Hold r'.
  pose proof (registerFeature_present r f pluginId isDefault now impls Himpls)
    as Hfeatures.
  fold r' in Hfeatures.
  assert (JsMap.keys
            (JsMap.set (getImplementationName f)
               (FeatureRegistryEntry.mk f now pluginId) impls)
          = JsMap.keys impls) as Hkeys by (by eapply keys_set_same).
  assert (registeredKeys r' = registeredKeys r) as Hsame
    by (by eapply registeredKeys_set).
  assert (In (Feature.id f, getImplementationName f) (registeredKeys r'))
    as Hin.
  { rewrite Hsame. by eapply registeredKeys_In. }
  split; [|split; [exact Hsame|split; [exact Hin|split; [|split; [|split]]]]].
  - eexists. split; [|split; [|exact Hkeys]].
    + rewrite Hfeatures. apply JsMapFacts.get_set_eq.
    + apply JsMapFacts.get_set_eq.
  - intros Hdistinct. unfold timesRegistered.
    apply filter_once; [by rewrite Hsame|exact Hin].
  - apply getStats_counts_keys.
  - by rewrite !getStats_counts_keys, Hsame.
  - rewrite !getStats_totalFeatures, Hfeatures.
    by apply JsMapFacts.size_set_present with impls.
Qed.

Lemma register_again_replaces_witness :
  let f := Sample.feature "x" "X by a, again" (Some "a") in
  let r' := registerFeature f (Some "pluginC") false 3%Z Sample.twoPlugins in
  (exists impls',
     JsMap.get "x" (features r') = Some impls' /\
     JsMap.get "a" impls' = Some (FeatureRegistryEntry.mk f 3%Z (Some "pluginC")) /\
     JsMap.keys impls' = ["a"; "b"]) /\
  registeredKeys r' = [("x", "a"); ("x", "b")] /\
  In ("x", "a") (registeredKeys r') /\
  timesRegistered r' "x" "a" = 1%nat /\
  totalImplementations (getStats r') = length (registeredKeys r') /\
  totalImplementations (getStats r') = 2%nat /\
  totalFeatures (getStats r') = 1%nat.
Proof.
  destruct (register_again_replaces Sample.twoPlugins
              (Sample.feature "x" "X by a, again" (Some "a"))
              (Some "pluginC") false 3%Z
              [("a", FeatureRegistryEntry.mk Sample.fxa 1%Z (Some "pluginA"));
               ("b", FeatureRegistryEntry.mk Sample.fxb 2%Z (Some "pluginB"))]
              (FeatureRegistryEntry.mk Sample.fxa 1%Z (Some "pluginA"))
              eq_refl eq_refl)
    as (Hentry & Hkeys & Hkey & Honce & Hcount & Htotal & Hfeatures).
  split; [exact Hentry|]. split; [exact Hkeys|]. split; [exact Hkey|].
  split; [|split; [exact Hcount|split; [exact Htotal|exact Hfeatures]]].
  apply Honce. change (List.NoDup [("x", "a"); ("x", "b")]).
  repeat constructor; simpl; intuition discriminate.
Defined.

End FeatureRegistryFacts.

(** ** The plugin manager *)

Module PluginManagerFacts.
Import PluginManager ManagerSpec.

(** C8. On a manager whose [isInitialized] is false,
    [executeApplicableFeatures] throws, for every site configuration and URL;
    no [execute] is called and the DOM is left as it was. *)
Theorem executeApplicableFeatures_uninitialized (pm : t)
    (siteConfig : SiteConfig.t) (url : string) (document0 : Document) :
  isInitialized pm = false ->
  executeApplicableFeatures pm siteConfig url document0
  = (Throws (newError "PluginManager not initialized"), [], document0).
Proof. intros Hinit. unfold executeApplicableFeatures. by rewrite Hinit. Qed.

Lemma executeApplicableFeatures_uninitialized_witness :
  executeApplicableFeatures
    (new (featureRegistry Sample.ready) Sample.storage None)
    Sample.xThenY Sample.url []
  = (Throws (ThrownError "Error" "PluginManager not initialized"), [], []).
Proof.
  apply (executeApplicableFeatures_uninitialized
           (new (featureRegistry Sample.ready) Sample.storage None)
           Sample.xThenY Sample.url []).
  reflexivity.
Defined.

(** C4. When the plugin is not loaded yet and its [initialize] throws,
    [loadPlugin] rejects with the same error and leaves the plugin with
    status ERROR; the manager is as before: no feature was registered and the
    plugin is not in the table of loaded plugins. *)
Theorem loadPlugin_initialize_throws (plugin : Plugin.t) (now : Z) (pm : t)
    (error : JsThrown) :
  JsMap.has (Plugin.id plugin) (plugins pm) = false ->
  Plugin.initialize plugin (initContext pm) = Some error ->
  exists plugin',
    loadPlugin plugin now pm = (Throws error, plugin', pm) /\
    Plugin.status plugin' = PluginStatus.ERROR /\
    Plugin.id plugin' = Plugin.id plugin /\
    Plugin.features plugin' = Plugin.features plugin /\
    JsMap.get (Plugin.id plugin) (plugins pm) = None.
Proof.
  intros Hnew Hthrows. unfold loadPlugin. rewrite Hnew.
  change (Plugin.initialize (Plugin.setStatus PluginStatus.LOADING plugin))
    with (Plugin.initialize plugin).
  rewrite Hthrows. eexists. split; [reflexivity|].
  repeat split. by apply JsMapFacts.has_false.
Qed.

Lemma loadPlugin_initialize_throws_witness :
  exists plugin',
    loadPlugin Sample.failing 1%Z Sample.ready
    = (Throws (newError "no network"), plugin', Sample.ready) /\
    Plugin.status plugin' = PluginStatus.ERROR /\
    Plugin.id plugin' = "pluginF" /\
    Plugin.features plugin' = [Sample.fz] /\
    JsMap.get "pluginF" (plugins Sample.ready) = None.
Proof.
  apply (loadPlugin_initialize_throws Sample.failing 1%Z Sample.ready
           (newError "no network")); reflexivity.
Defined.

(** The same happens through the manager: the second plugin loaded brings
    the default implementation of "x" (the first feature of a plugin is
    registered as default); unloading it leaves "x" with the implementation
    of the first plugin and a default that names the one just removed. *)
Lemma unloadPlugin_leaves_stale_default :
  let pm := snd (unloadPlugin "pluginB" Sample.bothLoaded) in
  fst (fst (unloadPlugin "pluginB" Sample.bothLoaded)) = Returns tt /\
  JsMap.keys (plugins pm) = ["pluginA"] /\
  FeatureRegistry.getFeature (featureRegistry pm) "x" (Some "a")
  = Some Sample.fxa /\
  FeatureRegistry.defaultImplementations (featureRegistry pm) !! "x"
  = Some "b" /\
  FeatureRegistry.getFeature (featureRegistry pm) "x" None = None.
Proof. repeat split; vm_compute; reflexivity. Qed.

(** *** The loop of [executeApplicableFeatures] *)

Lemma set_twice {V : Type} (k : string) (v0 v : V) (m : JsMap.t V) :
  JsMap.set k v (JsMap.set k v0 m) = JsMap.set k v m.
Proof.
  induction m as [|[k' v'] m IH]; simpl.
  - by rewrite decide_True.
  - destruct (decide (k' = k)) as [->|Hne]; simpl.
    + by rewrite decide_True.
    + by rewrite decide_False, IH.
Qed.

Lemma recordOutcome_throws f outcome pluginResult raised :
  recordOutcome f outcome pluginResult = Throws raised ->
  exists thrown, outcome = Throws thrown /\ toStringThrown thrown = Throws raised.
Proof.
  destruct outcome as [result|thrown]; simpl.
  - by destruct (negb _).
  - destruct (toStringThrown thrown) as [rendering|raised'] eqn:Hconv; [done|].
    intros [= ->]. by exists thrown.
Qed.

Section Loop.
Context (pm : t) (siteConfig : SiteConfig.t) (url : string).

Local Abbreviation step := (executeStep pm siteConfig url).
Local Abbreviation run := (runFeatures pm siteConfig url).
Local Abbreviation owner := (getFeaturePluginId pm).
Local Abbreviation fresh pluginId := (PluginExecutionResult.mk pluginId true [] []).
Local Abbreviation previous st pluginId :=
  (default (fresh pluginId) (JsMap.get pluginId (pluginResults st))).
Local Abbreviation contextOf st f :=
  (executionContext pm siteConfig url (document st) f).

Lemma runFeatures_cons f features st :
  run (f :: features) st = run features (step st f).
Proof. reflexivity. Qed.

Lemma runFeatures_app features1 features2 st :
  run (features1 ++ features2) st = run features2 (run features1 st).
Proof. apply fold_left_app. Qed.

(** Once something was thrown out of the loop, nothing more happens. *)
Lemma executeStep_left st f raised :
  rejected st = Some raised -> step st f = st.
Proof. intros Hleft. unfold executeStep. by rewrite Hleft. Qed.

Lemma runFeatures_left features st raised :
  rejected st = Some raised -> run features st = st.
Proof.
  intros Hleft. induction features as [|f features IH]; [done|].
  by rewrite runFeatures_cons, (executeStep_left _ _ _ Hleft).
Qed.

Lemma runFeatures_resolved_start features st :
  rejected (run features st) = None -> rejected st = None.
Proof.
  destruct (rejected st) as [raised|] eqn:Hleft; [|done].
  by rewrite (runFeatures_left _ _ _ Hleft), Hleft.
Qed.

(** The two ways a turn of the loop can go: the outcome of the feature is
    recorded, or the [catch] block throws while it converts what it caught to
    a string. *)
Lemma executeStep_cases st f :
  rejected st = None ->
  (exists pluginResult,
     recordOutcome f (fst (Feature.execute f (contextOf st f)))
       (previous st (owner f))
     = Returns pluginResult /\
     step st f
     = mkState (JsMap.set (owner f) pluginResult (pluginResults st))
         (executeCalls st ++ [(f, contextOf st f)])
         (snd (Feature.execute f (contextOf st f))) None) \/
  (exists thrown raised,
     fst (Feature.execute f (contextOf st f)) = Throws thrown /\
     toStringThrown thrown = Throws raised /\
     executeCalls (step st f) = executeCalls st ++ [(f, contextOf st f)] /\
     rejected (step st f) = Some raised).
Proof.
  intros Hopen. unfold executeStep. rewrite Hopen.
  destruct (Feature.execute f (contextOf st f)) as [outcome document1].
  cbn [fst snd].
  assert (match
            JsMap.get (owner f)
              (if negb (JsMap.has (owner f) (pluginResults st))
               then JsMap.set (owner f) (fresh (owner f)) (pluginResults st)
               else pluginResults st)
          with
          | Some pluginResult => pluginResult
          | None => fresh (owner f)
          end = previous st (owner f)) as ->.
  { unfold JsMap.has.
    destruct (JsMap.get (owner f) (pluginResults st)) as [pluginResult|]
      eqn:Hget; simpl.
    - by rewrite Hget.
    - by rewrite JsMapFacts.get_set_eq. }
  destruct (recordOutcome f outcome (previous st (owner f)))
    as [pluginResult|raised] eqn:Hrecord.
  - left. exists pluginResult. split; [done|]. f_equal.
    unfold JsMap.has.
    destruct (JsMap.get (owner f) (pluginResults st)); simpl; [done|].
    apply set_twice.
  - right. apply recordOutcome_throws in Hrecord as (thrown & -> & Hconv).
    by exists thrown, raised.
Qed.

(** A turn after which the loop goes on has recorded the outcome. *)
Lemma executeStep_resolved st f :
  rejected (step st f) = None ->
  rejected st = None /\
  exists pluginResult,
    recordOutcome f (fst (Feature.execute f (contextOf st f)))
      (previous st (owner f))
    = Returns pluginResult /\
    step st f
    = mkState (JsMap.set (owner f) pluginResult (pluginResults st))
        (executeCalls st ++ [(f, contextOf st f)])
        (snd (Feature.execute f (contextOf st f))) None.
Proof.
  intros Hgoes.
  assert (rejected st = None) as Hopen.
  { destruct (rejected st) as [raised|] eqn:Hleft; [|done].
    by rewrite (executeStep_left _ _ _ Hleft), Hleft in Hgoes. }
  split; [done|].
  destruct (executeStep_cases st f Hopen)
    as [Hok|(thrown & raised & _ & _ & _ & Hleft)]; [done|].
  by rewrite Hleft in Hgoes.
Qed.

Lemma runFeatures_resolved_cons f features st :
  rejected (run (f :: features) st) = None -> rejected (step st f) = None.
Proof. rewrite runFeatures_cons. apply runFeatures_resolved_start. Qed.

Lemma executeStep_calls st f :
  rejected st = None ->
  executeCalls (step st f) = executeCalls st ++ [(f, contextOf st f)].
Proof.
  intros Hopen.
  destruct (executeStep_cases st f Hopen)
    as [(pluginResult & _ & ->)|(thrown & raised & _ & _ & Hcalls & _)]; done.
Qed.

(** When the loop is not left, every feature handed to it is executed, in
    order, whatever the earlier ones did. *)
Lemma runFeatures_calls features st :
  rejected (run features st) = None ->
  List.map fst (executeCalls (run features st))
  = List.map fst (executeCalls st) ++ features.
Proof.
  revert st. induction features as [|f features IH]; intros st Hgoes.
  - by rewrite app_nil_r.
  - pose proof (runFeatures_resolved_cons _ _ _ Hgoes) as Hstep.
    destruct (executeStep_resolved _ _ Hstep) as [Hopen _].
    rewrite runFeatures_cons in Hgoes |- *.
    rewrite (IH _ Hgoes), executeStep_calls, map_app, <- app_assoc by done.
    reflexivity.
Qed.

(** Whatever happens, only features handed to the loop are executed. *)
Lemma runFeatures_executed features st call :
  In call (executeCalls (run features st)) ->
  In call (executeCalls st) \/ In (fst call) features.
Proof.
  revert st. induction features as [|f features IH]; intros st Hin; [by left|].
  rewrite runFeatures_cons in Hin. destruct (IH _ Hin) as [Hstep|Hlater].
  - destruct (rejected st) as [raised|] eqn:Hleft.
    + left. by rewrite (executeStep_left _ _ _ Hleft) in Hstep.
    + rewrite executeStep_calls in Hstep by done.
      apply in_app_or in Hstep as [Hbefore|[<-|[]]]; [by left|].
      right. by left.
  - right. by right.
Qed.

(** Every context handed to [execute] carries the settings that
    [getFeatureSettings] finds for the identifier of the feature. *)
Lemma runFeatures_settings features st :
  List.Forall
    (fun call =>
       FeatureExecutionContext.settings (snd call)
       = getFeatureSettings siteConfig (Feature.id (fst call)))
    (executeCalls st) ->
  List.Forall
    (fun call =>
       FeatureExecutionContext.settings (snd call)
       = getFeatureSettings siteConfig (Feature.id (fst call)))
    (executeCalls (run features st)).
Proof.
  revert st. induction features as [|f features IH]; intros st Hst; [done|].
  rewrite runFeatures_cons. apply IH.
  destruct (rejected st) as [raised|] eqn:Hleft.
  - by rewrite (executeStep_left _ _ _ Hleft).
  - rewrite executeStep_calls by done.
    apply List.Forall_app. split; [done|]. by constructor.
Qed.

(** When the loop is left, it is from the [catch] block of the last
    [execute] called. *)
Lemma runFeatures_conversionThrew features st raised :
  rejected st = None ->
  rejected (run features st) = Some raised ->
  conversionThrew (executeCalls (run features st)) raised.
Proof.
  revert st. induction features as [|f features IH]; intros st Hopen Hleft.
  - simpl in Hleft. by rewrite Hopen in Hleft.
  - rewrite runFeatures_cons in Hleft |- *.
    destruct (executeStep_cases st f Hopen)
      as [(pluginResult & _ & Hstep)|(thrown & raised' & Hthrown & Hconv
                                        & Hcalls & Hstep)].
    + apply IH; [by rewrite Hstep|done].
    + rewrite (runFeatures_left _ _ _ Hstep) in Hleft |- *.
      rewrite Hstep in Hleft. injection Hleft as ->.
      exists (executeCalls st), f, (contextOf st f), thrown,
        (snd (Feature.execute f (contextOf st f))).
      split; [done|]. split; [|done].
      rewrite <- Hthrown. by destruct (Feature.execute f (contextOf st f)).
Qed.

End Loop.

Lemma find_first {A : Type} (p : A -> bool) (l : list A) :
  match List.find p l with
  | Some x =>
      exists before after,
        l = before ++ x :: after /\
        List.Forall (fun y => p y = false) before /\ p x = true
  | None => List.Forall (fun y => p y = false) l
  end.
Proof.
  induction l as [|y l IH]; simpl; [constructor|].
  destruct (p y) eqn:Hy.
  - exists [], l. by repeat split.
  - destruct (List.find p l) as [x|].
    + destruct IH as (before & after & -> & Hbefore & Hx).
      exists (y :: before), after. repeat split; [|done]. by constructor.
    + by constructor.
Qed.

(** [getFeatureSettings] looks at the [featureId] of the mappings only. *)
Lemma getFeatureSettings_first (siteConfig : SiteConfig.t) (featureId : string) :
  settingsOfFirstMapping siteConfig featureId
    (getFeatureSettings siteConfig featureId).
Proof.
  unfold settingsOfFirstMapping, getFeatureSettings.
  pose proof (find_first
                (fun m => bool_decide (FeatureMapping.featureId m = featureId))
                (SiteConfig.enabledFeatures siteConfig)) as Hfind.
  destruct (List.find _ _) as [mapping|].
  - left. destruct Hfind as (before & after & Hsplit & Hbefore & Hmapping).
    exists before, mapping, after. split; [done|]. split; [|split; [|done]].
    + eapply List.Forall_impl; [|exact Hbefore].
      intros m Hm. simpl in Hm. by apply bool_decide_eq_false in Hm.
    + by apply bool_decide_eq_true in Hmapping.
  - right. split; [|done].
    eapply List.Forall_impl; [|exact Hfind].
    intros m Hm. simpl in Hm. by apply bool_decide_eq_false in Hm.
Qed.

Lemma executeApplicableFeatures_initialized (pm : t) siteConfig url document0 :
  isInitialized pm = true ->
  executeApplicableFeatures pm siteConfig url document0
  = let st := runFeatures pm siteConfig url
                (FeatureRegistry.getApplicableFeatures (featureRegistry pm)
                   siteConfig url)
                (initialState document0) in
    (match rejected st with
     | Some raised => Throws raised
     | None => Returns (JsMap.values (pluginResults st))
     end,
     executeCalls st, document st).
Proof. intros Hinit. unfold executeApplicableFeatures. by rewrite Hinit. Qed.

(** An initialized manager resolves with the results of the loop, or rejects
    because the [catch] block threw. *)
Lemma executeApplicableFeatures_settles (pm : t) siteConfig url document0 :
  isInitialized pm = true ->
  let st := runFeatures pm siteConfig url
              (FeatureRegistry.getApplicableFeatures (featureRegistry pm)
                 siteConfig url)
              (initialState document0) in
  (rejected st = None /\
   executeApplicableFeatures pm siteConfig url document0
   = (Returns (JsMap.values (pluginResults st)), executeCalls st, document st)) \/
  (exists raised,
     executeApplicableFeatures pm siteConfig url document0
     = (Throws raised, executeCalls st, document st) /\
     conversionThrew (executeCalls st) raised).
Proof.
  intros Hinit st.
  rewrite executeApplicableFeatures_initialized by done. cbv zeta. fold st.
  destruct (rejected st) as [raised|] eqn:Hleft.
  - right. exists raised. split; [done|].
    by apply runFeatures_conversionThrew.
  - by left.
Qed.

(** C10. The settings in the execution context of every feature that
    [executeApplicableFeatures] executes are those [getFeatureSettings] finds
    for the identifier of the feature: the settings of the first mapping of
    [siteConfig.enabledFeatures] with that [featureId], whatever its
    implementation name, enabled flag and priority, and [{}] when that
    mapping has no settings or there is no such mapping.  Two executed
    features with one identifier therefore receive the same settings. *)
Theorem executed_settings_of_first_mapping (pm : t) (siteConfig : SiteConfig.t)
    (url : string) (document0 : Document) (f : Feature.t)
    (context : FeatureExecutionContext.t) :
  In (f, context)
     (snd (fst (executeApplicableFeatures pm siteConfig url document0))) ->
  FeatureExecutionContext.settings context
  = getFeatureSettings siteConfig (Feature.id f) /\
  settingsOfFirstMapping siteConfig (Feature.id f)
    (FeatureExecutionContext.settings context) /\
  (forall g context',
     In (g, context')
        (snd (fst (executeApplicableFeatures pm siteConfig url document0))) ->
     Feature.id g = Feature.id f ->
     FeatureExecutionContext.settings context'
     = FeatureExecutionContext.settings context).
Proof.
  assert (List.Forall
            (fun call =>
               FeatureExecutionContext.settings (snd call)
               = getFeatureSettings siteConfig (Feature.id (fst call)))
            (snd (fst (executeApplicableFeatures pm siteConfig url document0))))
    as Hall.
  { destruct (isInitialized pm) eqn:Hinit.
    - rewrite executeApplicableFeatures_initialized by done. simpl.
      apply runFeatures_settings. constructor.
    - rewrite executeApplicableFeatures_uninitialized by done. constructor. }
  rewrite List.Forall_forall in Hall.
  intros Hin. pose proof (Hall _ Hin) as Hf. simpl in Hf.
  split; [exact Hf|]. split.
  - rewrite Hf. apply getFeatureSettings_first.
  - intros g context' Hg Hid. pose proof (Hall _ Hg) as Hg'. simpl in Hg'.
    by rewrite Hg', Hf, Hid.
Qed.

Lemma executed_settings_of_first_mapping_witness :
  let context :=
    FeatureExecutionContext.mk Sample.sameIdTwice Sample.settingsA
      ["X by a"] Sample.storage Sample.url in
  FeatureExecutionContext.settings context
  = getFeatureSettings Sample.sameIdTwice "x" /\
  settingsOfFirstMapping Sample.sameIdTwice "x" Sample.settingsA /\
  (forall g context',
     In (g, context')
        (snd (fst (executeApplicableFeatures Sample.readyAB Sample.sameIdTwice
                     Sample.url []))) ->
     Feature.id g = "x" ->
     FeatureExecutionContext.settings context' = Sample.settingsA).
Proof.
  apply (executed_settings_of_first_mapping Sample.readyAB Sample.sameIdTwice
           Sample.url [] Sample.fxb
           (FeatureExecutionContext.mk Sample.sameIdTwice Sample.settingsA
              ["X by a"] Sample.storage Sample.url)).
  vm_compute. right. left. reflexivity.
Defined.

(** *** A feature that throws *)

Lemma recordOutcome_pluginId f outcome pluginResult recorded :
  recordOutcome f outcome pluginResult = Returns recorded ->
  PluginExecutionResult.pluginId recorded
  = PluginExecutionResult.pluginId pluginResult.
Proof.
  destruct outcome as [result|thrown]; simpl.
  - destruct (negb _); by intros [= <-].
  - destruct (toStringThrown thrown); [by intros [= <-]|done].
Qed.

(** A plugin result that has failed stays failed. *)
Lemma recordOutcome_failed f outcome pluginResult recorded :
  recordOutcome f outcome pluginResult = Returns recorded ->
  PluginExecutionResult.success pluginResult = false ->
  PluginExecutionResult.success recorded = false.
Proof.
  intros Hrecord Hfailed. destruct outcome as [result|thrown]; simpl in Hrecord.
  - destruct (negb _); by injection Hrecord as <-.
  - destruct (toStringThrown thrown); [by injection Hrecord as <-|done].
Qed.

Lemma recordOutcome_executed f outcome pluginResult recorded :
  recordOutcome f outcome pluginResult = Returns recorded ->
  exists record,
    PluginExecutionResult.executedFeatures recorded
    = PluginExecutionResult.executedFeatures pluginResult ++ [record] /\
    ExecutedFeature.featureId record = Feature.id f /\
    ExecutedFeature.implementation record = getFeatureImplementationName f.
Proof.
  destruct outcome as [result|thrown]; simpl.
  - destruct (negb _); intros [= <-]; by eexists.
  - destruct (toStringThrown thrown); [|done]. intros [= <-]. by eexists.
Qed.

Lemma recordOutcome_errors f outcome pluginResult recorded :
  recordOutcome f outcome pluginResult = Returns recorded ->
  exists more,
    PluginExecutionResult.errors recorded
    = PluginExecutionResult.errors pluginResult ++ more.
Proof.
  destruct outcome as [result|thrown]; simpl.
  - destruct (negb _); intros [= <-]; simpl; [by eexists|].
    exists []. by rewrite app_nil_r.
  - destruct (toStringThrown thrown); [|done]. intros [= <-]. by eexists.
Qed.

(** What the [catch] block records when the conversion succeeds. *)
Lemma recordOutcome_thrown f thrown pluginResult recorded :
  recordOutcome f (Throws thrown) pluginResult = Returns recorded ->
  exists rendering,
    toStringThrown thrown = Returns rendering /\
    recorded
    = PluginExecutionResult.mk
        (PluginExecutionResult.pluginId pluginResult) false
        (PluginExecutionResult.executedFeatures pluginResult ++
         [ExecutedFeature.mk (Feature.id f) (getFeatureImplementationName f)
            (FeatureExecutionResult.mk false
               (Some ("Feature execution failed: " ++ rendering)%string) None)])
        (PluginExecutionResult.errors pluginResult
         ++ [("Feature execution failed: " ++ rendering)%string]).
Proof.
  simpl. destruct (toStringThrown thrown) as [rendering|]; [|done].
  intros [= <-]. by exists rendering.
Qed.

Section Failure.
Context (pm : t) (siteConfig : SiteConfig.t) (url : string).

Local Abbreviation step := (executeStep pm siteConfig url).
Local Abbreviation run := (runFeatures pm siteConfig url).
Local Abbreviation owner := (getFeaturePluginId pm).
Local Abbreviation fresh pluginId := (PluginExecutionResult.mk pluginId true [] []).
Local Abbreviation previous st pluginId :=
  (default (fresh pluginId) (JsMap.get pluginId (pluginResults st))).
Local Abbreviation contextOf st f :=
  (executionContext pm siteConfig url (document st) f).

Lemma executeStep_owner st f :
  rejected (step st f) = None ->
  exists recorded,
    recordOutcome f (fst (Feature.execute f (contextOf st f)))
      (previous st (owner f))
    = Returns recorded /\
    JsMap.get (owner f) (pluginResults (step st f)) = Some recorded.
Proof.
  intros Hgoes.
  destruct (executeStep_resolved pm siteConfig url st f Hgoes)
    as (_ & recorded & Hrecord & ->).
  exists recorded. split; [done|]. apply JsMapFacts.get_set_eq.
Qed.

Lemma executeStep_other st f pluginId :
  rejected (step st f) = None ->
  pluginId <> owner f ->
  JsMap.get pluginId (pluginResults (step st f))
  = JsMap.get pluginId (pluginResults st).
Proof.
  intros Hgoes Hne.
  destruct (executeStep_resolved pm siteConfig url st f Hgoes)
    as (_ & recorded & _ & ->).
  by apply JsMapFacts.get_set_ne.
Qed.

(** Each result is filed under the plugin it names. *)
Lemma runFeatures_pluginId features st :
  rejected (run features st) = None ->
  (forall pluginId pluginResult,
     JsMap.get pluginId (pluginResults st) = Some pluginResult ->
     PluginExecutionResult.pluginId pluginResult = pluginId) ->
  forall pluginId pluginResult,
    JsMap.get pluginId (pluginResults (run features st)) = Some pluginResult ->
    PluginExecutionResult.pluginId pluginResult = pluginId.
Proof.
  revert st. induction features as [|f features IH]; intros st Hgoes Hst;
    [done|].
  pose proof (runFeatures_resolved_cons _ _ _ _ _ _ Hgoes) as Hstep.
  rewrite runFeatures_cons in Hgoes |- *. apply (IH _ Hgoes). clear IH.
  intros pluginId pluginResult Hget.
  destruct (decide (pluginId = owner f)) as [->|Hne].
  - destruct (executeStep_owner st f Hstep) as (recorded & Hrecord & Hfiled).
    rewrite Hfiled in Hget. injection Hget as <-.
    rewrite (recordOutcome_pluginId _ _ _ _ Hrecord).
    destruct (JsMap.get (owner f) (pluginResults st)) eqn:Hprev; simpl; [|done].
    by apply Hst.
  - rewrite executeStep_other in Hget by done. by apply Hst.
Qed.

(** Once the result of a plugin is a failure it remains one to the end of
    the loop, and what it records is only added to. *)
Lemma runFeatures_keeps_failure features st pluginId pluginResult :
  rejected (run features st) = None ->
  JsMap.get pluginId (pluginResults st) = Some pluginResult ->
  PluginExecutionResult.success pluginResult = false ->
  exists final,
    JsMap.get pluginId (pluginResults (run features st)) = Some final /\
    PluginExecutionResult.success final = false /\
    (exists more,
       PluginExecutionResult.executedFeatures final
       = PluginExecutionResult.executedFeatures pluginResult ++ more) /\
    (exists more,
       PluginExecutionResult.errors final
       = PluginExecutionResult.errors pluginResult ++ more).
Proof.
  revert st pluginResult.
  induction features as [|f features IH];
    intros st pluginResult Hgoes Hget Hfailed.
  - exists pluginResult. split; [done|]. split; [done|].
    split; exists []; by rewrite app_nil_r.
  - pose proof (runFeatures_resolved_cons _ _ _ _ _ _ Hgoes) as Hstep.
    rewrite runFeatures_cons in Hgoes |- *.
    destruct (decide (pluginId = owner f)) as [->|Hne].
    + destruct (executeStep_owner st f Hstep) as (recorded & Hrecord & Hfiled).
      rewrite Hget in Hrecord. simpl in Hrecord.
      destruct (IH _ _ Hgoes Hfiled (recordOutcome_failed _ _ _ _ Hrecord Hfailed))
        as (final & Hfinal & Hfail & [more1 Hexec] & [more2 Herr]).
      exists final. split; [done|]. split; [done|].
      destruct (recordOutcome_executed _ _ _ _ Hrecord) as (record & Hadded & _).
      destruct (recordOutcome_errors _ _ _ _ Hrecord) as [added Herrors].
      split.
      * exists ([record] ++ more1). by rewrite Hexec, Hadded, <- app_assoc.
      * exists (added ++ more2). by rewrite Herr, Herrors, <- app_assoc.
    + apply IH; [done| |done]. by rewrite executeStep_other.
Qed.

(** The result of a plugin records one entry for each of its features that
    the loop has gone through. *)
Lemma runFeatures_recordedCount features st pluginId :
  rejected (run features st) = None ->
  recordedCount (run features st) pluginId
  = (recordedCount st pluginId + ownedCount pm pluginId features)%nat.
Proof.
  revert st. induction features as [|f features IH]; intros st Hgoes.
  - unfold ownedCount. simpl. lia.
  - pose proof (runFeatures_resolved_cons _ _ _ _ _ _ Hgoes) as Hstep.
    rewrite runFeatures_cons in Hgoes |- *.
    rewrite (IH _ Hgoes). unfold ownedCount. simpl.
    case_bool_decide as Howner; simpl.
    + subst pluginId. unfold recordedCount at 1.
      destruct (executeStep_owner st f Hstep) as (recorded & Hrecord & ->).
      destruct (recordOutcome_executed _ _ _ _ Hrecord) as (record & -> & _).
      rewrite length_app. unfold recordedCount.
      destruct (JsMap.get (owner f) (pluginResults st)); simpl; lia.
    + unfold recordedCount at 1. rewrite executeStep_other by done.
      fold (recordedCount st pluginId). lia.
Qed.

End Failure.

(** C3 (the code departs from the claim).  Two plugins have been loaded
    with [loadPlugin] into a manager that is initialized; the second brings
    the implementation "b" of "x",
    which the registry records as registered by "pluginB" and whose
    [execute] throws; the first brings the implementation "a".  The site
    enables "x" with the implementation "b".  The failure is recorded, with
    the error of the thrown [Error], but under "pluginA": the aggregate with
    [success = false] names a plugin that does not have the feature, and
    there is no result at all for the plugin that does. *)
Theorem throwing_feature_filed_under_other_plugin :
  let pm := Sample.readyWithThrowingB in
  let context :=
    FeatureExecutionContext.mk Sample.onlyXb [] [] Sample.storage Sample.url in
  let message := "Feature execution failed: Error: boom" in
  isInitialized pm = true /\
  JsMap.keys (plugins pm) = ["pluginA"; "pluginB"] /\
  JsMap.get "pluginB" (plugins pm) = Some Sample.throwingB /\
  In Sample.boomXb (Plugin.features Sample.throwingB) /\
  JsMap.get "pluginA" (plugins pm) = Some Sample.goodA /\
  ~ In Sample.boomXb (Plugin.features Sample.goodA) /\
  MoreSpec.entryAt (featureRegistry pm) "x" "b"
  = Some (FeatureRegistryEntry.mk Sample.boomXb 2%Z (Some "pluginB")) /\
  Feature.execute Sample.boomXb context = (Throws (newError "boom"), []) /\
  executeApplicableFeatures pm Sample.onlyXb Sample.url []
  = (Returns
       [PluginExecutionResult.mk "pluginA" false
          [ExecutedFeature.mk "x" "b"
             (FeatureExecutionResult.mk false (Some message) None)]
          [message]],
     [(Sample.boomXb, context)], []).
Proof.
  cbv zeta.
  split; [reflexivity|]. split; [reflexivity|]. split; [reflexivity|].
  split; [by left|]. split; [reflexivity|]. split.
  { intros [Hsame|[]]. apply (f_equal Feature.name) in Hsame.
    discriminate Hsame. }
  split; [vm_compute; reflexivity|]. split; [reflexivity|].
  vm_compute. reflexivity.
Qed.

End PluginManagerFacts.

(** * Further properties *)

(** ** Tables, continued *)

Module JsMapMore.
Section Facts.
Context {V : Type}.
Implicit Types (m : JsMap.t V) (k : string) (v : V).

Lemma set_same k v m : JsMap.get k m = Some v -> JsMap.set k v m = m.
Proof.
  induction m as [|[k0 v0] m IH]; simpl; [done|].
  destruct (decide (k0 = k)) as [->|Hne]; intros H.
  - by injection H as ->.
  - by rewrite IH.
Qed.

Lemma set_set k v v' m : JsMap.set k v (JsMap.set k v' m) = JsMap.set k v m.
Proof.
  induction m as [|[k0 v0] m IH]; simpl.
  - by destruct (decide (k = k)).
  - destruct (decide (k0 = k)) as [->|Hne]; simpl.
    + by destruct (decide (k = k)).
    + destruct (decide (k0 = k)); [done|]. by rewrite IH.
Qed.

Lemma set_absent k v m : JsMap.get k m = None -> JsMap.set k v m = m ++ [(k, v)].
Proof.
  induction m as [|[k0 v0] m IH]; simpl; [done|].
  destruct (decide (k0 = k)); [done|]. intros H. by rewrite IH.
Qed.

Lemma set_nonempty k v m : JsMap.set k v m <> [].
Proof. destruct m as [|[k0 v0] m]; simpl; [done|]. by destruct (decide _). Qed.

Lemma delete_absent k m : JsMap.get k m = None -> JsMap.delete k m = m.
Proof.
  unfold JsMap.delete. induction m as [|[k0 v0] m IH]; simpl; [done|].
  destruct (decide (k0 = k)) as [->|Hne]; [done|]. intros H.
  rewrite bool_decide_false by done. simpl. by rewrite IH.
Qed.

Lemma delete_app k m1 m2 :
  JsMap.delete k (m1 ++ m2) = JsMap.delete k m1 ++ JsMap.delete k m2.
Proof. unfold JsMap.delete. apply List.filter_app. Qed.

Lemma delete_set_absent k v m :
  JsMap.get k m = None -> JsMap.delete k (JsMap.set k v m) = m.
Proof.
  intros H. rewrite set_absent, delete_app, delete_absent by done.
  unfold JsMap.delete. simpl. rewrite bool_decide_true by done. simpl.
  apply app_nil_r.
Qed.

Lemma Forall_set (P : string * V -> Prop) k v m :
  List.Forall P m -> P (k, v) -> List.Forall P (JsMap.set k v m).
Proof.
  intros Hm Hkv. induction Hm as [|[k0 v0] m H0 Hm IH]; simpl.
  - by constructor.
  - destruct (decide (k0 = k)); by constructor.
Qed.

Lemma Forall_delete (P : string * V -> Prop) k m :
  List.Forall P m -> List.Forall P (JsMap.delete k m).
Proof.
  intros Hm. apply List.Forall_forall. intros kv Hin.
  apply filter_In in Hin as [Hin _].
  rewrite List.Forall_forall in Hm. by apply Hm.
Qed.

Lemma get_Forall (P : string * V -> Prop) k v m :
  JsMap.get k m = Some v -> List.Forall P m -> P (k, v).
Proof.
  intros Hget Hm. rewrite List.Forall_forall in Hm.
  by apply Hm, JsMapFacts.get_In.
Qed.

(** With distinct keys every binding is the one [get] finds. *)
Lemma In_get k v m :
  List.NoDup (JsMap.keys m) -> In (k, v) m -> JsMap.get k m = Some v.
Proof.
  unfold JsMap.keys. induction m as [|[k0 v0] m IH]; simpl; [done|].
  intros Hnodup [Heq|Hin].
  - injection Heq as -> ->. by destruct (decide (k = k)).
  - apply List.NoDup_cons_iff in Hnodup as [Hk0 Hnodup].
    destruct (decide (k0 = k)) as [->|Hne]; [|by apply IH].
    exfalso. apply Hk0. apply in_map_iff. by exists (k, v).
Qed.

Lemma filter_unique_keys (q : string * V -> bool) m :
  List.NoDup (JsMap.keys m) -> List.NoDup (JsMap.keys (List.filter q m)).
Proof.
  unfold JsMap.keys. induction m as [|[k0 v0] m IH]; simpl; intros Hm;
    [constructor|].
  apply List.NoDup_cons_iff in Hm as [Hk0 Hm].
  destruct (q (k0, v0)); simpl; [|by apply IH].
  constructor; [|by apply IH].
  intros Hin. apply Hk0. apply in_map_iff in Hin as ([k1 v1] & Hk1 & Hin).
  apply filter_In in Hin as [Hin _]. apply in_map_iff. by exists (k1, v1).
Qed.

(** Looking up in a filtered table with distinct keys. *)
Lemma get_filter (q : string * V -> bool) k m :
  List.NoDup (JsMap.keys m) ->
  JsMap.get k (List.filter q m)
  = match JsMap.get k m with
    | Some v => if q (k, v) then Some v else None
    | None => None
    end.
Proof.
  unfold JsMap.keys. induction m as [|[k0 v0] m IH]; simpl; [done|].
  intros Hm. apply List.NoDup_cons_iff in Hm as [Hk0 Hm].
  destruct (decide (k0 = k)) as [->|Hne].
  - destruct (q (k, v0)) eqn:Hq; simpl.
    + by destruct (decide (k = k)).
    + rewrite IH by done.
      destruct (JsMap.get k m) as [v|] eqn:Hget; [|done].
      exfalso. apply Hk0. apply JsMapFacts.get_In in Hget.
      apply in_map_iff. by exists (k, v).
  - destruct (q (k0, v0)); simpl.
    + destruct (decide (k0 = k)); [done|]. by apply IH.
    + by apply IH.
Qed.

Lemma size_delete_present k v m :
  JsMap.get k m = Some v -> (JsMap.size (JsMap.delete k m) < JsMap.size m)%nat.
Proof.
  unfold JsMap.size, JsMap.delete.
  induction m as [|[k0 v0] m IH]; simpl; [done|].
  destruct (decide (k0 = k)) as [->|Hne]; intros H.
  - rewrite bool_decide_true by done. simpl.
    pose proof (List.filter_length_le
                  (fun kv : string * V => negb (bool_decide (fst kv = k))) m).
    lia.
  - rewrite bool_decide_false by done. simpl. specialize (IH H). lia.
Qed.

End Facts.
End JsMapMore.

(** ** The registry, continued *)

Module RegistryMore.
Import FeatureRegistry RegistrySpec MoreSpec.

Lemma registerFeature_absent (r : t) f pluginId isDefault now :
  JsMap.get (Feature.id f) (features r) = None ->
  features (registerFeature f pluginId isDefault now r)
  = JsMap.set (Feature.id f)
      [(getImplementationName f, FeatureRegistryEntry.mk f now pluginId)]
      (features r).
Proof.
  intros Hnone. unfold registerFeature, JsMap.has. simpl.
  rewrite Hnone. simpl. rewrite JsMapFacts.get_set_eq. simpl.
  apply JsMapMore.set_set.
Qed.

Lemma registerFeature_lookup (r : t) (f : Feature.t)
    (pluginId : option string) (isDefault : bool) (now : Z)
    (featureId implName : string) :
  entryAt (registerFeature f pluginId isDefault now r) featureId implName
  = if decide (featureId = Feature.id f /\ implName = getImplementationName f)
    then Some (FeatureRegistryEntry.mk f now pluginId)
    else entryAt r featureId implName.
Proof.
  unfold entryAt.
  destruct (decide (featureId = Feature.id f)) as [->|Hid].
  - rewrite FeatureRegistryFacts.registerFeature_same.
    destruct (decide (implName = getImplementationName f)) as [->|Hname].
    + rewrite decide_True by done. apply JsMapFacts.get_set_eq.
    + rewrite decide_False by tauto.
      rewrite JsMapFacts.get_set_ne by done.
      by destruct (JsMap.get (Feature.id f) (features r)).
  - rewrite decide_False by tauto.
    by rewrite FeatureRegistryFacts.registerFeature_other.
Qed.

(** X1. [registerFeature] writes one entry and nothing else into the tables:
    afterwards the pair (feature.id, implementation name) holds the new
    entry, with the feature, the time and the plugin given, every other
    pair of a feature identifier and an implementation name holds what it
    held, and the aliases are as before. *)
Theorem registerFeature_entryAt (r : t) (f : Feature.t)
    (pluginId : option string) (isDefault : bool) (now : Z)
    (featureId implName : string) :
  entryAt (registerFeature f pluginId isDefault now r) featureId implName
  = (if decide (featureId = Feature.id f /\ implName = getImplementationName f)
     then Some (FeatureRegistryEntry.mk f now pluginId)
     else entryAt r featureId implName) /\
  aliases (registerFeature f pluginId isDefault now r) = aliases r.
Proof. split; [apply registerFeature_lookup|reflexivity]. Qed.

(** *** The shape of the tables *)

Lemma new_wellFormed : wellFormed new.
Proof. split; constructor. Qed.

Lemma wellFormed_table (r : t) featureId impls :
  wellFormed r ->
  JsMap.get featureId (features r) = Some impls ->
  tableOk impls.
Proof.
  intros [_ Htables] Hget.
  apply (JsMapMore.get_Forall (fun binding => tableOk (snd binding))
           featureId impls (features r) Hget Htables).
Qed.

Lemma registerFeature_wellFormed (r : t) f pluginId isDefault now :
  wellFormed r -> wellFormed (registerFeature f pluginId isDefault now r).
Proof.
  intros Hwf. pose proof Hwf as [Hkeys Htables].
  destruct (JsMap.get (Feature.id f) (features r)) as [impls|] eqn:Hget.
  - destruct (wellFormed_table _ _ _ Hwf Hget) as [Hnodup _].
    split; rewrite (FeatureRegistryFacts.registerFeature_present _ _ _ _ _ _ Hget).
    + by apply JsMapFacts.set_unique_keys.
    + apply JsMapMore.Forall_set; [done|]. split.
      * by apply JsMapFacts.set_unique_keys.
      * apply JsMapMore.set_nonempty.
  - split; rewrite (registerFeature_absent _ _ _ _ _ Hget).
    + by apply JsMapFacts.set_unique_keys.
    + apply JsMapMore.Forall_set; [done|]. split; [|done].
      repeat constructor. by intros [].
Qed.

(** *** Unregistering by plugin *)

Lemma filter_filter_and {A : Type} (p q : A -> bool) (l : list A) :
  List.filter p (List.filter q l) = List.filter (fun a => q a && p a) l.
Proof.
  induction l as [|a l IH]; simpl; [done|].
  destruct (q a); simpl; [|exact IH]. destruct (p a); by rewrite IH.
Qed.

Lemma filter_all {A : Type} (p : A -> bool) (l : list A) :
  (forall a, In a l -> p a = true) -> List.filter p l = l.
Proof.
  induction l as [|a l IH]; simpl; intros H; [done|].
  rewrite (H a) by auto. rewrite IH; [done|]. intros b Hb. apply H. by right.
Qed.

Lemma filter_length_lt {A : Type} (p : A -> bool) (l : list A) :
  existsb (fun a => negb (p a)) l = true ->
  (length (List.filter p l) < length l)%nat.
Proof.
  induction l as [|a l IH]; simpl; [done|].
  pose proof (List.filter_length_le p l).
  destruct (p a); simpl; intros H'; [specialize (IH H')|]; lia.
Qed.

(** The loop deletes the keys of the entries of the plugin, whatever the
    table it deletes them from. *)
Lemma removePlugin_fold (pluginId : string)
    (l remaining : JsMap.t FeatureRegistryEntry.t) (removed : bool) :
  fold_left
    (fun '(remaining, removed) '(implName, entry) =>
       if strictEq (FeatureRegistryEntry.pluginId entry) pluginId
       then (JsMap.delete implName remaining, true)
       else (remaining, removed))
    l (remaining, removed)
  = (List.filter
       (fun kv =>
          negb (existsb
                  (fun kv' => ownedBy pluginId (snd kv')
                              && bool_decide (fst kv' = fst kv)) l))
       remaining,
     removed || existsb (fun kv => ownedBy pluginId (snd kv)) l).
Proof.
  revert remaining removed.
  induction l as [|[k e] l IH]; intros remaining removed; simpl.
  - rewrite orb_false_r. f_equal. symmetry. by apply filter_all.
  - change (strictEq (FeatureRegistryEntry.pluginId e) pluginId)
      with (ownedBy pluginId e).
    destruct (ownedBy pluginId e); simpl.
    + rewrite IH, orb_true_r. simpl. f_equal. unfold JsMap.delete.
      rewrite filter_filter_and. apply filter_ext. intros [k' e']. simpl.
      rewrite negb_orb. f_equal. f_equal. apply bool_decide_ext.
      split; congruence.
    + by rewrite IH.
Qed.

(** In a table with distinct keys, the loop removes the entries of the plugin
    and no other, and reports whether there was one. *)
Lemma removePluginImplementations_filter (pluginId : string)
    (impls : JsMap.t FeatureRegistryEntry.t) :
  List.NoDup (JsMap.keys impls) ->
  removePluginImplementations pluginId impls
  = (List.filter (fun kv => negb (ownedBy pluginId (snd kv))) impls,
     existsb (fun kv => ownedBy pluginId (snd kv)) impls).
Proof.
  intros Hnodup. unfold removePluginImplementations, JsMap.entries.
  rewrite removePlugin_fold. simpl. f_equal.
  apply filter_ext_in. intros [k e] Hin. simpl. f_equal.
  destruct (ownedBy pluginId e) eqn:Howned.
  - apply existsb_exists. exists (k, e). simpl.
    by rewrite Howned, bool_decide_true.
  - apply not_true_is_false. intros Hex.
    apply existsb_exists in Hex as ([k' e'] & Hin' & Hboth). simpl in Hboth.
    apply andb_prop in Hboth as [Howned' Hk].
    apply bool_decide_eq_true in Hk. subst k'.
    pose proof (JsMapMore.In_get _ _ _ Hnodup Hin) as Hget.
    pose proof (JsMapMore.In_get _ _ _ Hnodup Hin') as Hget'.
    congruence.
Qed.

Lemma unregisterFeature_wellFormed (r : t) featureId implementationName pluginId :
  wellFormed r ->
  wellFormed (snd (unregisterFeature featureId implementationName pluginId r)).
Proof.
  intros Hwf. pose proof Hwf as [Hkeys Htables]. unfold unregisterFeature.
  destruct (JsMap.get featureId (features r)) as [impls|] eqn:Himpls; [|done].
  destruct (wellFormed_table _ _ _ Hwf Himpls) as [Hnodup Hnonempty].
  destruct (truthy implementationName) as [implName|].
  - destruct (JsMap.get implName impls) as [entry|]; [|done].
    destruct (match truthy pluginId with Some _ => _ | None => _ end); [done|].
    simpl. destruct (JsMap.size (JsMap.delete implName impls) =? 0)%nat eqn:Hsize.
    + split; simpl.
      * by apply JsMapFacts.delete_unique_keys.
      * by apply JsMapMore.Forall_delete.
    + split; simpl.
      * by apply JsMapFacts.set_unique_keys.
      * apply JsMapMore.Forall_set; [done|]. split.
        -- by apply JsMapFacts.delete_unique_keys.
        -- intros Hempty. simpl in Hempty. by rewrite Hempty in Hsize.
  - destruct (truthy pluginId) as [plugin|].
    + rewrite removePluginImplementations_filter by done.
      destruct (JsMap.size _ =? 0)%nat eqn:Hsize.
      * split; simpl.
        -- by apply JsMapFacts.delete_unique_keys.
        -- by apply JsMapMore.Forall_delete.
      * split; simpl.
        -- by apply JsMapFacts.set_unique_keys.
        -- apply JsMapMore.Forall_set; [done|]. split.
           ++ by apply JsMapMore.filter_unique_keys.
           ++ intros Hempty. simpl in Hempty. by rewrite Hempty in Hsize.
    + split; simpl.
      * by apply JsMapFacts.delete_unique_keys.
      * by apply JsMapMore.Forall_delete.
Qed.

(** Every registry reached from a new one by calls of [registerFeature] and
    [unregisterFeature] has tables of the shape described. *)
Lemma applyCalls_wellFormed (calls : list Call) (r : t) :
  wellFormed r -> wellFormed (applyCalls calls r).
Proof.
  revert r. induction calls as [|c calls IH]; intros r Hwf; [done|].
  apply IH. destruct c; simpl.
  - by apply registerFeature_wellFormed.
  - by apply unregisterFeature_wellFormed.
Qed.

(** *** Counting implementations *)

Lemma total_set featureId (old new : JsMap.t FeatureRegistryEntry.t)
    (tables : JsMap.t (JsMap.t FeatureRegistryEntry.t)) :
  JsMap.get featureId tables = Some old ->
  (list_sum (List.map JsMap.size (JsMap.values (JsMap.set featureId new tables)))
   + JsMap.size old
   = list_sum (List.map JsMap.size (JsMap.values tables)) + JsMap.size new)%nat.
Proof.
  unfold JsMap.values. induction tables as [|[k v] tables IH]; simpl; [done|].
  destruct (decide (k = featureId)) as [->|Hne]; simpl; intros Hget.
  - injection Hget as ->. lia.
  - specialize (IH Hget). lia.
Qed.

Lemma total_delete featureId (old : JsMap.t FeatureRegistryEntry.t)
    (tables : JsMap.t (JsMap.t FeatureRegistryEntry.t)) :
  JsMap.get featureId tables = Some old ->
  (list_sum (List.map JsMap.size (JsMap.values (JsMap.delete featureId tables)))
   + JsMap.size old
   <= list_sum (List.map JsMap.size (JsMap.values tables)))%nat.
Proof.
  unfold JsMap.values, JsMap.delete.
  assert (forall l : JsMap.t (JsMap.t FeatureRegistryEntry.t),
            (list_sum (List.map JsMap.size
                         (List.map snd
                            (List.filter
                               (fun kv => negb (bool_decide (fst kv = featureId)))
                               l)))
             <= list_sum (List.map JsMap.size (List.map snd l)))%nat) as Hle.
  { induction l as [|[k v] l IH]; simpl; [done|].
    destruct (bool_decide (k = featureId)); simpl; lia. }
  induction tables as [|[k v] tables IH]; simpl; [done|].
  destruct (decide (k = featureId)) as [->|Hne]; simpl; intros Hget.
  - injection Hget as ->. rewrite bool_decide_true by done. simpl.
    specialize (Hle tables). lia.
  - rewrite bool_decide_false by done. simpl. specialize (IH Hget). lia.
Qed.

Lemma total_ge_size (tables : JsMap.t (JsMap.t FeatureRegistryEntry.t)) :
  List.Forall (fun binding => tableOk (snd binding)) tables ->
  (JsMap.size tables
   <= list_sum (List.map JsMap.size (JsMap.values tables)))%nat.
Proof.
  unfold JsMap.size, JsMap.values.
  induction 1 as [|[k v] tables [_ Hv] _ IH]; simpl in *; [done|].
  destruct v; [done|]. simpl. lia.
Qed.

(** X2. After every sequence of [registerFeature] and [unregisterFeature]
    calls on a new registry, a feature identifier that is present has a
    table of implementations that is not empty (the identifier goes when its
    last implementation goes), and so [getStats().totalFeatures] does not
    exceed [getStats().totalImplementations]. *)
Theorem reachable_tables_nonempty (calls : list Call) :
  let r := applyCalls calls new in
  (forall featureId impls,
     JsMap.get featureId (features r) = Some impls -> impls <> []) /\
  (totalFeatures (getStats r) <= totalImplementations (getStats r))%nat.
Proof.
  intros r.
  assert (wellFormed r) as Hwf
    by apply applyCalls_wellFormed, new_wellFormed.
  split.
  - intros featureId impls Hget.
    by destruct (wellFormed_table _ _ _ Hwf Hget).
  - rewrite FeatureRegistryFacts.getStats_totalImplementations,
      FeatureRegistryFacts.getStats_totalFeatures.
    apply total_ge_size. by destruct Hwf.
Qed.

(** X3. The answer of [unregisterFeature] tells whether something was
    removed, provided the table of the identifier, if there is one, has
    distinct keys and is not empty: when it answers [false] the registry is
    exactly as it was, and when it answers [true] the registry holds fewer
    implementations than before. *)
Theorem unregisterFeature_answer (r : t) (featureId : string)
    (implementationName pluginId : option string) :
  (forall impls,
     JsMap.get featureId (features r) = Some impls -> tableOk impls) ->
  (fst (unregisterFeature featureId implementationName pluginId r) = false ->
   snd (unregisterFeature featureId implementationName pluginId r) = r) /\
  (fst (unregisterFeature featureId implementationName pluginId r) = true ->
   (totalImplementations
      (getStats (snd (unregisterFeature featureId implementationName pluginId r)))
    < totalImplementations (getStats r))%nat).
Proof.
  intros Htable. rewrite !FeatureRegistryFacts.getStats_totalImplementations.
  unfold unregisterFeature.
  destruct (JsMap.get featureId (features r)) as [impls|] eqn:Himpls;
    [|by split].
  destruct (Htable impls eq_refl) as [Hnodup Hnonempty].
  assert (1 <= JsMap.size impls)%nat as Hsize1.
  { destruct impls; [done|]. unfold JsMap.size. simpl. lia. }
  pose proof (total_delete featureId impls (features r) Himpls) as Hdelete.
  destruct (truthy implementationName) as [implName|].
  - destruct (JsMap.get implName impls) as [entry|] eqn:Hentry; [|by split].
    destruct (match truthy pluginId with Some _ => _ | None => _ end);
      [by split|].
    split; [done|]. intros _. simpl.
    pose proof (JsMapMore.size_delete_present _ _ _ Hentry) as Hless.
    destruct (JsMap.size (JsMap.delete implName impls) =? 0)%nat; simpl.
    + lia.
    + pose proof (total_set featureId impls (JsMap.delete implName impls)
                    (features r) Himpls). lia.
  - destruct (truthy pluginId) as [plugin|].
    + rewrite removePluginImplementations_filter by done.
      set (kept := List.filter _ impls).
      destruct (existsb (fun kv => ownedBy plugin (snd kv)) impls) eqn:Hany.
      * assert (JsMap.size kept < JsMap.size impls)%nat as Hless.
        { apply filter_length_lt. rewrite <- Hany. clear.
          induction impls as [|kv impls IH]; simpl; [done|].
          by rewrite negb_involutive, IH. }
        destruct (JsMap.size kept =? 0)%nat; simpl; split; try done; intros _.
        -- lia.
        -- pose proof (total_set featureId impls kept (features r) Himpls).
           lia.
      * assert (kept = impls) as ->.
        { apply filter_all. intros kv Hin. apply negb_true_iff.
          apply not_true_is_false. intros Howned.
          apply not_true_iff_false in Hany. apply Hany.
          apply existsb_exists. by exists kv. }
        destruct (JsMap.size impls =? 0)%nat eqn:Hzero.
        { apply JsMapFacts.size_zero in Hzero. done. }
        simpl. split; [|done]. intros _.
        rewrite JsMapMore.set_same by done. by destruct r.
    + simpl. split; [done|]. intros _. lia.
Qed.

Lemma unregisterFeature_answer_witness :
  (fst (unregisterFeature "x" (Some "a") (Some "pluginB") Sample.twoPlugins)
   = false ->
   snd (unregisterFeature "x" (Some "a") (Some "pluginB") Sample.twoPlugins)
   = Sample.twoPlugins) /\
  (fst (unregisterFeature "x" (Some "a") (Some "pluginB") Sample.twoPlugins)
   = true ->
   (totalImplementations
      (getStats
         (snd (unregisterFeature "x" (Some "a") (Some "pluginB")
                 Sample.twoPlugins)))
    < totalImplementations (getStats Sample.twoPlugins))%nat).
Proof.
  apply (unregisterFeature_answer Sample.twoPlugins "x" (Some "a")
           (Some "pluginB")).
  intros impls Himpls. vm_compute in Himpls. injection Himpls as <-.
  split; [|discriminate].
  repeat constructor; simpl; intuition discriminate.
Defined.

(** *** Unregistering one implementation *)

(** X4. [unregisterFeature(featureId, implementationName, pluginId)] with a
    non-empty implementation name removes something exactly when that
    implementation is registered and, if a plugin is named, was registered
    by that plugin.  Otherwise it answers [false] and the registry is
    untouched: an implementation of another plugin cannot be removed. *)
Theorem unregisterFeature_named_answer (r : t) (featureId implName : string)
    (pluginId : option string) :
  implName <> "" ->
  (fst (unregisterFeature featureId (Some implName) pluginId r) = true <->
   exists entry,
     entryAt r featureId implName = Some entry /\
     forall plugin,
       truthy pluginId = Some plugin ->
       FeatureRegistryEntry.pluginId entry = Some plugin) /\
  (fst (unregisterFeature featureId (Some implName) pluginId r) = false ->
   unregisterFeature featureId (Some implName) pluginId r = (false, r)).
Proof.
  intros Hname. unfold unregisterFeature, entryAt.
  rewrite FeatureRegistryFacts.truthy_nonempty by done.
  destruct (JsMap.get featureId (features r)) as [impls|].
  2:{ split; [|done]. split; [done|]. by intros (entry & Hentry & _). }
  destruct (JsMap.get implName impls) as [entry|].
  2:{ split; [|done]. split; [done|]. by intros (entry & Hentry & _). }
  destruct (truthy pluginId) as [plugin|]; simpl.
  - unfold strictEq.
    destruct (FeatureRegistryEntry.pluginId entry) as [owner|] eqn:Howner;
      simpl.
    + case_bool_decide as Hsame; simpl.
      * subst owner. split; [|done]. split; [|done]. intros _.
        exists entry. split; [done|]. by intros plugin' [= <-].
      * split; [|done]. split; [done|]. intros (entry' & [= <-] & Hplugin).
        specialize (Hplugin plugin eq_refl). congruence.
    + split; [|done]. split; [done|]. intros (entry' & [= <-] & Hplugin).
      specialize (Hplugin plugin eq_refl). congruence.
  - split; [|done]. split; [|done]. intros _. exists entry. by split.
Qed.

Lemma unregisterFeature_named_answer_witness :
  (fst (unregisterFeature "x" (Some "a") (Some "pluginB")
          Sample.twoPlugins) = true <->
   exists entry,
     entryAt Sample.twoPlugins "x" "a" = Some entry /\
     forall plugin,
       truthy (Some "pluginB") = Some plugin ->
       FeatureRegistryEntry.pluginId entry = Some plugin) /\
  (fst (unregisterFeature "x" (Some "a") (Some "pluginB")
          Sample.twoPlugins) = false ->
   unregisterFeature "x" (Some "a") (Some "pluginB") Sample.twoPlugins
   = (false, Sample.twoPlugins)).
Proof.
  apply (unregisterFeature_named_answer Sample.twoPlugins "x" "a"
           (Some "pluginB")).
  discriminate.
Defined.

(** X5. When [unregisterFeature(featureId, implementationName)] removes an
    implementation, that pair of identifier and name has no entry afterwards
    and every other pair has the entry it had; the aliases are as before. *)
Theorem unregisterFeature_named_entryAt (r r' : t) (featureId implName : string)
    (pluginId : option string) (featureId' implName' : string) :
  implName <> "" ->
  unregisterFeature featureId (Some implName) pluginId r = (true, r') ->
  entryAt r' featureId' implName'
  = (if decide (featureId' = featureId /\ implName' = implName) then None
     else entryAt r featureId' implName') /\
  aliases r' = aliases r.
Proof.
  intros Hname Hcall. unfold unregisterFeature in Hcall.
  rewrite FeatureRegistryFacts.truthy_nonempty in Hcall by done.
  destruct (JsMap.get featureId (features r)) as [impls|] eqn:Himpls;
    [|discriminate Hcall].
  destruct (JsMap.get implName impls) as [entry|] eqn:Hentry;
    [|discriminate Hcall].
  destruct (match truthy pluginId with Some _ => _ | None => _ end);
    [discriminate Hcall|].
  injection Hcall as <-. split; [|reflexivity]. unfold entryAt. simpl.
  destruct (decide (featureId' = featureId)) as [->|Hid].
  - assert (JsMap.get implName' (JsMap.delete implName impls)
            = if decide (implName' = implName) then None
              else JsMap.get implName' impls) as Hlookup.
    { destruct (decide (implName' = implName)) as [->|Hne].
      - apply JsMapFacts.get_delete_eq.
      - by apply JsMapFacts.get_delete_ne. }
    rewrite Himpls.
    destruct (JsMap.size (JsMap.delete implName impls) =? 0)%nat eqn:Hsize.
    + apply JsMapFacts.size_zero in Hsize. rewrite Hsize in Hlookup.
      rewrite JsMapFacts.get_delete_eq.
      destruct (decide (implName' = implName)) as [->|Hne].
      * by rewrite decide_True.
      * rewrite decide_False by tauto. by rewrite <- Hlookup.
    + rewrite JsMapFacts.get_set_eq, Hlookup.
      destruct (decide (implName' = implName)) as [->|Hne].
      * by rewrite decide_True.
      * by rewrite decide_False by tauto.
  - rewrite decide_False by tauto.
    destruct (JsMap.size _ =? 0)%nat.
    + by rewrite JsMapFacts.get_delete_ne.
    + by rewrite JsMapFacts.get_set_ne.
Qed.

Lemma unregisterFeature_named_entryAt_witness :
  entryAt (snd (unregisterFeature "x" (Some "a") None Sample.twoPlugins))
    "x" "b"
  = (if decide ("x" = "x" /\ "b" = "a") then None
     else entryAt Sample.twoPlugins "x" "b") /\
  aliases (snd (unregisterFeature "x" (Some "a") None Sample.twoPlugins))
  = aliases Sample.twoPlugins.
Proof.
  apply (unregisterFeature_named_entryAt Sample.twoPlugins _ "x" "a" None
           "x" "b"); [discriminate|vm_compute; reflexivity].
Defined.

(** *** Unregistering the implementations of a plugin *)

(** X6. [unregisterFeature(featureId, undefined, pluginId)] on a table with
    distinct keys removes the implementations of the identifier that the
    plugin registered and no other: the answer says whether there was one,
    an entry of the plugin is gone, an entry of anybody else stays, and the
    entries of the other identifiers are untouched.  The default table
    changes only when nothing is left, and then loses the identifier. *)
Theorem unregisterFeature_by_plugin (r : t) (featureId plugin : string)
    (impls : JsMap.t FeatureRegistryEntry.t) :
  plugin <> "" ->
  JsMap.get featureId (features r) = Some impls ->
  List.NoDup (JsMap.keys impls) ->
  let answer := fst (unregisterFeature featureId None (Some plugin) r) in
  let r' := snd (unregisterFeature featureId None (Some plugin) r) in
  answer = existsb (fun kv => ownedBy plugin (snd kv)) impls /\
  (forall implName,
     entryAt r' featureId implName
     = match JsMap.get implName impls with
       | Some entry => if ownedBy plugin entry then None else Some entry
       | None => None
       end) /\
  (forall featureId' implName,
     featureId' <> featureId ->
     entryAt r' featureId' implName = entryAt r featureId' implName) /\
  defaultImplementations r'
  = (if forallb (fun kv => ownedBy plugin (snd kv)) impls
     then delete featureId (defaultImplementations r)
     else defaultImplementations r) /\
  aliases r' = aliases r.
Proof.
  intros Hplugin Himpls Hnodup. cbv zeta. unfold unregisterFeature.
  rewrite Himpls. simpl truthy at 1. cbv iota.
  rewrite FeatureRegistryFacts.truthy_nonempty by done.
  rewrite removePluginImplementations_filter by done.
  set (kept := List.filter _ impls).
  assert (forall implName,
            JsMap.get implName kept
            = match JsMap.get implName impls with
              | Some entry => if ownedBy plugin entry then None else Some entry
              | None => None
              end) as Hkept.
  { intros implName. unfold kept. rewrite JsMapMore.get_filter by done.
    destruct (JsMap.get implName impls) as [entry|]; [|done]. simpl.
    by destruct (ownedBy plugin entry). }
  assert ((JsMap.size kept =? 0)%nat
          = forallb (fun kv => ownedBy plugin (snd kv)) impls) as Hempty.
  { unfold kept, JsMap.size. clear.
    induction impls as [|kv impls IH]; simpl; [done|].
    destruct (ownedBy plugin (snd kv)); simpl; [exact IH|done]. }
  rewrite <- Hempty.
  destruct (JsMap.size kept =? 0)%nat eqn:Hsize; simpl.
  - apply JsMapFacts.size_zero in Hsize.
    split; [done|]. split; [|split; [|done]].
    + intros implName. unfold entryAt. simpl.
      rewrite JsMapFacts.get_delete_eq, <- Hkept. by rewrite Hsize.
    + intros featureId' implName Hne. unfold entryAt. simpl.
      by rewrite JsMapFacts.get_delete_ne.
  - split; [done|]. split; [|split; [|done]].
    + intros implName. unfold entryAt. simpl.
      by rewrite JsMapFacts.get_set_eq.
    + intros featureId' implName Hne. unfold entryAt. simpl.
      by rewrite JsMapFacts.get_set_ne.
Qed.

Lemma unregisterFeature_by_plugin_witness :
  let answer :=
    fst (unregisterFeature "x" None (Some "pluginA") Sample.twoPlugins) in
  let r' := snd (unregisterFeature "x" None (Some "pluginA") Sample.twoPlugins) in
  answer = true /\
  (forall implName,
     entryAt r' "x" implName
     = match JsMap.get implName
               [("a", FeatureRegistryEntry.mk Sample.fxa 1%Z (Some "pluginA"));
                ("b", FeatureRegistryEntry.mk Sample.fxb 2%Z (Some "pluginB"))]
       with
       | Some entry => if ownedBy "pluginA" entry then None else Some entry
       | None => None
       end) /\
  (forall featureId' implName,
     featureId' <> "x" ->
     entryAt r' featureId' implName = entryAt Sample.twoPlugins featureId' implName) /\
  defaultImplementations r' = defaultImplementations Sample.twoPlugins /\
  aliases r' = aliases Sample.twoPlugins.
Proof.
  apply (unregisterFeature_by_plugin Sample.twoPlugins "x" "pluginA"
           [("a", FeatureRegistryEntry.mk Sample.fxa 1%Z (Some "pluginA"));
            ("b", FeatureRegistryEntry.mk Sample.fxb 2%Z (Some "pluginB"))]);
    [discriminate|vm_compute; reflexivity|].
  repeat constructor; simpl; intuition discriminate.
Defined.

(** *** Statistics *)

Lemma countEntry_lookup (breakdown : gmap string BreakdownValue) entry
    (pluginId : string) (count : nat) :
  breakdown !! pluginId = breakdownOf pluginId count ->
  countEntry breakdown entry !! pluginId
  = breakdownOf pluginId
      (count + (if bool_decide (countedUnder entry = pluginId) then 1 else 0)).
Proof.
  intros Hlookup. unfold countEntry. fold (countedUnder entry).
  destruct (decide (countedUnder entry = pluginId)) as [Hp|Hp].
  - rewrite (bool_decide_true (countedUnder entry = pluginId)) by done.
    rewrite Hp. unfold breakdownOf in Hlookup |- *.
    replace (count + 1 =? 0)%nat with false by (symmetry; apply Nat.eqb_neq; lia).
    destruct (bool_decide (pluginId = "__proto__")) eqn:Hproto.
    + assert (breakdown !! pluginId = None) as Hnone
        by (by destruct (count =? 0)%nat).
      by rewrite Hnone.
    + destruct (count =? 0)%nat eqn:Hcount.
      * apply Nat.eqb_eq in Hcount as ->. rewrite Hlookup.
        destruct (inheritedName pluginId); by rewrite lookup_insert_eq.
      * destruct (inheritedName pluginId); rewrite Hlookup;
          by rewrite lookup_insert_eq.
  - rewrite (bool_decide_false (countedUnder entry = pluginId)) by done.
    rewrite Nat.add_0_r, <- Hlookup.
    destruct (breakdown !! countedUnder entry) as [[n|ones]|];
      try by rewrite lookup_insert_ne.
    destruct (bool_decide (countedUnder entry = "__proto__")); [done|].
    destruct (inheritedName (countedUnder entry));
      by rewrite lookup_insert_ne.
Qed.

Lemma countEntry_fold_lookup entries (breakdown : gmap string BreakdownValue)
    (pluginId : string) (count : nat) :
  breakdown !! pluginId = breakdownOf pluginId count ->
  fold_left countEntry entries breakdown !! pluginId
  = breakdownOf pluginId (count + countFor pluginId entries).
Proof.
  revert breakdown count.
  induction entries as [|e entries IH]; intros breakdown count Hlookup.
  - unfold countFor. simpl. by rewrite Nat.add_0_r.
  - simpl. rewrite (IH _ _ (countEntry_lookup _ e _ _ Hlookup)).
    f_equal. unfold countFor. simpl. case_bool_decide; simpl; lia.
Qed.

Lemma inheritedName_proto : inheritedName "__proto__" = true.
Proof. reflexivity. Qed.

Lemma countEntry_typed (breakdown : gmap string BreakdownValue) entry :
  typedBreakdown breakdown -> typedBreakdown (countEntry breakdown entry).
Proof.
  intros Htyped name value. unfold countEntry. fold (countedUnder entry).
  destruct (breakdown !! countedUnder entry) as [[n|ones]|] eqn:Hlookup.
  - destruct (decide (name = countedUnder entry)) as [->|Hne].
    + rewrite lookup_insert_eq. intros [= <-]. apply (Htyped _ _ Hlookup).
    + rewrite lookup_insert_ne by done. apply Htyped.
  - destruct (decide (name = countedUnder entry)) as [->|Hne].
    + rewrite lookup_insert_eq. intros [= <-]. apply (Htyped _ _ Hlookup).
    + rewrite lookup_insert_ne by done. apply Htyped.
  - case_bool_decide; [apply Htyped|].
    destruct (inheritedName (countedUnder entry)) eqn:Hinherited.
    + destruct (decide (name = countedUnder entry)) as [->|Hne].
      * rewrite lookup_insert_eq. by intros [= <-].
      * rewrite lookup_insert_ne by done. apply Htyped.
    + destruct (decide (name = countedUnder entry)) as [->|Hne].
      * rewrite lookup_insert_eq. by intros [= <-].
      * rewrite lookup_insert_ne by done. apply Htyped.
Qed.

Lemma breakdownTotal_insert (breakdown : gmap string BreakdownValue)
    (name : string) (value : BreakdownValue) :
  (breakdownTotal (<[name := value]> breakdown)
   + default 0 (numberOf <$> breakdown !! name))%nat
  = (breakdownTotal breakdown + numberOf value)%nat.
Proof.
  unfold breakdownTotal.
  destruct (breakdown !! name) as [old|] eqn:Hlookup; simpl.
  - rewrite <- insert_delete_eq.
    rewrite map_fold_insert_L; [|intros; lia|apply lookup_delete_eq].
    rewrite (map_fold_delete_L _ _ name old breakdown); [lia|intros; lia|done].
  - rewrite map_fold_insert_L; [lia|intros; lia|done].
Qed.

(** An entry adds one to the sum of the numbers, unless it is counted under
    a name of [Object.prototype]. *)
Lemma breakdownTotal_countEntry (breakdown : gmap string BreakdownValue) entry :
  typedBreakdown breakdown ->
  breakdownTotal (countEntry breakdown entry)
  = (breakdownTotal breakdown
     + (if inheritedName (countedUnder entry) then 0 else 1))%nat.
Proof.
  intros Htyped. unfold countEntry. fold (countedUnder entry).
  set (pluginId := countedUnder entry).
  destruct (breakdown !! pluginId) as [[n|ones]|] eqn:Hlookup.
  - pose proof (Htyped _ _ Hlookup) as Hname. simpl in Hname. rewrite Hname.
    pose proof (breakdownTotal_insert breakdown pluginId (Count (n + 1)))
      as Hinsert.
    rewrite Hlookup in Hinsert. simpl in Hinsert. lia.
  - pose proof (Htyped _ _ Hlookup) as Hname. simpl in Hname. rewrite Hname.
    pose proof (breakdownTotal_insert breakdown pluginId
                  (NotANumber (ones + 1))) as Hinsert.
    rewrite Hlookup in Hinsert. simpl in Hinsert. lia.
  - case_bool_decide as Hproto.
    + rewrite Hproto, inheritedName_proto. lia.
    + destruct (inheritedName pluginId).
      * pose proof (breakdownTotal_insert breakdown pluginId (NotANumber 1))
          as Hinsert.
        rewrite Hlookup in Hinsert. simpl in Hinsert. lia.
      * pose proof (breakdownTotal_insert breakdown pluginId (Count 1))
          as Hinsert.
        rewrite Hlookup in Hinsert. simpl in Hinsert. lia.
Qed.

Lemma breakdownTotal_fold entries (breakdown : gmap string BreakdownValue) :
  typedBreakdown breakdown ->
  breakdownTotal (fold_left countEntry entries breakdown)
  = (breakdownTotal breakdown
     + length (List.filter (fun e => negb (inheritedName (countedUnder e)))
                 entries))%nat.
Proof.
  revert breakdown. induction entries as [|e entries IH]; intros breakdown Htyped;
    simpl; [lia|].
  rewrite IH by (by apply countEntry_typed).
  rewrite breakdownTotal_countEntry by done.
  destruct (inheritedName (countedUnder e)); simpl; lia.
Qed.

Lemma getStats_fold_breakdown (tables : list (JsMap.t FeatureRegistryEntry.t))
    (total : nat) (breakdown : gmap string BreakdownValue) :
  snd (fold_left
         (fun '(total, breakdown) implementations =>
            ((total + JsMap.size implementations)%nat,
             fold_left countEntry (JsMap.values implementations) breakdown))
         tables (total, breakdown))
  = fold_left countEntry (flat_map JsMap.values tables) breakdown.
Proof.
  revert total breakdown.
  induction tables as [|impls tables IH]; intros total breakdown; simpl; [done|].
  by rewrite IH, fold_left_app.
Qed.

Lemma allEntries_values (r : t) :
  allEntries r = flat_map JsMap.values (JsMap.values (features r)).
Proof.
  unfold allEntries, JsMap.values at 2.
  induction (features r) as [|[k v] l IH]; simpl; [done|]. by rewrite IH.
Qed.

Lemma getStats_pluginBreakdown_fold (r : t) :
  pluginBreakdown (getStats r) = fold_left countEntry (allEntries r) ∅.
Proof.
  unfold getStats.
  pose proof (getStats_fold_breakdown (JsMap.values (features r)) 0 ∅) as Hfold.
  destruct (fold_left _ _ _) as [total breakdown]. simpl in *.
  by rewrite allEntries_values.
Qed.

Lemma length_allEntries (r : t) :
  length (allEntries r)
  = list_sum (List.map JsMap.size (JsMap.values (features r))).
Proof.
  unfold allEntries, JsMap.values, JsMap.size.
  induction (features r) as [|[k v] l IH]; simpl; [done|].
  by rewrite length_app, length_map, IH.
Qed.

(** X7. What [getStats] reports under a name is determined by the number
    of registered implementations counted under it (those registered by the
    plugin of that name, and under "unknown" those registered with no plugin
    or with the empty string as plugin).  A name under which none is counted
    is not in the breakdown.  Otherwise the breakdown holds that number,
    unless the name is one of [Object.prototype]: then it holds a string
    instead of a number ("constructor", "toString", ...), or nothing at all
    ("__proto__"). *)
Theorem getStats_pluginBreakdown (r : t) (pluginId : string) :
  pluginBreakdown (getStats r) !! pluginId
  = breakdownOf pluginId (countFor pluginId (allEntries r)).
Proof.
  rewrite getStats_pluginBreakdown_fold.
  by rewrite (countEntry_fold_lookup _ _ pluginId 0).
Qed.

(** X8. The numbers in the breakdown of [getStats] add up to the number of
    registered implementations that are not counted under a name of
    [Object.prototype]; when there is no such implementation they add up to
    [totalImplementations]: every implementation is then counted under
    exactly one name. *)
Theorem getStats_breakdown_total (r : t) :
  breakdownTotal (pluginBreakdown (getStats r))
  = length (List.filter (fun e => negb (inheritedName (countedUnder e)))
              (allEntries r)) /\
  ((forall entry,
      In entry (allEntries r) -> inheritedName (countedUnder entry) = false) ->
   breakdownTotal (pluginBreakdown (getStats r))
   = totalImplementations (getStats r)).
Proof.
  assert (breakdownTotal (pluginBreakdown (getStats r))
          = length (List.filter
                      (fun e => negb (inheritedName (countedUnder e)))
                      (allEntries r))) as Htotal.
  { rewrite getStats_pluginBreakdown_fold, breakdownTotal_fold by done.
    unfold breakdownTotal. by rewrite map_fold_empty. }
  split; [exact Htotal|]. intros Hnames.
  rewrite Htotal, FeatureRegistryFacts.getStats_totalImplementations.
  rewrite <- length_allEntries. f_equal. clear Htotal. revert Hnames.
  induction (allEntries r) as [|e entries IH]; intros Hnames; [done|]. simpl.
  rewrite (Hnames e) by (by left). simpl. f_equal.
  apply IH. intros entry Hin. apply Hnames. by right.
Qed.

(** *** The overview of all features *)

Import RegistryQueries QuerySpec.

Lemma fold_left_app_flat_map {A B : Type} (g : A -> list B) (l : list A)
    (acc : list B) :
  fold_left (fun result a => result ++ g a) l acc = acc ++ flat_map g l.
Proof.
  revert acc. induction l as [|a l IH]; intros acc; simpl.
  - by rewrite app_nil_r.
  - by rewrite IH, <- app_assoc.
Qed.

Lemma getAllFeatures_flat_map (r : t) :
  getAllFeatures r
  = flat_map (fun binding => overview r (fst binding) (snd binding))
      (features r).
Proof.
  unfold getAllFeatures, JsMap.entries.
  rewrite <- (app_nil_l (flat_map _ _)).
  generalize (@nil FeatureOverview.t).
  induction (features r) as [|[featureId impls] l IH]; intros acc; simpl.
  - by rewrite app_nil_r.
  - by rewrite IH, <- app_assoc.
Qed.

Lemma overview_nonempty (r : t) featureId first rest :
  overview r featureId (first :: rest)
  = [FeatureOverview.mk featureId
       (Feature.name (FeatureRegistryEntry.feature (snd first)))
       (Feature.description (FeatureRegistryEntry.feature (snd first)))
       (List.map
          (fun kv =>
             ImplementationInfo.mk (fst kv)
               (bool_decide (defaultImplementations r !! featureId
                             = Some (fst kv)))
               (FeatureRegistryEntry.pluginId (snd kv)))
          (first :: rest))].
Proof.
  unfold overview. destruct first as [k e].
  change (JsMap.values ((k, e) :: rest)) with (e :: JsMap.values rest).
  cbv iota zeta beta. do 2 f_equal. unfold JsMap.entries.
  set (info := fun kv : string * FeatureRegistryEntry.t => ImplementationInfo.mk _ _ _).
  generalize ((k, e) :: rest). intros l.
  enough (forall acc,
            fold_left
              (fun impls '(implName, entry) =>
                 impls ++
                 [ImplementationInfo.mk implName
                    (bool_decide (defaultImplementations r !! featureId
                                  = Some implName))
                    (FeatureRegistryEntry.pluginId entry)])
              l acc
            = acc ++ List.map info l) as Hfold by apply (Hfold []).
  induction l as [|[k' e'] l IH]; intros acc; simpl.
  - by rewrite app_nil_r.
  - rewrite IH, <- app_assoc. reflexivity.
Qed.

(** X9. For a registry reached by [registerFeature] and [unregisterFeature]
    calls from a new one, [getAllFeatures] gives one overview for each
    feature identifier, in the order the identifiers were first registered,
    and the overview of an identifier lists the names of its implementations
    in the order they were first registered. *)
Theorem getAllFeatures_lists_every_feature (calls : list Call) :
  let r := applyCalls calls new in
  List.map
    (fun o =>
       (FeatureOverview.featureId o,
        List.map ImplementationInfo.name (FeatureOverview.implementations o)))
    (getAllFeatures r)
  = List.map (fun binding => (fst binding, JsMap.keys (snd binding)))
      (features r).
Proof.
  intros r.
  assert (wellFormed r) as [_ Htables]
    by apply applyCalls_wellFormed, new_wellFormed.
  rewrite getAllFeatures_flat_map.
  induction Htables as [|[featureId impls] l [_ Hnonempty] _ IH]; [done|].
  simpl in Hnonempty. destruct impls as [|first rest]; [done|].
  cbn [flat_map fst snd]. rewrite overview_nonempty.
  cbn [app List.map fst snd FeatureOverview.featureId
       FeatureOverview.implementations].
  rewrite IH. do 2 f_equal. unfold JsMap.keys. by rewrite map_map.
Qed.

Lemma count_key_unique (name : string) (keys : list string) :
  List.NoDup keys ->
  length (List.filter (fun k => bool_decide (Some name = Some k)) keys)
  = if bool_decide (name ∈ keys) then 1%nat else 0%nat.
Proof.
  induction 1 as [|k keys Hk Hkeys IH]; simpl.
  - reflexivity.
  - rewrite <- list_elem_of_In in Hk.
    destruct (decide (name = k)) as [->|Hne].
    + rewrite (bool_decide_true (Some k = Some k)) by done. simpl.
      rewrite IH, bool_decide_false by done.
      rewrite bool_decide_true; [done|]. by left.
    + rewrite (bool_decide_false (Some name = Some k)) by congruence.
      rewrite IH.
      rewrite (bool_decide_ext (name ∈ k :: keys) (name ∈ keys)); [done|].
      rewrite elem_of_cons. split; [|auto]. intros [->|?]; [done|auto].
Qed.

(** X10. In a registry reached by [registerFeature] and [unregisterFeature]
    calls from a new one, an overview of [getAllFeatures] flags exactly one
    implementation as the default when the default table names a registered
    implementation of the identifier, and none otherwise: never two. *)
Theorem getAllFeatures_one_default (calls : list Call) (o : FeatureOverview.t) :
  let r := applyCalls calls new in
  In o (getAllFeatures r) ->
  defaultFlags o
  = match defaultImplementations r !! FeatureOverview.featureId o with
    | Some implName =>
        if bool_decide
             (is_Some (entryAt r (FeatureOverview.featureId o) implName))
        then 1%nat else 0%nat
    | None => 0%nat
    end.
Proof.
  intros r Hin.
  assert (wellFormed r) as Hwf by apply applyCalls_wellFormed, new_wellFormed.
  rewrite getAllFeatures_flat_map in Hin.
  apply in_flat_map in Hin as ([featureId impls] & Hbinding & Ho).
  simpl in Ho. pose proof Hwf as [Hkeys _].
  pose proof (JsMapMore.In_get _ _ _ Hkeys Hbinding) as Hget.
  destruct (wellFormed_table _ _ _ Hwf Hget) as [Hnodup Hnonempty].
  destruct impls as [|first rest]; [done|].
  rewrite overview_nonempty in Ho. destruct Ho as [<-|[]].
  unfold defaultFlags, entryAt. simpl FeatureOverview.featureId.
  simpl FeatureOverview.implementations. rewrite Hget.
  set (impls := first :: rest) in *.
  assert (forall name : option string,
            length (List.filter ImplementationInfo.isDefault
                      (List.map
                         (fun kv : string * FeatureRegistryEntry.t =>
                            ImplementationInfo.mk (fst kv)
                              (bool_decide (name = Some (fst kv)))
                              (FeatureRegistryEntry.pluginId (snd kv)))
                         impls))
            = length (List.filter (fun k => bool_decide (name = Some k))
                        (JsMap.keys impls))) as Hcount.
  { intros name. unfold JsMap.keys. clear.
    induction impls as [|kv impls IH]; simpl; [done|].
    destruct (bool_decide (name = Some (fst kv))); simpl; by rewrite IH. }
  transitivity
    (length (List.filter
               (fun k => bool_decide (defaultImplementations r !! featureId
                                      = Some k))
               (JsMap.keys impls))); [exact (Hcount _)|].
  destruct (defaultImplementations r !! featureId) as [implName|].
  - rewrite count_key_unique by done.
    rewrite (bool_decide_ext (implName ∈ JsMap.keys impls)
               (is_Some (JsMap.get implName impls))); [done|].
    rewrite list_elem_of_In. split.
    + intros Hkey. destruct (JsMap.get implName impls) as [entry|] eqn:Hentry;
        [by eexists|].
      by apply JsMapFacts.get_None_keys in Hentry.
    + intros [entry Hentry]. apply JsMapFacts.get_In in Hentry.
      unfold JsMap.keys. apply in_map_iff. by exists (implName, entry).
  - clear. by induction (JsMap.keys impls).
Qed.

Lemma getAllFeatures_one_default_witness :
  defaultFlags
    (FeatureOverview.mk "x" "X by a" ""
       [ImplementationInfo.mk "a" true (Some "pluginA");
        ImplementationInfo.mk "b" false (Some "pluginB")])
  = 1%nat.
Proof.
  apply (getAllFeatures_one_default
           [Register Sample.fxa (Some "pluginA") false 1%Z;
            Register Sample.fxb (Some "pluginB") false 2%Z]
           (FeatureOverview.mk "x" "X by a" ""
              [ImplementationInfo.mk "a" true (Some "pluginA");
               ImplementationInfo.mk "b" false (Some "pluginB")])).
  vm_compute. left. reflexivity.
Defined.

(** *** Queries *)

Section QueryFacts.
Context (getStatus : Feature.t -> Outcome (option FeatureStatus.t))
        (options : FeatureQueryOptions.t).

Local Abbreviation ask :=
  (fun (acc : Outcome (list Feature.t)) (feature : Feature.t) =>
     match acc with
     | Returns results => queryStep getStatus options results feature
     | Throws error => Throws error
     end).

Lemma queryFeatures_fold (r : t) :
  queryFeatures getStatus options r
  = fold_left ask (allFeatures r) (Returns []).
Proof.
  unfold queryFeatures, allFeatures, allEntries, JsMap.entries.
  generalize (@Returns (list Feature.t) []).
  induction (features r) as [|[featureId impls] l IH]; intros acc; [done|].
  cbn [fold_left flat_map snd]. rewrite IH, map_app, fold_left_app.
  do 2 f_equal. clear. revert acc. unfold JsMap.values.
  induction impls as [|[implName entry] impls IH]; intros acc; [done|].
  simpl. by rewrite IH.
Qed.

Lemma pushIfActive_quiet results feature :
  statusThrows getStatus options feature = None ->
  pushIfActive getStatus options results feature
  = Returns (results ++ (if match passesActive getStatus options feature with
                            | Returns active => active
                            | Throws _ => false
                            end
                         then [feature] else [])).
Proof.
  unfold statusThrows, pushIfActive.
  destruct (passesActive getStatus options feature) as [[]|]; try done;
    by rewrite ?app_nil_r.
Qed.

Lemma pushIfActive_throws results feature error :
  statusThrows getStatus options feature = Some error ->
  pushIfActive getStatus options results feature = Throws error.
Proof.
  unfold statusThrows, pushIfActive.
  destruct (passesActive getStatus options feature) as [[]|]; try done.
  by intros [= ->].
Qed.

Lemma queryStep_quiet results feature :
  askThrows getStatus options feature = None ->
  queryStep getStatus options results feature
  = Returns (results ++ (if accepts getStatus options feature
                         then [feature] else [])).
Proof.
  unfold askThrows, queryStep, accepts.
  destruct (passesTags options feature); simpl; [|by rewrite app_nil_r].
  destruct (passesAuthor options feature); simpl; [|by rewrite app_nil_r].
  destruct (truthy (FeatureQueryOptions.url options)) as [url|].
  - destruct (Feature.isApplicable feature url None) as [[]|]; simpl;
      intros H; try done; [|by rewrite app_nil_r].
    by apply pushIfActive_quiet.
  - by apply pushIfActive_quiet.
Qed.

Lemma queryStep_throws results feature error :
  askThrows getStatus options feature = Some error ->
  queryStep getStatus options results feature = Throws error.
Proof.
  unfold askThrows, queryStep.
  destruct (passesTags options feature); simpl; [|done].
  destruct (passesAuthor options feature); simpl; [|done].
  destruct (truthy (FeatureQueryOptions.url options)) as [url|];
    [|by apply pushIfActive_throws].
  destruct (Feature.isApplicable feature url None) as [[]|]; try done.
  - by apply pushIfActive_throws.
  - by intros [= ->].
Qed.

Lemma ask_quiet features results :
  (forall feature,
     In feature features -> askThrows getStatus options feature = None) ->
  fold_left ask features (Returns results)
  = Returns (results ++ List.filter (accepts getStatus options) features).
Proof.
  revert results. induction features as [|f features IH]; intros results Hquiet.
  - by rewrite app_nil_r.
  - simpl. rewrite queryStep_quiet by (apply Hquiet; by left).
    rewrite IH by (intros g Hg; apply Hquiet; by right).
    destruct (accepts getStatus options f); by rewrite <- app_assoc.
Qed.

Lemma ask_thrown features error :
  fold_left ask features (Throws error) = Throws error.
Proof. by induction features. Qed.



End QueryFacts.



End RegistryMore.

(** ** The plugin manager, continued *)

Module ManagerMore.
Import PluginManager ManagerSpec ManagerQueries MoreSpec ManagerMoreSpec.

(** *** Registering the features of a plugin *)

Lemma registerPluginFeatures_later (pluginId : string) (now : Z)
    (features : list Feature.t) (index : nat) (registry : FeatureRegistry.t) :
  snd (fold_left
         (fun '(index, registry) feature =>
            let isDefault := (index =? 0)%nat in
            (S index,
             FeatureRegistry.registerFeature feature (Some pluginId)
               isDefault now registry))
         features (S index, registry))
  = fold_left
      (fun registry feature =>
         FeatureRegistry.registerFeature feature (Some pluginId) false now
           registry)
      features registry.
Proof.
  revert index registry.
  induction features as [|f features IH]; intros index registry; [done|].
  simpl. by rewrite IH.
Qed.

(** The first feature is registered as the default, the others are not. *)
Lemma registerPluginFeatures_cons (plugin : Plugin.t) (now : Z)
    (registry : FeatureRegistry.t) f0 rest :
  Plugin.features plugin = f0 :: rest ->
  registerPluginFeatures plugin now registry
  = fold_left
      (fun registry feature =>
         FeatureRegistry.registerFeature feature (Some (Plugin.id plugin))
           false now registry)
      rest
      (FeatureRegistry.registerFeature f0 (Some (Plugin.id plugin)) true now
         registry).
Proof.
  intros Hfeatures. unfold registerPluginFeatures. rewrite Hfeatures. simpl.
  apply registerPluginFeatures_later.
Qed.

Lemma registerFeature_keeps_default (r : FeatureRegistry.t) f pluginId now
    featureId implName :
  FeatureRegistry.defaultImplementations r !! featureId = Some implName ->
  FeatureRegistry.defaultImplementations
    (FeatureRegistry.registerFeature f pluginId false now r) !! featureId
  = Some implName.
Proof.
  intros Hdef. rewrite FeatureRegistryFacts.registerFeature_defaults. simpl.
  destruct (decide (featureId = Feature.id f)) as [->|Hne].
  - rewrite Hdef. rewrite bool_decide_true by by eexists. done.
  - destruct (negb _); [by rewrite lookup_insert_ne|done].
Qed.

Lemma registerPluginFeatures_default (plugin : Plugin.t) (now : Z)
    (registry : FeatureRegistry.t) (f0 : Feature.t) (rest : list Feature.t) :
  Plugin.features plugin = f0 :: rest ->
  FeatureRegistry.defaultImplementations
    (registerPluginFeatures plugin now registry) !! Feature.id f0
  = Some (FeatureRegistry.getImplementationName f0).
Proof.
  intros Hfeatures. rewrite (registerPluginFeatures_cons _ _ _ _ _ Hfeatures).
  assert (FeatureRegistry.defaultImplementations
            (FeatureRegistry.registerFeature f0 (Some (Plugin.id plugin)) true
               now registry) !! Feature.id f0
          = Some (FeatureRegistry.getImplementationName f0)) as Hfirst.
  { rewrite FeatureRegistryFacts.registerFeature_defaults. simpl.
    apply lookup_insert_eq. }
  revert Hfirst. generalize (FeatureRegistry.registerFeature f0
                               (Some (Plugin.id plugin)) true now registry).
  clear Hfeatures.
  induction rest as [|f rest IH]; intros r Hr; [done|].
  simpl. apply IH. by apply registerFeature_keeps_default.
Qed.

(** X13. Loading registers the first feature of a plugin as the default
    implementation of its feature identifier, whatever the default was
    before, and the later features of the plugin do not take it back. *)
Theorem registerPluginFeatures_first_is_default (plugin : Plugin.t) (now : Z)
    (registry : FeatureRegistry.t) (f0 : Feature.t) (rest : list Feature.t) :
  Plugin.features plugin = f0 :: rest ->
  FeatureRegistry.defaultImplementations
    (registerPluginFeatures plugin now registry) !! Feature.id f0
  = Some (FeatureRegistry.getImplementationName f0).
Proof. apply registerPluginFeatures_default. Qed.

Lemma registerPluginFeatures_first_is_default_witness :
  FeatureRegistry.defaultImplementations
    (registerPluginFeatures Sample.onlyB 2%Z Sample.twoPlugins) !! "x"
  = Some "b".
Proof.
  apply (registerPluginFeatures_first_is_default Sample.onlyB 2%Z
           Sample.twoPlugins Sample.fxb []).
  reflexivity.
Defined.

Lemma registerFeatures_entryAt (pluginId : string) (now : Z)
    (features : list Feature.t) (r : FeatureRegistry.t)
    (featureId implName : string) :
  entryAt
    (fold_left
       (fun registry feature =>
          FeatureRegistry.registerFeature feature (Some pluginId) false now
            registry)
       features r)
    featureId implName
  = match lastWithKey featureId implName features with
    | Some f => Some (FeatureRegistryEntry.mk f now (Some pluginId))
    | None => entryAt r featureId implName
    end.
Proof.
  revert r. induction features as [|f features IH]; intros r; [done|].
  simpl. rewrite IH.
  destruct (lastWithKey featureId implName features); [done|].
  rewrite (RegistryMore.registerFeature_lookup r f (Some pluginId) false now
             featureId implName).
  destruct (decide _) as [Hkey|Hkey].
  - by rewrite bool_decide_true by (destruct Hkey; by split).
  - rewrite bool_decide_false; [done|]. intros [? ?]. apply Hkey. by split.
Qed.

Lemma registerPluginFeatures_lookup (plugin : Plugin.t) (now : Z)
    (registry : FeatureRegistry.t) (featureId implName : string) :
  entryAt (registerPluginFeatures plugin now registry) featureId implName
  = match lastWithKey featureId implName (Plugin.features plugin) with
    | Some f => Some (FeatureRegistryEntry.mk f now (Some (Plugin.id plugin)))
    | None => entryAt registry featureId implName
    end.
Proof.
  destruct (Plugin.features plugin) as [|f0 rest] eqn:Hfeatures.
  - unfold registerPluginFeatures. by rewrite Hfeatures.
  - rewrite (registerPluginFeatures_cons _ _ _ _ _ Hfeatures).
    rewrite registerFeatures_entryAt. simpl.
    destruct (lastWithKey featureId implName rest); [done|].
    rewrite (RegistryMore.registerFeature_lookup registry f0
               (Some (Plugin.id plugin)) true now featureId implName).
    destruct (decide _) as [Hkey|Hkey].
    + by rewrite bool_decide_true by (destruct Hkey; by split).
    + rewrite bool_decide_false; [done|]. intros [? ?]. apply Hkey. by split.
Qed.

(** X14. After the features of a plugin have been registered, a pair of
    feature identifier and implementation name holds the entry of the last
    feature of the plugin with that identifier and name, registered for the
    plugin; a pair that no feature of the plugin has holds what it held.
    Two features of a plugin with the same identifier and name therefore
    leave only the later one registered. *)
Theorem registerPluginFeatures_entryAt (plugin : Plugin.t) (now : Z)
    (registry : FeatureRegistry.t) (featureId implName : string) :
  entryAt (registerPluginFeatures plugin now registry) featureId implName
  = match lastWithKey featureId implName (Plugin.features plugin) with
    | Some f => Some (FeatureRegistryEntry.mk f now (Some (Plugin.id plugin)))
    | None => entryAt registry featureId implName
    end.
Proof. apply registerPluginFeatures_lookup. Qed.

Lemma lastWithKey_Some (featureId implName : string) (features : list Feature.t)
    (g : Feature.t) :
  lastWithKey featureId implName features = Some g ->
  In g features /\
  Feature.id g = featureId /\
  FeatureRegistry.getImplementationName g = implName.
Proof.
  induction features as [|f features IH]; [done|]. simpl.
  destruct (lastWithKey featureId implName features) as [h|].
  - intros [= ->]. destruct (IH eq_refl) as (Hin & Hkey). by split; [right|].
  - case_bool_decide as Hkey; [|done]. intros [= ->]. by split; [left|].
Qed.

Lemma lastWithKey_In (features : list Feature.t) (f : Feature.t) :
  In f features ->
  exists g,
    lastWithKey (Feature.id f) (FeatureRegistry.getImplementationName f)
      features = Some g.
Proof.
  induction features as [|f0 features IH]; [done|]. simpl.
  intros [->|Hin].
  - destruct (lastWithKey _ _ features) as [g|]; [by exists g|].
    rewrite bool_decide_true by done. by exists f.
  - destruct (IH Hin) as [g ->]. by exists g.
Qed.

(** *** Loading *)

Lemma loadPlugin_resolves (plugin : Plugin.t) (now : Z) (pm : t) :
  JsMap.has (Plugin.id plugin) (plugins pm) = false ->
  Plugin.initialize plugin (initContext pm) = None ->
  callIfPresent (Plugin.activate plugin) = None ->
  loadPlugin plugin now pm
  = (Returns tt,
     Plugin.setStatus
       (match Plugin.activate plugin with
        | Some _ => PluginStatus.ACTIVE
        | None => PluginStatus.LOADED
        end) plugin,
     mk (JsMap.set (Plugin.id plugin)
           (Plugin.setStatus
              (match Plugin.activate plugin with
               | Some _ => PluginStatus.ACTIVE
               | None => PluginStatus.LOADED
               end) plugin)
           (plugins pm))
        (registerPluginFeatures plugin now (featureRegistry pm))
        (storage pm) (isInitialized pm) (initContext pm)).
Proof.
  intros Hnew Hinit Hactivate. unfold loadPlugin. rewrite Hnew.
  change (Plugin.initialize (Plugin.setStatus PluginStatus.LOADING plugin))
    with (Plugin.initialize plugin).
  rewrite Hinit.
  change (Plugin.activate (Plugin.setStatus PluginStatus.LOADING plugin))
    with (Plugin.activate plugin).
  unfold callIfPresent in Hactivate.
  destruct (Plugin.activate plugin) as [activate|]; [rewrite Hactivate|];
    reflexivity.
Qed.

(** X15. When the plugin is not loaded yet and its [initialize] and, if it
    has one, its [activate] resolve, [loadPlugin] resolves; the plugin is in
    the table of loaded plugins, after those that were there, with status
    ACTIVE when it has an [activate] and LOADED otherwise.  Its features are
    registered: every feature of the plugin has, under its identifier and
    implementation name, an entry registered by the plugin that holds a
    feature of the plugin with that identifier and name (the last one), the
    first feature names the default of its identifier, and the other keys
    of the registry hold what they held.  Loading a plugin with the same
    identifier again changes nothing. *)
Theorem loadPlugin_loads (plugin : Plugin.t) (now : Z) (pm : t) :
  JsMap.has (Plugin.id plugin) (plugins pm) = false ->
  Plugin.initialize plugin (initContext pm) = None ->
  callIfPresent (Plugin.activate plugin) = None ->
  let plugin' :=
    Plugin.setStatus
      (match Plugin.activate plugin with
       | Some _ => PluginStatus.ACTIVE
       | None => PluginStatus.LOADED
       end) plugin in
  let pm' := snd (loadPlugin plugin now pm) in
  loadPlugin plugin now pm = (Returns tt, plugin', pm') /\
  getPlugin pm' (Plugin.id plugin) = Some plugin' /\
  JsMap.keys (plugins pm') = JsMap.keys (plugins pm) ++ [Plugin.id plugin] /\
  (forall f,
     In f (Plugin.features plugin) ->
     exists g,
       entryAt (featureRegistry pm') (Feature.id f)
         (FeatureRegistry.getImplementationName f)
       = Some (FeatureRegistryEntry.mk g now (Some (Plugin.id plugin))) /\
       In g (Plugin.features plugin) /\
       Feature.id g = Feature.id f /\
       FeatureRegistry.getImplementationName g
       = FeatureRegistry.getImplementationName f) /\
  (forall f0 rest,
     Plugin.features plugin = f0 :: rest ->
     FeatureRegistry.defaultImplementations (featureRegistry pm')
       !! Feature.id f0
     = Some (FeatureRegistry.getImplementationName f0)) /\
  (forall featureId implName,
     lastWithKey featureId implName (Plugin.features plugin) = None ->
     entryAt (featureRegistry pm') featureId implName
     = entryAt (featureRegistry pm) featureId implName) /\
  (forall other now',
     Plugin.id other = Plugin.id plugin ->
     loadPlugin other now' pm' = (Returns tt, other, pm')).
Proof.
  intros Hnew Hinit Hactivate. cbv zeta.
  assert (JsMap.get (Plugin.id plugin) (plugins pm) = None) as Hnone
    by by apply JsMapFacts.has_false.
  rewrite (loadPlugin_resolves plugin now pm Hnew Hinit Hactivate).
  cbn [snd featureRegistry].
  split; [reflexivity|].
  split; [apply JsMapFacts.get_set_eq|].
  split; [by apply JsMapFacts.keys_set_absent|].
  split.
  { intros f Hf. destruct (lastWithKey_In _ _ Hf) as [g Hg].
    exists g. rewrite registerPluginFeatures_lookup, Hg.
    split; [reflexivity|]. by apply lastWithKey_Some in Hg. }
  split.
  { intros f0 rest Hfeatures.
    by apply (registerPluginFeatures_default plugin now _ f0 rest). }
  split.
  { intros featureId implName Hnone'.
    by rewrite registerPluginFeatures_lookup, Hnone'. }
  intros other now' Hid. unfold loadPlugin, JsMap.has.
  cbn [plugins]. by rewrite Hid, JsMapFacts.get_set_eq.
Qed.

Lemma loadPlugin_loads_witness :
  let plugin' := Plugin.setStatus PluginStatus.LOADED Sample.onlyA in
  let pm' := snd (loadPlugin Sample.onlyA 1%Z MoreSample.fresh) in
  loadPlugin Sample.onlyA 1%Z MoreSample.fresh = (Returns tt, plugin', pm') /\
  getPlugin pm' "pluginA" = Some plugin' /\
  JsMap.keys (plugins pm') = ["pluginA"] /\
  (forall f,
     In f [Sample.fxa] ->
     exists g,
       entryAt (featureRegistry pm') (Feature.id f)
         (FeatureRegistry.getImplementationName f)
       = Some (FeatureRegistryEntry.mk g 1%Z (Some "pluginA")) /\
       In g [Sample.fxa] /\
       Feature.id g = Feature.id f /\
       FeatureRegistry.getImplementationName g
       = FeatureRegistry.getImplementationName f) /\
  (forall f0 rest,
     [Sample.fxa] = f0 :: rest ->
     FeatureRegistry.defaultImplementations (featureRegistry pm')
       !! Feature.id f0
     = Some (FeatureRegistry.getImplementationName f0)) /\
  (forall featureId implName,
     lastWithKey featureId implName [Sample.fxa] = None ->
     entryAt (featureRegistry pm') featureId implName
     = entryAt FeatureRegistry.new featureId implName) /\
  (forall other now',
     Plugin.id other = "pluginA" ->
     loadPlugin other now' pm' = (Returns tt, other, pm')).
Proof.
  apply (loadPlugin_loads Sample.onlyA 1%Z MoreSample.fresh); reflexivity.
Defined.



(** *** Unloading *)

Lemma unregisterFeature_other_entryAt (r : FeatureRegistry.t)
    (featureId' : string) (implementationName pluginId : option string)
    (featureId implName : string) :
  featureId <> featureId' ->
  entryAt
    (snd (FeatureRegistry.unregisterFeature featureId' implementationName
            pluginId r))
    featureId implName
  = entryAt r featureId implName.
Proof.
  intros Hne. unfold FeatureRegistry.unregisterFeature, entryAt.
  destruct (JsMap.get featureId' (FeatureRegistry.features r)) as [impls|];
    [|done].
  destruct (truthy implementationName) as [name|].
  - destruct (JsMap.get name impls); [|done].
    destruct (match truthy pluginId with Some _ => _ | None => _ end); [done|].
    simpl. destruct (JsMap.size _ =? 0)%nat.
    + by rewrite JsMapFacts.get_delete_ne.
    + by rewrite JsMapFacts.get_set_ne.
  - destruct (truthy pluginId) as [plugin|]; simpl.
    + destruct (FeatureRegistry.removePluginImplementations plugin impls)
        as [kept removed].
      destruct (JsMap.size kept =? 0)%nat; simpl.
      * by rewrite JsMapFacts.get_delete_ne.
      * by rewrite JsMapFacts.get_set_ne.
    + by rewrite JsMapFacts.get_delete_ne.
Qed.

(** Unregistering by plugin leaves no entry of the plugin under the
    identifier. *)
Lemma unregisterFeature_noneOwned (r : FeatureRegistry.t)
    (pluginId featureId : string) :
  noneOwned pluginId featureId
    (snd (FeatureRegistry.unregisterFeature featureId None (Some pluginId) r)).
Proof.
  intros implName entry. unfold FeatureRegistry.unregisterFeature, entryAt.
  destruct (JsMap.get featureId (FeatureRegistry.features r)) as [impls|]
    eqn:Himpls; [|cbn [snd]; by rewrite Himpls].
  simpl truthy at 1. cbv iota.
  destruct (truthy (Some pluginId)) as [plugin|] eqn:Hplugin.
  - assert (plugin = pluginId) as ->.
    { simpl in Hplugin. destruct (decide (pluginId = "")); congruence. }
    unfold FeatureRegistry.removePluginImplementations, JsMap.entries.
    rewrite RegistryMore.removePlugin_fold.
    set (kept := List.filter _ impls).
    destruct (JsMap.size kept =? 0)%nat; simpl.
    + by rewrite JsMapFacts.get_delete_eq.
    + rewrite JsMapFacts.get_set_eq. intros Hget Howner.
      apply JsMapFacts.get_In in Hget. apply filter_In in Hget as [Hin Hkept].
      apply negb_true_iff, not_true_iff_false in Hkept. apply Hkept.
      apply existsb_exists. exists (implName, entry). split; [done|]. simpl.
      unfold ownedBy, strictEq. rewrite Howner.
      by rewrite !bool_decide_true.
  - simpl. by rewrite JsMapFacts.get_delete_eq.
Qed.

Lemma unregisterFeatures_noneOwned (pluginId : string)
    (features : list Feature.t) (r : FeatureRegistry.t) :
  let r' :=
    fold_left
      (fun registry feature =>
         snd (FeatureRegistry.unregisterFeature (Feature.id feature) None
                (Some pluginId) registry))
      features r in
  (forall featureId, noneOwned pluginId featureId r ->
                     noneOwned pluginId featureId r') /\
  (forall f, In f features -> noneOwned pluginId (Feature.id f) r').
Proof.
  revert r. induction features as [|f features IH]; intros r; [by split|].
  cbn [fold_left].
  set (r1 := snd (FeatureRegistry.unregisterFeature (Feature.id f) None
                    (Some pluginId) r)).
  destruct (IH r1) as [Hkeep Hall]. split.
  - intros featureId Hnone. apply Hkeep.
    destruct (decide (featureId = Feature.id f)) as [->|Hne].
    + apply unregisterFeature_noneOwned.
    + intros implName entry. unfold r1.
      rewrite unregisterFeature_other_entryAt by done. apply Hnone.
  - intros g [<-|Hg]; [|by apply Hall].
    apply Hkeep, unregisterFeature_noneOwned.
Qed.

Lemma unregisterPluginFeatures_noneOwned (pm : t) (pluginId : string)
    (plugin : Plugin.t) (f : Feature.t) :
  JsMap.get pluginId (plugins pm) = Some plugin ->
  In f (Plugin.features plugin) ->
  noneOwned pluginId (Feature.id f) (unregisterPluginFeatures pluginId pm).
Proof.
  intros Hplugin Hf. unfold unregisterPluginFeatures. rewrite Hplugin.
  by apply (unregisterFeatures_noneOwned pluginId (Plugin.features plugin)).
Qed.

(** X17. When the plugin is loaded and its [deactivate] and [dispose], if it
    has them, resolve, [unloadPlugin] resolves, leaves the plugin with status
    UNLOADED and out of the table of loaded plugins, the other plugins being
    where they were, and the registry holds no entry registered by that
    plugin under the identifier of any of its features. *)
Theorem unloadPlugin_unloads (pm : t) (pluginId : string) (plugin : Plugin.t) :
  JsMap.get pluginId (plugins pm) = Some plugin ->
  callIfPresent (Plugin.deactivate plugin) = None ->
  callIfPresent (Plugin.dispose plugin) = None ->
  let pm' := snd (unloadPlugin pluginId pm) in
  unloadPlugin pluginId pm
  = (Returns tt, Some (Plugin.setStatus PluginStatus.UNLOADED plugin), pm') /\
  getPlugin pm' pluginId = None /\
  (forall other, other <> pluginId -> getPlugin pm' other = getPlugin pm other) /\
  (forall f,
     In f (Plugin.features plugin) ->
     noneOwned pluginId (Feature.id f) (featureRegistry pm')).
Proof.
  intros Hplugin Hdeactivate Hdispose. cbv zeta. unfold unloadPlugin.
  rewrite Hplugin, Hdeactivate, Hdispose. cbn [snd].
  split; [reflexivity|]. unfold getPlugin. cbn [plugins featureRegistry].
  split; [apply JsMapFacts.get_delete_eq|].
  split; [intros other Hother; by apply JsMapFacts.get_delete_ne|].
  intros f Hf. by apply (unregisterPluginFeatures_noneOwned pm pluginId plugin).
Qed.

Lemma unloadPlugin_unloads_witness :
  let pm' := snd (unloadPlugin "pluginB" Sample.bothLoaded) in
  unloadPlugin "pluginB" Sample.bothLoaded
  = (Returns tt,
     Some (Plugin.setStatus PluginStatus.UNLOADED
             (Plugin.setStatus PluginStatus.LOADED Sample.onlyB)), pm') /\
  getPlugin pm' "pluginB" = None /\
  (forall other,
     other <> "pluginB" -> getPlugin pm' other = getPlugin Sample.bothLoaded other) /\
  (forall f,
     In f [Sample.fxb] -> noneOwned "pluginB" (Feature.id f) (featureRegistry pm')).
Proof.
  apply (unloadPlugin_unloads Sample.bothLoaded "pluginB"
           (Plugin.setStatus PluginStatus.LOADED Sample.onlyB)); reflexivity.
Defined.

(** X18. A failure while unloading is rethrown, and what it leaves depends
    on where it happens.  When [deactivate] throws, nothing has changed.
    When [dispose] throws, the plugin is still in the table of loaded
    plugins, with the status it had, although its features have already been
    unregistered. *)
Theorem unloadPlugin_throws (pm : t) (pluginId : string) (plugin : Plugin.t)
    (error : JsThrown) :
  JsMap.get pluginId (plugins pm) = Some plugin ->
  (callIfPresent (Plugin.deactivate plugin) = Some error ->
   unloadPlugin pluginId pm = (Throws error, Some plugin, pm)) /\
  (callIfPresent (Plugin.deactivate plugin) = None ->
   callIfPresent (Plugin.dispose plugin) = Some error ->
   let pm' := snd (unloadPlugin pluginId pm) in
   unloadPlugin pluginId pm = (Throws error, Some plugin, pm') /\
   getPlugin pm' pluginId = Some plugin /\
   featureRegistry pm' = unregisterPluginFeatures pluginId pm /\
   forall f,
     In f (Plugin.features plugin) ->
     noneOwned pluginId (Feature.id f) (featureRegistry pm')).
Proof.
  intros Hplugin. split.
  - intros Hdeactivate. unfold unloadPlugin. by rewrite Hplugin, Hdeactivate.
  - intros Hdeactivate Hdispose. cbv zeta. unfold unloadPlugin.
    rewrite Hplugin, Hdeactivate, Hdispose. cbn [snd].
    split; [reflexivity|]. split; [exact Hplugin|]. split; [reflexivity|].
    intros f Hf. cbn [featureRegistry].
    by apply (unregisterPluginFeatures_noneOwned pm pluginId plugin).
Qed.

Lemma unloadPlugin_throws_witness :
  (callIfPresent (Plugin.deactivate MoreSample.noDispose)
   = Some (newError "cannot dispose") ->
   unloadPlugin "pluginD" MoreSample.withNoDispose
   = (Throws (newError "cannot dispose"), Some MoreSample.noDispose,
      MoreSample.withNoDispose)) /\
  (callIfPresent (Plugin.deactivate MoreSample.noDispose) = None ->
   callIfPresent (Plugin.dispose MoreSample.noDispose)
   = Some (newError "cannot dispose") ->
   let pm' := snd (unloadPlugin "pluginD" MoreSample.withNoDispose) in
   unloadPlugin "pluginD" MoreSample.withNoDispose
   = (Throws (newError "cannot dispose"), Some MoreSample.noDispose, pm') /\
   getPlugin pm' "pluginD" = Some MoreSample.noDispose /\
   featureRegistry pm'
   = unregisterPluginFeatures "pluginD" MoreSample.withNoDispose /\
   forall f,
     In f (Plugin.features MoreSample.noDispose) ->
     noneOwned "pluginD" (Feature.id f) (featureRegistry pm')).
Proof.
  apply (unloadPlugin_throws MoreSample.withNoDispose "pluginD"
           MoreSample.noDispose (newError "cannot dispose")).
  reflexivity.
Defined.

(** *** Executing one feature *)


(** *** A feature that throws *)

(** What is recorded for a feature that throws, when the call resolves. *)
Lemma thrown_feature_recorded (pm : t) (siteConfig : SiteConfig.t)
    (url : string) (document0 : Document) (before after : list Feature.t)
    (f : Feature.t) (error : JsThrown) (document1 : Document)
    (results : list PluginExecutionResult.t)
    (calls : list (Feature.t * FeatureExecutionContext.t))
    (document' : Document) :
  isInitialized pm = true ->
  FeatureRegistry.getApplicableFeatures (featureRegistry pm) siteConfig url
  = before ++ f :: after ->
  Feature.execute f
    (executionContext pm siteConfig url
       (document (runFeatures pm siteConfig url before (initialState document0)))
       f)
  = (Throws error, document1) ->
  executeApplicableFeatures pm siteConfig url document0
  = (Returns results, calls, document') ->
  List.map fst calls = before ++ f :: after /\
  exists rendering pluginResult,
    toStringThrown error = Returns rendering /\
    (forall message, thrownMessage error = Some message ->
                     contains message rendering) /\
    In pluginResult results /\
    PluginExecutionResult.pluginId pluginResult = getFeaturePluginId pm f /\
    PluginExecutionResult.success pluginResult = false /\
    In ("Feature execution failed: " ++ rendering)%string
       (PluginExecutionResult.errors pluginResult) /\
    nth_error (PluginExecutionResult.executedFeatures pluginResult)
      (ownedCount pm (getFeaturePluginId pm f) before)
    = Some (ExecutedFeature.mk (Feature.id f) (getFeatureImplementationName f)
              (FeatureExecutionResult.mk false
                 (Some ("Feature execution failed: " ++ rendering)%string)
                 None)).
Proof.
  intros Hinit Happlicable Hthrows Hcall.
  rewrite PluginManagerFacts.executeApplicableFeatures_initialized, Happlicable in Hcall by done.
  cbv zeta in Hcall.
  set (final := runFeatures pm siteConfig url (before ++ f :: after)
                  (initialState document0)) in *.
  assert (rejected final = None) as Hgoes
    by (by destruct (rejected final)).
  rewrite Hgoes in Hcall. injection Hcall as <- <- <-.
  unfold final in Hgoes |- *. clear final.
  split; [by rewrite PluginManagerFacts.runFeatures_calls|].
  rewrite PluginManagerFacts.runFeatures_app, PluginManagerFacts.runFeatures_cons in Hgoes |- *.
  set (st1 := runFeatures pm siteConfig url before (initialState document0))
    in *.
  set (pluginId := getFeaturePluginId pm f).
  set (previous :=
         default (PluginExecutionResult.mk pluginId true [] [])
           (JsMap.get pluginId (pluginResults st1))).
  pose proof (PluginManagerFacts.runFeatures_resolved_start _ _ _ _ _ Hgoes) as Hstep.
  pose proof (PluginManagerFacts.executeStep_resolved _ _ _ _ _ Hstep) as [Hbefore _].
  destruct (PluginManagerFacts.executeStep_owner pm siteConfig url st1 f Hstep)
    as (recorded & Hrecord & Hfiled).
  rewrite Hthrows in Hrecord. cbn [fst] in Hrecord.
  destruct (PluginManagerFacts.recordOutcome_thrown _ _ _ _ Hrecord) as (rendering & Hconv & ->).
  fold pluginId previous in Hfiled.
  destruct (PluginManagerFacts.runFeatures_keeps_failure pm siteConfig url after _ _ _ Hgoes
              Hfiled eq_refl)
    as (final & Hfinal & Hfailed & [more1 Hexecuted] & [more2 Herrors]).
  simpl in Hexecuted, Herrors.
  assert (length (PluginExecutionResult.executedFeatures previous)
          = ownedCount pm pluginId before) as Hposition.
  { pose proof (PluginManagerFacts.runFeatures_recordedCount pm siteConfig url before
                  (initialState document0) pluginId Hbefore) as Hcount.
    fold st1 in Hcount. unfold recordedCount in Hcount. simpl in Hcount.
    unfold previous. destruct (JsMap.get pluginId (pluginResults st1)); simpl;
      lia. }
  exists rendering, final.
  split; [done|]. split.
  { intros message Hmessage.
    destruct (StringFacts.toStringThrown_contains _ _ Hmessage)
      as (rendering' & Hconv' & Hcontains).
    rewrite Hconv in Hconv'. by injection Hconv' as ->. }
  split; [by eapply JsMapFacts.get_In_values|].
  split.
  { eapply (PluginManagerFacts.runFeatures_pluginId pm siteConfig url after); [exact Hgoes| |exact Hfinal].
    intros pluginId' pluginResult' Hget.
    destruct (decide (pluginId' = pluginId)) as [->|Hne].
    - rewrite Hfiled in Hget. injection Hget as <-. simpl.
      unfold previous.
      destruct (JsMap.get pluginId (pluginResults st1)) as [pr|] eqn:Hprev;
        simpl; [|done].
      eapply (PluginManagerFacts.runFeatures_pluginId pm siteConfig url before
                (initialState document0)); [exact Hbefore|done|exact Hprev].
    - rewrite PluginManagerFacts.executeStep_other in Hget by done.
      eapply (PluginManagerFacts.runFeatures_pluginId pm siteConfig url before
                (initialState document0)); [exact Hbefore|done|exact Hget]. }
  split; [done|].
  split.
  { rewrite Herrors. apply in_or_app. left. apply in_or_app. right. by left. }
  rewrite Hexecuted, <- Hposition, <- app_assoc.
  rewrite nth_error_app2 by lia.
  by replace (_ - _)%nat with 0%nat by lia.
Qed.



(** The rejection does happen: a feature throws a [Symbol], the [catch]
    block throws a [TypeError] while it builds its message, and the call
    rejects with it; the feature after it is not executed. *)
Lemma catch_block_throws :
  let context :=
    FeatureExecutionContext.mk MoreSample.symbolicThenY [] [] Sample.storage
      Sample.url in
  let raised :=
    ThrownError "TypeError" "Cannot convert a Symbol value to a string" in
  executeApplicableFeatures MoreSample.withSymbolic MoreSample.symbolicThenY
    Sample.url []
  = (Throws raised, [(MoreSample.symbolic, context)], []) /\
  executeFeature MoreSample.withSymbolic "s" None context = (Throws raised, []).
Proof. split; vm_compute; reflexivity. Qed.

(** *** Aggregated results *)

Lemma recordOutcome_consistent f outcome pluginResult recorded :
  recordOutcome f outcome pluginResult = Returns recorded ->
  PluginExecutionResult.success pluginResult
  = forallb (fun e => FeatureExecutionResult.success (ExecutedFeature.result e))
      (PluginExecutionResult.executedFeatures pluginResult) ->
  length (PluginExecutionResult.errors pluginResult)
  = length (List.filter
              (fun e =>
                 negb (FeatureExecutionResult.success (ExecutedFeature.result e)))
              (PluginExecutionResult.executedFeatures pluginResult)) ->
  consistent recorded.
Proof.
  intros Hrecord Hsuccess Herrors. unfold consistent.
  destruct outcome as [result|thrown]; simpl in Hrecord.
  - destruct (FeatureExecutionResult.success result) eqn:Hresult;
      simpl in Hrecord; injection Hrecord as <-; simpl;
      rewrite forallb_app, List.filter_app, !length_app, <- Hsuccess,
        <- Herrors; simpl; rewrite Hresult; simpl.
    + split; [by rewrite andb_true_r|]. split; [lia|].
      by destruct (PluginExecutionResult.executedFeatures _).
    + split; [by rewrite andb_false_r|]. split; [lia|].
      by destruct (PluginExecutionResult.executedFeatures _).
  - destruct (toStringThrown thrown); [|done]. injection Hrecord as <-. simpl.
    rewrite forallb_app, List.filter_app, !length_app, <- Herrors. simpl.
    split; [by rewrite andb_false_r|]. split; [lia|].
    by destruct (PluginExecutionResult.executedFeatures _).
Qed.

Lemma runFeatures_consistent (pm : t) siteConfig url features st :
  rejected (runFeatures pm siteConfig url features st) = None ->
  List.Forall (fun kv => consistent (snd kv)) (pluginResults st) ->
  List.Forall (fun kv => consistent (snd kv))
    (pluginResults (runFeatures pm siteConfig url features st)).
Proof.
  revert st. induction features as [|f features IH]; intros st Hgoes Hst;
    [done|].
  pose proof (PluginManagerFacts.runFeatures_resolved_cons _ _ _ _ _ _ Hgoes)
    as Hstep.
  rewrite PluginManagerFacts.runFeatures_cons in Hgoes |- *.
  apply (IH _ Hgoes).
  destruct (PluginManagerFacts.executeStep_resolved _ _ _ _ _ Hstep)
    as (_ & recorded & Hrecord & ->).
  cbn [pluginResults]. apply JsMapMore.Forall_set; [done|]. simpl.
  destruct (JsMap.get (getFeaturePluginId pm f) (pluginResults st))
    as [pluginResult|] eqn:Hget; simpl in Hrecord.
  - pose proof (JsMapMore.get_Forall _ _ _ _ Hget Hst) as (Hs & He & _).
    by eapply recordOutcome_consistent.
  - by eapply recordOutcome_consistent.
Qed.



(** *** How the results are grouped *)

Lemma has_keys {V : Type} (k : string) (m : JsMap.t V) :
  JsMap.has k m = existsb (fun k' => bool_decide (k' = k)) (JsMap.keys m).
Proof.
  unfold JsMap.has, JsMap.keys.
  induction m as [|[k0 v0] m IH]; simpl; [done|].
  destruct (decide (k0 = k)) as [->|Hne].
  - by rewrite bool_decide_true.
  - by rewrite bool_decide_false.
Qed.

Lemma keys_set {V : Type} (k : string) (v : V) (m : JsMap.t V) :
  JsMap.keys (JsMap.set k v m)
  = if existsb (fun k' => bool_decide (k' = k)) (JsMap.keys m)
    then JsMap.keys m else JsMap.keys m ++ [k].
Proof.
  rewrite <- has_keys. unfold JsMap.has.
  destruct (JsMap.get k m) as [v'|] eqn:Hget.
  - apply JsMapFacts.keys_set_present. by eexists.
  - by apply JsMapFacts.keys_set_absent.
Qed.

Section Groups.
Context (pm : t) (siteConfig : SiteConfig.t) (url : string).

Local Abbreviation run := (runFeatures pm siteConfig url).
Local Abbreviation owner := (getFeaturePluginId pm).
Local Abbreviation recorded :=
  (fun (st : ExecState) (pluginId : string) =>
     match JsMap.get pluginId (pluginResults st) with
     | Some pluginResult =>
         List.map
           (fun e => (ExecutedFeature.featureId e, ExecutedFeature.implementation e))
           (PluginExecutionResult.executedFeatures pluginResult)
     | None => []
     end).

Lemma runFeatures_keys features st :
  rejected (run features st) = None ->
  JsMap.keys (pluginResults (run features st))
  = fold_left
      (fun seen name =>
         if existsb (fun k => bool_decide (k = name)) seen then seen
         else seen ++ [name])
      (List.map owner features) (JsMap.keys (pluginResults st)).
Proof.
  revert st. induction features as [|f features IH]; intros st Hgoes; [done|].
  pose proof (PluginManagerFacts.runFeatures_resolved_cons _ _ _ _ _ _ Hgoes)
    as Hstep.
  rewrite PluginManagerFacts.runFeatures_cons in Hgoes |- *.
  rewrite (IH _ Hgoes).
  destruct (PluginManagerFacts.executeStep_resolved _ _ _ _ _ Hstep)
    as (_ & pluginResult & _ & ->).
  simpl. by rewrite keys_set.
Qed.

Lemma runFeatures_unique_keys features st :
  rejected (run features st) = None ->
  List.NoDup (JsMap.keys (pluginResults st)) ->
  List.NoDup (JsMap.keys (pluginResults (run features st))).
Proof.
  revert st. induction features as [|f features IH]; intros st Hgoes Hst;
    [done|].
  pose proof (PluginManagerFacts.runFeatures_resolved_cons _ _ _ _ _ _ Hgoes)
    as Hstep.
  rewrite PluginManagerFacts.runFeatures_cons in Hgoes |- *.
  apply (IH _ Hgoes).
  destruct (PluginManagerFacts.executeStep_resolved _ _ _ _ _ Hstep)
    as (_ & pluginResult & _ & ->).
  by apply JsMapFacts.set_unique_keys.
Qed.

Lemma runFeatures_recorded features st pluginId :
  rejected (run features st) = None ->
  recorded (run features st) pluginId
  = recorded st pluginId
    ++ List.map (fun f => (Feature.id f, getFeatureImplementationName f))
         (List.filter (fun f => bool_decide (owner f = pluginId)) features).
Proof.
  revert st. induction features as [|f features IH]; intros st Hgoes.
  - by rewrite app_nil_r.
  - pose proof (PluginManagerFacts.runFeatures_resolved_cons _ _ _ _ _ _ Hgoes)
      as Hstep.
    rewrite PluginManagerFacts.runFeatures_cons in Hgoes |- *.
    rewrite (IH _ Hgoes). simpl.
    destruct (PluginManagerFacts.executeStep_resolved _ _ _ _ _ Hstep)
      as (_ & pluginResult & Hrecord & ->).
    cbn [pluginResults].
    destruct (PluginManagerFacts.recordOutcome_executed _ _ _ _ Hrecord)
      as (record & Hadded & Hid & Himplementation).
    case_bool_decide as Howner.
    + subst pluginId. rewrite JsMapFacts.get_set_eq.
      rewrite Hadded, map_app. simpl. rewrite <- app_assoc, Hid, Himplementation.
      f_equal. by destruct (JsMap.get (owner f) (pluginResults st)).
    + by rewrite JsMapFacts.get_set_ne.
Qed.


End Groups.


(** *** What is executed *)

(** X22. Every feature that [executeApplicableFeatures] executes comes from
    a mapping of [siteConfig.enabledFeatures] that is enabled, resolves to
    that feature in the registry, and for which the feature answered that it
    applies to the URL: nothing is executed for a disabled mapping, an
    unresolved one, or a feature that declined or threw. *)
Theorem executed_features_are_enabled (pm : t) (siteConfig : SiteConfig.t)
    (url : string) (document0 : Document) (f : Feature.t)
    (context : FeatureExecutionContext.t) :
  In (f, context)
     (snd (fst (executeApplicableFeatures pm siteConfig url document0))) ->
  exists mapping,
    In mapping (SiteConfig.enabledFeatures siteConfig) /\
    FeatureMapping.enabled mapping = true /\
    FeatureRegistry.getFeature (featureRegistry pm)
      (FeatureMapping.featureId mapping) (FeatureMapping.implementation mapping)
    = Some f /\
    Feature.isApplicable f url (Some siteConfig) = Returns true.
Proof.
  destruct (isInitialized pm) eqn:Hinit.
  2:{ unfold executeApplicableFeatures. by rewrite Hinit. }
  rewrite PluginManagerFacts.executeApplicableFeatures_initialized by done.
  simpl. intros Hin.
  assert (In f (FeatureRegistry.getApplicableFeatures (featureRegistry pm)
                  siteConfig url)) as Happlicable.
  { by destruct (PluginManagerFacts.runFeatures_executed pm siteConfig url
                    _ _ _ Hin) as [[]|Hexecuted]. }
  destruct (FeatureRegistryFacts.getApplicableFeatures_order
              (featureRegistry pm) siteConfig url)
    as (Hflat & _ & _ & Hall).
  rewrite Hflat in Happlicable.
  apply in_flat_map in Happlicable as (mapping & Hmapping & Hf).
  rewrite List.Forall_forall in Hall.
  destruct (Hall _ Hmapping) as (Hin' & Henabled & g & Hg & Hget & Happ).
  rewrite Hg in Hf. destruct Hf as [<-|[]]. by exists mapping.
Qed.

Lemma executed_features_are_enabled_witness :
  exists mapping,
    In mapping (SiteConfig.enabledFeatures Sample.xThenY) /\
    FeatureMapping.enabled mapping = true /\
    FeatureRegistry.getFeature (featureRegistry Sample.ready)
      (FeatureMapping.featureId mapping) (FeatureMapping.implementation mapping)
    = Some Sample.fy /\
    Feature.isApplicable Sample.fy Sample.url (Some Sample.xThenY)
    = Returns true.
Proof.
  apply (executed_features_are_enabled Sample.ready Sample.xThenY Sample.url []
           Sample.fy
           (FeatureExecutionContext.mk Sample.xThenY [] [] Sample.storage
              Sample.url)).
  vm_compute. right. left. reflexivity.
Defined.

(** X23. A feature is attributed to a plugin by its identifier alone: to
    the first plugin, in the order of loading, that has a feature with that
    identifier, whoever registered the implementation that runs, and to
    "unknown" when no loaded plugin has one. *)
Theorem getFeaturePluginId_first_owner (pm : t) (feature : Feature.t) :
  (getFeaturePluginId pm feature = "unknown" /\
   forall pluginId plugin g,
     In (pluginId, plugin) (plugins pm) ->
     In g (Plugin.features plugin) ->
     Feature.id g <> Feature.id feature) \/
  (exists before pluginId plugin after g,
     plugins pm = before ++ (pluginId, plugin) :: after /\
     getFeaturePluginId pm feature = pluginId /\
     In g (Plugin.features plugin) /\
     Feature.id g = Feature.id feature /\
     forall pluginId' plugin' g',
       In (pluginId', plugin') before ->
       In g' (Plugin.features plugin') ->
       Feature.id g' <> Feature.id feature).
Proof.
  unfold getFeaturePluginId, JsMap.entries.
  set (owns := fun '(pluginId, plugin) =>
                 existsb (fun f => bool_decide (Feature.id f = Feature.id feature))
                   (Plugin.features plugin)).
  assert (forall (l : list (string * Plugin.t)),
            List.Forall (fun y => owns y = false) l ->
            forall pluginId plugin g,
              In (pluginId, plugin) l -> In g (Plugin.features plugin) ->
              Feature.id g <> Feature.id feature) as Hnone.
  { intros l Hl pluginId plugin g Hin Hg Hid.
    rewrite List.Forall_forall in Hl. specialize (Hl _ Hin). simpl in Hl.
    apply not_true_iff_false in Hl. apply Hl. apply existsb_exists.
    exists g. split; [done|]. by apply bool_decide_eq_true. }
  pose proof (PluginManagerFacts.find_first owns (plugins pm)) as Hfind.
  destruct (List.find owns (plugins pm)) as [[pluginId plugin]|].
  - right. destruct Hfind as (before & after & Hsplit & Hbefore & Howns).
    simpl in Howns. apply existsb_exists in Howns as (g & Hg & Hid).
    apply bool_decide_eq_true in Hid.
    exists before, pluginId, plugin, after, g. repeat split; try done.
    by apply Hnone.
  - left. split; [done|]. by apply Hnone.
Qed.

End ManagerMore.

(** ** Loading and unloading again *)

Module LoadUnload.
Import PluginManager ManagerQueries MoreSpec RoundTripSpec.

Section Tables.
Context {V : Type}.
Implicit Types (m : JsMap.t V) (k : string) (v : V).

Lemma get_app_absent k m1 m2 :
  JsMap.get k m1 = None -> JsMap.get k (m1 ++ m2) = JsMap.get k m2.
Proof.
  induction m1 as [|[k0 v0] m1 IH]; simpl; [done|].
  destruct (decide (k0 = k)); [done|exact IH].
Qed.

Lemma set_app_absent k v m1 m2 :
  JsMap.get k m1 = None -> JsMap.set k v (m1 ++ m2) = m1 ++ JsMap.set k v m2.
Proof.
  induction m1 as [|[k0 v0] m1 IH]; simpl; [done|].
  destruct (decide (k0 = k)); [done|]. intros H. by rewrite IH.
Qed.

Lemma delete_app_absent k m1 m2 :
  JsMap.get k m1 = None -> JsMap.delete k (m1 ++ m2) = m1 ++ JsMap.delete k m2.
Proof.
  intros H. by rewrite JsMapMore.delete_app, JsMapMore.delete_absent.
Qed.

Lemma In_keys_set k' k v m :
  In k' (JsMap.keys (JsMap.set k v m)) <-> In k' (JsMap.keys m) \/ k' = k.
Proof.
  rewrite ManagerMore.keys_set.
  destruct (existsb _ (JsMap.keys m)) eqn:Hhas.
  - split; [auto|]. intros [?| ->]; [done|].
    apply existsb_exists in Hhas as (k0 & Hk0 & Heq).
    apply bool_decide_eq_true in Heq. by subst.
  - rewrite in_app_iff. simpl. intuition.
Qed.

Lemma In_keys_delete k' k m :
  In k' (JsMap.keys (JsMap.delete k m)) <-> In k' (JsMap.keys m) /\ k' <> k.
Proof.
  unfold JsMap.keys, JsMap.delete. rewrite !in_map_iff. split.
  - intros ([k0 v0] & <- & Hin). apply filter_In in Hin as [Hin Hne].
    simpl in *. apply negb_true_iff, bool_decide_eq_false in Hne.
    split; [|done]. by exists (k0, v0).
  - intros (([k0 v0] & <- & Hin) & Hne). exists (k0, v0). split; [done|].
    apply filter_In. split; [done|]. simpl.
    by apply negb_true_iff, bool_decide_eq_false.
Qed.

Lemma no_keys m : (forall k, ~ In k (JsMap.keys m)) -> m = [].
Proof. destruct m as [|[k v] m]; [done|]. intros H. destruct (H k). by left. Qed.

End Tables.

Lemma filter_none {A : Type} (p : A -> bool) (l : list A) :
  (forall a, In a l -> p a = false) -> List.filter p l = [].
Proof.
  induction l as [|a l IH]; simpl; intros H; [done|].
  rewrite (H a) by auto. apply IH. intros b Hb. apply H. by right.
Qed.

Section RoundTrip.
Context (pluginId : string) (ids : list string) (R : FeatureRegistry.t).
Hypothesis Hfresh :
  forall k, In k ids -> JsMap.get k (FeatureRegistry.features R) = None.

Lemma grownBy_start :
  (forall k, In k ids -> FeatureRegistry.defaultImplementations R !! k = None) ->
  grownBy pluginId ids R [] R.
Proof.
  intros Hdefaults. split; [by rewrite app_nil_r|].
  split; [by intros k []|]. split; [constructor|].
  split; [by intros k Hk _; apply Hdefaults|]. by split.
Qed.

Lemma registerFeature_grownBy ext r f isDefault now :
  In (Feature.id f) ids ->
  grownBy pluginId ids R ext r ->
  exists ext',
    grownBy pluginId ids R ext'
      (FeatureRegistry.registerFeature f (Some pluginId) isDefault now r) /\
    (forall k, In k (JsMap.keys ext') <->
               In k (JsMap.keys ext) \/ k = Feature.id f).
Proof.
  intros Hid (Hfeatures & Hkeys & Howned & Hnodefault & Hframe & Haliases).
  pose proof (Hfresh _ Hid) as Hnone.
  set (entry := FeatureRegistryEntry.mk f now (Some pluginId)).
  set (table :=
         JsMap.set (FeatureRegistry.getImplementationName f) entry
           (default JsMap.empty (JsMap.get (Feature.id f) ext))).
  exists (JsMap.set (Feature.id f) table ext).
  split; [|intros k; apply In_keys_set].
  assert (JsMap.get (Feature.id f) (FeatureRegistry.features r)
          = JsMap.get (Feature.id f) ext) as Hget
    by (rewrite Hfeatures; by apply get_app_absent).
  split; [|split; [|split; [|split; [|split]]]].
  - destruct (JsMap.get (Feature.id f) ext) as [tbl|] eqn:Hext.
    + rewrite (FeatureRegistryFacts.registerFeature_present _ _ _ _ _ _ Hget).
      rewrite Hfeatures. by apply set_app_absent.
    + rewrite (RegistryMore.registerFeature_absent _ _ _ _ _ Hget).
      rewrite Hfeatures. by apply set_app_absent.
  - intros k Hk. apply In_keys_set in Hk as [Hk| ->]; [by apply Hkeys|done].
  - apply JsMapMore.Forall_set; [done|]. simpl. unfold table.
    apply JsMapMore.Forall_set; [|done].
    destruct (JsMap.get (Feature.id f) ext) as [tbl|] eqn:Hext; [|constructor].
    apply (JsMapMore.get_Forall
             (fun binding =>
                List.Forall
                  (fun kv => FeatureRegistryEntry.pluginId (snd kv)
                             = Some pluginId) (snd binding))
             _ _ _ Hext Howned).
  - intros k Hk Hnotin.
    assert (k <> Feature.id f) as Hne.
    { intros ->. apply Hnotin, In_keys_set. by right. }
    assert (~ In k (JsMap.keys ext)) as Hnotin'.
    { intros Hin. apply Hnotin, In_keys_set. by left. }
    rewrite FeatureRegistryFacts.registerFeature_defaults.
    destruct (isDefault || _); [rewrite lookup_insert_ne by done|];
      by apply Hnodefault.
  - intros k Hk.
    assert (k <> Feature.id f) as Hne by (by intros ->).
    rewrite FeatureRegistryFacts.registerFeature_defaults.
    destruct (isDefault || _); [rewrite lookup_insert_ne by done|];
      by apply Hframe.
  - exact Haliases.
Qed.

Lemma unregisterFeature_grownBy ext r featureId :
  In featureId ids ->
  grownBy pluginId ids R ext r ->
  grownBy pluginId ids R (JsMap.delete featureId ext)
    (snd (FeatureRegistry.unregisterFeature featureId None (Some pluginId) r)).
Proof.
  intros Hid (Hfeatures & Hkeys & Howned & Hnodefault & Hframe & Haliases).
  pose proof (Hfresh _ Hid) as Hnone.
  assert (JsMap.get featureId (FeatureRegistry.features r)
          = JsMap.get featureId ext) as Hget
    by (rewrite Hfeatures; by apply get_app_absent).
  unfold FeatureRegistry.unregisterFeature. rewrite Hget.
  destruct (JsMap.get featureId ext) as [tbl|] eqn:Hext.
  2:{ cbn [snd]. rewrite JsMapMore.delete_absent by done. by repeat split. }
  assert (snd (let '(implementations1, removed) :=
                 FeatureRegistry.removePluginImplementations pluginId tbl in
               if (JsMap.size implementations1 =? 0)%nat
               then (removed,
                     FeatureRegistry.mk
                       (JsMap.delete featureId (FeatureRegistry.features r))
                       (delete featureId (FeatureRegistry.defaultImplementations r))
                       (FeatureRegistry.aliases r))
               else (removed,
                     FeatureRegistry.mk
                       (JsMap.set featureId implementations1
                          (FeatureRegistry.features r))
                       (FeatureRegistry.defaultImplementations r)
                       (FeatureRegistry.aliases r)))
          = FeatureRegistry.mk
              (JsMap.delete featureId (FeatureRegistry.features r))
              (delete featureId (FeatureRegistry.defaultImplementations r))
              (FeatureRegistry.aliases r)) as Hplugin.
  { unfold FeatureRegistry.removePluginImplementations, JsMap.entries.
    rewrite RegistryMore.removePlugin_fold.
    assert (List.filter
              (fun kv =>
                 negb (existsb
                         (fun kv' => ownedBy pluginId (snd kv')
                                     && bool_decide (fst kv' = fst kv)) tbl))
              tbl = []) as ->.
    { pose proof (JsMapMore.get_Forall
                    (fun binding =>
                       List.Forall
                         (fun kv => FeatureRegistryEntry.pluginId (snd kv)
                                    = Some pluginId) (snd binding))
                    _ _ _ Hext Howned) as Htbl. simpl in Htbl.
      rewrite List.Forall_forall in Htbl.
      apply filter_none. intros kv Hin. apply negb_false_iff.
      apply existsb_exists. exists kv. split; [done|].
      unfold ownedBy, strictEq. rewrite (Htbl _ Hin).
      by rewrite !bool_decide_true. }
    reflexivity. }
  assert (grownBy pluginId ids R (JsMap.delete featureId ext)
            (FeatureRegistry.mk
               (JsMap.delete featureId (FeatureRegistry.features r))
               (delete featureId (FeatureRegistry.defaultImplementations r))
               (FeatureRegistry.aliases r))) as Hgoal.
  { split; [|split; [|split; [|split; [|split]]]]; simpl.
    - rewrite Hfeatures. by apply delete_app_absent.
    - intros k Hk. apply In_keys_delete in Hk as [Hk _]. by apply Hkeys.
    - by apply JsMapMore.Forall_delete.
    - intros k Hk Hnotin.
      destruct (decide (k = featureId)) as [->|Hne];
        [apply lookup_delete_eq|].
      rewrite lookup_delete_ne by done. apply Hnodefault; [done|].
      intros Hin. apply Hnotin, In_keys_delete. by split.
    - intros k Hk. assert (k <> featureId) as Hne by (by intros ->).
      rewrite lookup_delete_ne by done. by apply Hframe.
    - exact Haliases. }
  simpl truthy at 1. cbv iota.
  destruct (truthy (Some pluginId)) as [plugin|] eqn:Htruthy.
  - assert (plugin = pluginId) as ->.
    { simpl in Htruthy. destruct (decide (pluginId = "")); congruence. }
    by rewrite Hplugin.
  - exact Hgoal.
Qed.

Lemma registerFeatures_grownBy (features : list Feature.t) (now : Z)
    (index : nat) ext r :
  (forall f, In f features -> In (Feature.id f) ids) ->
  grownBy pluginId ids R ext r ->
  exists ext',
    grownBy pluginId ids R ext'
      (snd (fold_left
              (fun '(index, registry) feature =>
                 let isDefault := (index =? 0)%nat in
                 (S index,
                  FeatureRegistry.registerFeature feature (Some pluginId)
                    isDefault now registry))
              features (index, r))) /\
    (forall k, In k (JsMap.keys ext') <->
               In k (JsMap.keys ext) \/ In k (List.map Feature.id features)).
Proof.
  revert index ext r.
  induction features as [|f features IH]; intros index ext r Hids Hgrown.
  - exists ext. split; [done|]. simpl. tauto.
  - destruct (registerFeature_grownBy ext r f (index =? 0)%nat now)
      as (ext1 & Hgrown1 & Hkeys1); [apply Hids; by left|done|].
    destruct (IH (S index) ext1 _ (fun g Hg => Hids g (or_intror Hg)) Hgrown1)
      as (ext2 & Hgrown2 & Hkeys2).
    exists ext2. split; [exact Hgrown2|].
    intros k. rewrite Hkeys2, Hkeys1. simpl. intuition.
Qed.

Lemma unregisterFeatures_grownBy (features : list Feature.t) ext r :
  (forall f, In f features -> In (Feature.id f) ids) ->
  grownBy pluginId ids R ext r ->
  exists ext',
    grownBy pluginId ids R ext'
      (fold_left
         (fun registry feature =>
            snd (FeatureRegistry.unregisterFeature (Feature.id feature) None
                   (Some pluginId) registry))
         features r) /\
    (forall k, In k (JsMap.keys ext') <->
               In k (JsMap.keys ext) /\ ~ In k (List.map Feature.id features)).
Proof.
  revert ext r.
  induction features as [|f features IH]; intros ext r Hids Hgrown.
  - exists ext. split; [done|]. simpl. tauto.
  - pose proof (unregisterFeature_grownBy ext r (Feature.id f)
                  (Hids f (or_introl eq_refl)) Hgrown) as Hgrown1.
    destruct (IH _ _ (fun g Hg => Hids g (or_intror Hg)) Hgrown1)
      as (ext2 & Hgrown2 & Hkeys2).
    exists ext2. split; [exact Hgrown2|].
    intros k. rewrite Hkeys2, In_keys_delete. simpl.
    split; [intros [[? ?] ?]|intros [? ?]]; intuition.
Qed.

End RoundTrip.

(** Registering the features of a plugin and unregistering them again gives
    back the registry, when none of their identifiers was known to it. *)
Lemma register_unregister_features (plugin : Plugin.t) (now : Z)
    (pluginId : string) (R : FeatureRegistry.t) :
  (forall f, In f (Plugin.features plugin) ->
             JsMap.get (Feature.id f) (FeatureRegistry.features R) = None /\
             FeatureRegistry.defaultImplementations R !! Feature.id f = None) ->
  fold_left
    (fun registry feature =>
       snd (FeatureRegistry.unregisterFeature (Feature.id feature) None
              (Some pluginId) registry))
    (Plugin.features plugin)
    (snd (fold_left
            (fun '(index, registry) feature =>
               let isDefault := (index =? 0)%nat in
               (S index,
                FeatureRegistry.registerFeature feature (Some pluginId)
                  isDefault now registry))
            (Plugin.features plugin) (0%nat, R)))
  = R.
Proof.
  intros Hfresh.
  set (ids := List.map Feature.id (Plugin.features plugin)).
  assert (forall k, In k ids ->
                    JsMap.get k (FeatureRegistry.features R) = None) as Htables.
  { intros k Hk. apply in_map_iff in Hk as (f & <- & Hf).
    by destruct (Hfresh f Hf). }
  assert (forall k, In k ids ->
                    FeatureRegistry.defaultImplementations R !! k = None)
    as Hdefaults.
  { intros k Hk. apply in_map_iff in Hk as (f & <- & Hf).
    by destruct (Hfresh f Hf). }
  assert (forall f, In f (Plugin.features plugin) -> In (Feature.id f) ids)
    as Hids by (intros f Hf; by apply in_map).
  destruct (registerFeatures_grownBy pluginId ids R Htables
              (Plugin.features plugin) now 0 [] R Hids
              (grownBy_start pluginId ids R Hdefaults))
    as (ext1 & Hgrown1 & Hkeys1).
  destruct (unregisterFeatures_grownBy pluginId ids R Htables
              (Plugin.features plugin) ext1 _ Hids Hgrown1)
    as (ext2 & Hgrown2 & Hkeys2).
  assert (ext2 = []) as ->.
  { apply no_keys. intros k Hk. apply Hkeys2 in Hk as [Hk Hnot].
    apply Hkeys1 in Hk as [[]|Hk]. by apply Hnot. }
  destruct Hgrown2 as (Hfeatures & _ & _ & Hnodefault & Hframe & Haliases).
  rewrite app_nil_r in Hfeatures.
  match goal with |- ?r = R => set (r2 := r) in * end.
  assert (FeatureRegistry.defaultImplementations r2
          = FeatureRegistry.defaultImplementations R) as Hdef.
  { apply map_eq. intros k.
    destruct (decide (k ∈ ids)) as [Hk|Hk].
    - apply list_elem_of_In in Hk.
      rewrite Hnodefault by (done || by intros []). symmetry.
      by apply Hdefaults.
    - apply Hframe. intros Hin. by apply Hk, list_elem_of_In. }
  destruct r2 as [features2 defaults2 aliases2], R as [features0 defaults0 aliases0].
  simpl in *. by subst.
Qed.

(** X24. Loading a plugin and unloading it again is a round trip when none
    of the feature identifiers of the plugin was known to the registry (no
    table, no default) and the lifecycle callbacks resolve: the manager, with
    its table of plugins and its registry, is exactly what it was before the
    plugin was loaded. *)
Theorem load_unload_round_trip (plugin : Plugin.t) (now : Z) (pm : t) :
  JsMap.has (Plugin.id plugin) (plugins pm) = false ->
  Plugin.initialize plugin (initContext pm) = None ->
  callIfPresent (Plugin.activate plugin) = None ->
  callIfPresent (Plugin.deactivate plugin) = None ->
  callIfPresent (Plugin.dispose plugin) = None ->
  (forall f, In f (Plugin.features plugin) ->
             JsMap.get (Feature.id f)
               (FeatureRegistry.features (featureRegistry pm)) = None /\
             FeatureRegistry.defaultImplementations (featureRegistry pm)
               !! Feature.id f = None) ->
  let loaded := snd (loadPlugin plugin now pm) in
  fst (fst (unloadPlugin (Plugin.id plugin) loaded)) = Returns tt /\
  snd (unloadPlugin (Plugin.id plugin) loaded) = pm.
Proof.
  intros Hnew Hinit Hactivate Hdeactivate Hdispose Hfresh. cbv zeta.
  assert (JsMap.get (Plugin.id plugin) (plugins pm) = None) as Hnone
    by by apply JsMapFacts.has_false.
  rewrite (ManagerMore.loadPlugin_resolves plugin now pm Hnew Hinit Hactivate).
  cbn [snd]. unfold unloadPlugin. cbn [plugins].
  rewrite JsMapFacts.get_set_eq.
  change (Plugin.deactivate (Plugin.setStatus _ plugin))
    with (Plugin.deactivate plugin).
  change (Plugin.dispose (Plugin.setStatus _ plugin))
    with (Plugin.dispose plugin).
  rewrite Hdeactivate, Hdispose. cbn [fst snd]. split; [reflexivity|].
  cbn [plugins featureRegistry storage isInitialized initContext].
  rewrite JsMapMore.delete_set_absent by done.
  unfold unregisterPluginFeatures. cbn [plugins featureRegistry].
  rewrite JsMapFacts.get_set_eq.
  change (Plugin.features (Plugin.setStatus _ plugin))
    with (Plugin.features plugin).
  transitivity (mk (plugins pm) (featureRegistry pm) (storage pm)
                  (isInitialized pm) (initContext pm)); [|by destruct pm].
  f_equal.
  exact (register_unregister_features plugin now (Plugin.id plugin)
           (featureRegistry pm) Hfresh).
Qed.

Lemma load_unload_round_trip_witness :
  let loaded := snd (loadPlugin Sample.onlyA 1%Z MoreSample.fresh) in
  fst (fst (unloadPlugin "pluginA" loaded)) = Returns tt /\
  snd (unloadPlugin "pluginA" loaded) = MoreSample.fresh.
Proof.
  apply (load_unload_round_trip Sample.onlyA 1%Z MoreSample.fresh);
    try reflexivity.
  intros f [<-|[]]. split; reflexivity.
Defined.

End LoadUnload.

(** ** The registry across calls *)

Module RegistryAcrossCalls.
Import FeatureRegistry RegistrySpec.

(** X25. What [getApplicableFeatures] returns, whatever the registry and the
    site configuration: the features contributed by the selected mappings,
    these taken in ascending order of [priority || 999] and, among mappings
    of one such priority, in the order of [siteConfig.enabledFeatures]; each
    selected mapping is one of the configuration, is enabled, resolves
    through [getFeature] to the one feature it contributes, and that
    feature's [isApplicable] returned true. *)
Theorem getApplicableFeatures_sorted_selection (r : t)
    (siteConfig : SiteConfig.t) (url : string) :
  getApplicableFeatures r siteConfig url
  = flat_map (selected r siteConfig url) (selectedMappings r siteConfig url) /\
  StronglySorted (keyLe priorityOr999) (selectedMappings r siteConfig url) /\
  (forall k,
     List.filter (fun m => bool_decide (priorityOr999 m = k))
       (sortedMappings siteConfig)
     = List.filter (fun m => bool_decide (priorityOr999 m = k))
         (SiteConfig.enabledFeatures siteConfig)) /\
  List.Forall
    (fun m =>
       In m (SiteConfig.enabledFeatures siteConfig) /\
       FeatureMapping.enabled m = true /\
       exists f,
         selected r siteConfig url m = [f] /\
         getFeature r (FeatureMapping.featureId m)
           (FeatureMapping.implementation m) = Some f /\
         Feature.isApplicable f url (Some siteConfig) = Returns true)
    (selectedMappings r siteConfig url).
Proof. apply FeatureRegistryFacts.getApplicableFeatures_order. Qed.

(** X26. Starting from a new registry, every sequence of [registerFeature]
    and [unregisterFeature] calls in which no call unregisters by plugin
    identifier alone leaves the default table naming registered
    implementations only: whenever a feature identifier has a default, the
    implementation table of that identifier holds an entry under that
    name. *)
Theorem defaults_name_registered_implementations (calls : list Call) :
  forallb (fun c => negb (byPluginOnly c)) calls = true ->
  defaultsPresent (applyCalls calls new).
Proof.
  intros Hcalls.
  apply FeatureRegistryFacts.applyCalls_defaultsPresent; [exact Hcalls|].
  apply FeatureRegistryFacts.new_defaultsPresent.
Qed.

Lemma defaults_name_registered_implementations_witness :
  defaultsPresent
    (applyCalls [Register Sample.fxa (Some "pluginA") false 0;
                 Register Sample.fxb (Some "pluginB") false 1;
                 Unregister "x" (Some "a") None] new).
Proof.
  apply (defaults_name_registered_implementations
           [Register Sample.fxa (Some "pluginA") false 0;
            Register Sample.fxb (Some "pluginB") false 1;
            Unregister "x" (Some "a") None]).
  reflexivity.
Defined.

End RegistryAcrossCalls.
